(** * The MediaDescrambler JNI glue, embedded and verified

    Source: [media/jni/android_media_MediaDescrambler.cpp].

    The native entry point [android_media_MediaDescrambler_native_descramble]
    computes a subsample layout ([getSubSampleInfo]), validates the caller's
    source and destination windows ([getBufferAndSize]), and drives one remote
    descramble through the session's shared-memory region
    ([JDescrambler::ensureBufferCapacity], [JDescrambler::descramble]).

    The embedding is shallow.  C++ integers are [Z] with their conversions
    written out, JNI and allocator calls are logged in a trace of events,
    session state is passed explicitly, and accesses outside an object are a
    separate [Undefined] outcome.

    Conventions of the model:
    - [size_t] and [ssize_t] are 32 or 64 bits wide, by [Platform];
      conversions between integer types and 32-bit signed additions wrap;
    - [GetIntArrayElements] and [GetByteArrayElements] succeed and hand out
      the array's own storage;
    - [MemoryDealer::allocate] may hand back NULL; a region it does hand
      back has the requested size;
    - the scoped [Mutex::Autolock] of [descramble] has no sequential effect
      and is not modelled. *)

From Stdlib Require Import ZArith List Lia Bool String.
From Stdlib Require Import Strings.Byte.
Import ListNotations.
Local Open Scope Z_scope.

(** ** Machine integers *)

Module MachineInt.

(** Conversion to an unsigned [w]-bit integer. *)
Definition to_unsigned (w x : Z) : Z := x mod 2 ^ w.

(** Conversion to a signed [w]-bit integer (two's complement). *)
Definition to_signed (w x : Z) : Z :=
  (x + 2 ^ (w - 1)) mod 2 ^ w - 2 ^ (w - 1).

End MachineInt.
Export MachineInt.

Definition INT32_MAX : Z := 2147483647.
Definition INT32_MIN : Z := -2147483648.

Definition to_jint : Z -> Z := to_signed 32.
Definition to_uint32 : Z -> Z := to_unsigned 32.
Definition to_uint64 : Z -> Z := to_unsigned 64.

(** [size_t] and [ssize_t] are platform types: 32 bits wide on the 32-bit
    ABIs and 64 bits wide on the 64-bit ABIs this file is built for. *)
Inductive Platform : Type := ILP32 | LP64.

Definition size_bits (p : Platform) : Z :=
  match p with ILP32 => 32 | LP64 => 64 end.

Definition to_size_t (p : Platform) : Z -> Z := to_unsigned (size_bits p).
Definition to_ssize_t (p : Platform) : Z -> Z := to_signed (size_bits p).
Definition SSIZE_MAX (p : Platform) : Z := 2 ^ (size_bits p - 1) - 1.

(** ** Data *)

(** Modelled from the spec: the [SubSample] struct is declared by the CAS
    HAL, not in this file; the spec gives it two [u32] fields. *)
Record SubSample : Type := mkSubSample {
  numBytesOfClearData : Z;
  numBytesOfEncryptedData : Z
}.

(** Modelled from the spec: [sizeof(SubSample)], two [u32] fields. *)
Definition sizeof_SubSample : Z := 8.

(** [(signed)(INT32_MAX / sizeof(SubSample))] *)
Definition MAX_COUNT : Z := to_jint (INT32_MAX / sizeof_SubSample).

Definition Ptr : Type := nat.

Inductive IntArray : Type := ClearData | EncryptedData.

Inductive Status : Type :=
| StatusOK
| ERROR_CAS_UNKNOWN
| ERROR_CAS (code : Z).

Inductive status_t : Type :=
| OK
| INVALID_OPERATION
| NEG_ERANGE
| NO_MEMORY
| FAILED_TRANSACTION.

Inductive Exception : Type :=
| IllegalStateException
| IllegalArgumentException
| OutOfMemoryError
| RemoteException
| ServiceSpecificException (st : Status) (msg : string).

(** What the remote call hands back: either the transaction itself failed
    ([!err.isOk()]), or the callback ran with a status, a byte count and a
    diagnostic. *)
Inductive Return : Type :=
| TransportError
| Delivered (st : Status) (bytesWritten : Z) (detailedError : string).

(** Calls into JNI, the allocator and the remote service, in program order. *)
Inductive Event : Type :=
| GetIntArrayElements (a : IntArray)
| ReleaseIntArrayElements (a : IntArray)
| ResizeSubSamples (n : Z)
| ReadElement (a : IntArray) (i : Z)
| GetByteArrayElements (arr : Ptr)
| ReleaseByteArrayElements (arr : Ptr)
| NewMemoryDealer (size : Z)
| Allocate (size : Z)
| RemoteDescramble (reply : Return)
| Throw (e : Exception).

(** Behaviour the C++ standard leaves undefined: an indexed read past the
    end of a caller array, a [memcpy] that leaves its object, or a call
    through a null [sp]. *)
Inductive UB : Type := OutOfBoundsRead | OutOfBoundsMemcpy | NullDereference.

Inductive Outcome (A : Type) : Type :=
| Done (a : A)
| Undefined (u : UB).
Arguments Done {A} a.
Arguments Undefined {A} u.

Record IMemoryHeap : Type := mkHeap { heapID : Z; heapSize : Z }.

(** [hidl_memory(name, hidl_handle(nativeHandle), size)] *)
Record hidl_memory : Type := mkHidlMemory {
  hm_name : string;
  hm_handle : list Z;
  hm_size : Z
}.

Record SharedBuffer : Type := mkSharedBuffer {
  heapBase : option hidl_memory;
  sb_offset : Z;
  sb_size : Z
}.

Inductive BufferType : Type := SHARED_MEMORY | NATIVE_HANDLE.

Record DestinationBuffer : Type := mkDestinationBuffer {
  dst_type : BufferType;
  nonsecureMemory : SharedBuffer
}.

(** The arguments of [IDescrambler::descramble]. *)
Record Request : Type := mkRequest {
  scramblingControl : Z;
  req_subSamples : list SubSample;
  req_srcBuffer : SharedBuffer;
  req_srcOffset : Z;
  req_dstBuffer : DestinationBuffer;
  req_dstOffset : Z
}.

(** The session's region: [mMem->size()] and the bytes at
    [mMem->pointer()], indexed from 0. *)
Record IMemory : Type := mkIMemory {
  mem_size : Z;
  mem_bytes : Z -> byte
}.

(** The collaborators of this file: the allocator behind [MemoryDealer],
    [native_handle_create], the [hidl_vec] allocator and the remote
    descrambler.  [allocate size] is the content of the region
    [MemoryDealer::allocate] hands back, or [None] when it hands back NULL.
    The remote service sees the shared region and may rewrite it. *)
Record Environment : Type := mkEnvironment {
  getAllocationAlignment : Z;
  resize_ok : Z -> bool;
  allocate : Z -> option (Z -> byte);
  getMemory : Z -> option IMemoryHeap * Z * Z;
  native_handle_create : bool;
  remote_descramble : Request -> (Z -> byte) -> Return * (Z -> byte)
}.

(** The remote interface a binder gives, by identity. *)
Definition IDescrambler : Type := Z.

(** The members of [JDescrambler].  [mDescrambler] is NULL when the
    constructor got no interface; [mDealer] records the size its
    [MemoryDealer] was created with. *)
Record JDescrambler : Type := mkJDescrambler {
  mDescrambler : option IDescrambler;
  mDealer : option Z;
  mMem : option IMemory;
  mDescramblerSrcBuffer : SharedBuffer
}.

(** A [java.nio.ByteBuffer] as the glue sees it: one with a direct address,
    or one whose [array()] call yields a byte array (or nothing). *)
Inductive ByteBuffer : Type :=
| DirectBuffer (addr : Ptr)
| HeapBuffer (array : option Ptr).

(** Caller memory: the bytes of each object, by address. *)
Definition Memory : Type := Ptr -> option (list byte).

(** ** [getSubSampleInfo] *)

(** [(arr == NULL) ? 0 : arr[i]] *)
Definition element (arr : option (list Z)) (i : Z) : option Z :=
  match arr with
  | None => Some 0
  | Some l => nth_error l (Z.to_nat i)
  end.

Definition read_event (which : IntArray) (arr : option (list Z)) (i : Z)
  : list Event :=
  match arr with
  | None => []
  | Some _ => [ReadElement which i]
  end.

Record LoopState : Type := mkLoopState {
  subSamples : list SubSample;
  totalSize : Z;
  reads : list Event
}.

(** One iteration of the [for] loop at index [i]. *)
Definition loop_body (p : Platform) (clear enc : option (list Z)) (i : Z)
    (st : LoopState) : option LoopState :=
  match element clear i, element enc i with
  | Some c, Some e =>
      let s := mkSubSample (to_uint32 c) (to_uint32 e) in
      Some (mkLoopState
              (subSamples st ++ [s])
              (to_ssize_t p
                 (totalSize st +
                  to_uint32 (numBytesOfClearData s + numBytesOfEncryptedData s)))
              (reads st ++ read_event ClearData clear i
                        ++ read_event EncryptedData enc i))
  | _, _ => None
  end.

(** [for (jint i = 0; i < numSubSamples; ++i)], with [count] iterations
    left. *)
Fixpoint fill_loop (p : Platform) (clear enc : option (list Z))
    (count : nat) (i : Z) (st : LoopState) : option LoopState :=
  match count with
  | O => Some st
  | S count' =>
      match loop_body p clear enc i st with
      | Some st' => fill_loop p clear enc count' (i + 1) st'
      | None => None
      end
  end.

Definition get_event (which : IntArray) (arr : option (list Z)) : list Event :=
  match arr with
  | None => []
  | Some _ => [GetIntArrayElements which]
  end.

Definition release_event (which : IntArray) (arr : option (list Z))
  : list Event :=
  match arr with
  | None => []
  | Some _ => [ReleaseIntArrayElements which]
  end.

Record SubSampleInfo : Type := mkSubSampleInfo {
  ss_ret : Z;
  outSubSamples : list SubSample;
  ss_trace : list Event
}.

Definition getSubSampleInfo (p : Platform) (env : Environment)
    (numSubSamples : Z)
    (numBytesOfClearDataObj numBytesOfEncryptedDataObj : option (list Z))
  : Outcome SubSampleInfo :=
  if (numSubSamples <=? 0) || (numSubSamples >=? MAX_COUNT) then
    Done (mkSubSampleInfo (-1) [] [])
  else
    let tr0 := get_event ClearData numBytesOfClearDataObj
               ++ get_event EncryptedData numBytesOfEncryptedDataObj
               ++ [ResizeSubSamples numSubSamples] in
    if negb (resize_ok env numSubSamples) then
      Done (mkSubSampleInfo (-1) [] tr0)
    else
      match fill_loop p numBytesOfClearDataObj numBytesOfEncryptedDataObj
                      (Z.to_nat numSubSamples) 0 (mkLoopState [] 0 []) with
      | None => Undefined OutOfBoundsRead
      | Some st =>
          let tr := tr0 ++ reads st
                    ++ release_event EncryptedData numBytesOfEncryptedDataObj
                    ++ release_event ClearData numBytesOfClearDataObj in
          if totalSize st <? 0 then
            Done (mkSubSampleInfo (-1) (subSamples st) tr)
          else
            Done (mkSubSampleInfo (totalSize st) (subSamples st) tr)
      end.

(** The value [getSubSampleInfo] returns, when it returns. *)
Definition returned (o : Outcome SubSampleInfo) : option Z :=
  match o with
  | Done info => Some (ss_ret info)
  | Undefined _ => None
  end.

(** The accumulator [totalSize] after the first [k] iterations of the
    loop. *)
Definition running_total (p : Platform) (clear enc : option (list Z))
    (k : nat) : option Z :=
  match fill_loop p clear enc k 0 (mkLoopState [] 0 []) with
  | Some st => Some (totalSize st)
  | None => None
  end.

(** ** [getBufferAndSize] *)

Record BufferAndSize : Type := mkBufferAndSize {
  bs_err : status_t;
  outPtr : option Ptr;
  outByteArray : option Ptr;
  bs_trace : list Event
}.

(** The test of line 85, [(jint)length + offset > limit]: the length is
    narrowed to [jint] and the sum is a 32-bit signed addition, which wraps
    on the ABIs this file is built for. *)
Definition window_rejected (offset limit length : Z) : bool :=
  to_jint (to_jint length + offset) >? limit.

Definition getBufferAndSize (byteBuf : ByteBuffer) (offset limit length : Z)
  : BufferAndSize :=
  match byteBuf with
  | HeapBuffer None => mkBufferAndSize INVALID_OPERATION None None []
  | HeapBuffer (Some byteArray) =>
      if window_rejected offset limit length then
        mkBufferAndSize NEG_ERANGE None None
          [GetByteArrayElements byteArray; ReleaseByteArrayElements byteArray]
      else
        mkBufferAndSize OK (Some byteArray) (Some byteArray)
          [GetByteArrayElements byteArray]
  | DirectBuffer ptr =>
      if window_rejected offset limit length then
        mkBufferAndSize NEG_ERANGE None None []
      else
        mkBufferAndSize OK (Some ptr) None []
  end.

(** ** [JDescrambler::ensureBufferCapacity] *)

(** [mMem == NULL ? 0 : mMem->size()], the "current size" of the log line. *)
Definition capacity (self : JDescrambler) : Z :=
  match mMem self with
  | None => 0
  | Some m => mem_size m
  end.

(** [mMem != NULL && mMem->size() >= neededSize] *)
Definition has_capacity (self : JDescrambler) (neededSize : Z) : bool :=
  match mMem self with
  | None => false
  | Some m => mem_size m >=? neededSize
  end.

(** [(neededSize + (alignment - 1)) & ~(alignment - 1)] in [size_t]. *)
Definition align_to (p : Platform) (neededSize alignment : Z) : Z :=
  Z.land (to_size_t p (neededSize + to_size_t p (alignment - 1)))
         (to_size_t p (Z.lnot (to_size_t p (alignment - 1)))).

(** [(neededSize + 65535) & ~65535]; [~65535] is an [int] widened to
    [size_t]. *)
Definition align_64K (p : Platform) (neededSize : Z) : Z :=
  Z.land (to_size_t p (neededSize + 65535)) (to_size_t p (Z.lnot 65535)).

Definition grown_size (p : Platform) (env : Environment) (neededSize : Z) : Z :=
  align_64K p (align_to p neededSize (getAllocationAlignment env)).

Record Ensured : Type := mkEnsured {
  en_ok : bool;
  en_self : JDescrambler;
  en_trace : list Event
}.

(** [mMem->getMemory] of line 144 is a call through the [sp] that
    [allocate] handed back, whatever it is. *)
Definition ensureBufferCapacity (p : Platform) (env : Environment)
    (self : JDescrambler) (neededSize : Z) : Outcome Ensured :=
  if has_capacity self neededSize then Done (mkEnsured true self [])
  else
    let neededSize := grown_size p env neededSize in
    match allocate env neededSize with
    | None => Undefined NullDereference
    | Some bytes =>
        let mem := mkIMemory neededSize bytes in
        let self1 :=
          mkJDescrambler (mDescrambler self) (Some neededSize) (Some mem)
            (mDescramblerSrcBuffer self) in
        let tr := [NewMemoryDealer neededSize; Allocate neededSize] in
        match getMemory env neededSize with
        | (None, _, _) => Done (mkEnsured false self1 tr)
        | (Some heap, offset, size) =>
            if negb (native_handle_create env) then
              Done (mkEnsured false self1 tr)
            else
              Done (mkEnsured true
                      (mkJDescrambler (mDescrambler self) (Some neededSize)
                         (Some mem)
                         (mkSharedBuffer
                            (Some (mkHidlMemory "ashmem" [heapID heap]
                                     (heapSize heap)))
                            (to_uint64 offset) (to_uint64 size)))
                      tr)
        end
    end.

(** ** [memcpy] between caller memory and the shared region *)

(** The [len] bytes at [ptr + off], when that range lies inside the object
    at [ptr]. *)
Definition load (m : Memory) (ptr : Ptr) (off len : Z) : option (list byte) :=
  match m ptr with
  | None => None
  | Some b =>
      if (0 <=? off) && (0 <=? len) && (off + len <=? Z.of_nat (List.length b))
      then Some (firstn (Z.to_nat len) (skipn (Z.to_nat off) b))
      else None
  end.

(** Overwrite the bytes at [ptr + off] with [data], when that range lies
    inside the object at [ptr]. *)
Definition store (m : Memory) (ptr : Ptr) (off : Z) (data : list byte)
  : option Memory :=
  match m ptr with
  | None => None
  | Some b =>
      let len := Z.of_nat (List.length data) in
      if (0 <=? off) && (off + len <=? Z.of_nat (List.length b))
      then Some (fun q =>
                   if Nat.eqb q ptr
                   then Some (firstn (Z.to_nat off) b ++ data
                              ++ skipn (Z.to_nat (off + len)) b)
                   else m q)
      else None
  end.

(** The region after copying [data] to its start. *)
Definition region_write (bytes : Z -> byte) (data : list byte) : Z -> byte :=
  fun i =>
    if (0 <=? i) && (i <? Z.of_nat (List.length data))
    then nth (Z.to_nat i) data x00
    else bytes i.

(** The first [n] bytes of the region. *)
Definition region_read (bytes : Z -> byte) (n : Z) : list byte :=
  map (fun k => bytes (Z.of_nat k)) (seq 0 (Z.to_nat n)).

(** ** [JDescrambler::descramble] *)

(** The returned [status_t] with the out-parameters the callback filled. *)
Inductive DescrambleResult : Type :=
| NoMemory
| FailedTransaction
| Completed (status : Status) (bytesWritten : Z) (detailedError : string).

Record Descrambled : Type := mkDescrambled {
  d_result : DescrambleResult;
  d_self : JDescrambler;
  d_memory : Memory;
  d_trace : list Event
}.

(** The test of line 210,
    [*bytesWritten > 0 && (ssize_t) *bytesWritten <= totalLength]. *)
Definition bytesWritten_valid (p : Platform) (bytesWritten totalLength : Z)
  : bool :=
  (bytesWritten >? 0) && (to_ssize_t p bytesWritten <=? totalLength).

(** Modelled from the spec: the scrambling control value is declared by
    the CAS HAL, not in this file, as an enumeration over [uint32_t]; the
    cast [(ScramblingControl) key] of line 191 converts the [jbyte] [key]
    to it. *)
Definition to_ScramblingControl (key : Z) : Z := to_uint32 key.

(** [mMem->pointer()] of line 183 and [mDescrambler->descramble] of line
    190 are calls through an [sp]; the source tests neither. *)
Definition descramble (p : Platform) (env : Environment)
    (self : JDescrambler) (mem : Memory)
    (key : Z) (totalLength : Z) (subSamples : list SubSample)
    (srcPtr : Ptr) (srcOffset : Z) (dstPtr : Ptr) (dstOffset : Z)
  : Outcome Descrambled :=
  match ensureBufferCapacity p env self (to_size_t p totalLength) with
  | Undefined u => Undefined u
  | Done en =>
      if negb (en_ok en) then
        Done (mkDescrambled NoMemory (en_self en) mem (en_trace en))
      else
        match mMem (en_self en) with
        | None => Undefined NullDereference
        | Some m =>
            match load mem srcPtr srcOffset (to_size_t p totalLength) with
            | None => Undefined OutOfBoundsMemcpy
            | Some data =>
                if to_size_t p totalLength >? mem_size m then
                  Undefined OutOfBoundsMemcpy
                else
                  match mDescrambler (en_self en) with
                  | None => Undefined NullDereference
                  | Some _ =>
                      let srcBuffer := mDescramblerSrcBuffer (en_self en) in
                      let dstBuffer :=
                        mkDestinationBuffer SHARED_MEMORY srcBuffer in
                      let req :=
                        mkRequest (to_ScramblingControl key) subSamples
                          srcBuffer 0 dstBuffer 0 in
                      let (reply, bytes) :=
                        remote_descramble env req
                          (region_write (mem_bytes m) data) in
                      let self2 :=
                        mkJDescrambler (mDescrambler (en_self en))
                          (mDealer (en_self en))
                          (Some (mkIMemory (mem_size m) bytes)) srcBuffer in
                      let tr := en_trace en ++ [RemoteDescramble reply] in
                      match reply with
                      | TransportError =>
                          Done (mkDescrambled FailedTransaction self2 mem tr)
                      | Delivered StatusOK bytesWritten detailedError =>
                          if bytesWritten_valid p bytesWritten totalLength
                          then
                            if bytesWritten >? mem_size m then
                              Undefined OutOfBoundsMemcpy
                            else
                              match store mem dstPtr dstOffset
                                      (region_read bytes bytesWritten) with
                              | None => Undefined OutOfBoundsMemcpy
                              | Some mem' =>
                                  Done (mkDescrambled
                                          (Completed StatusOK bytesWritten
                                             detailedError)
                                          self2 mem' tr)
                              end
                          else
                            Done (mkDescrambled
                                    (Completed ERROR_CAS_UNKNOWN bytesWritten
                                       detailedError)
                                    self2 mem tr)
                      | Delivered status bytesWritten detailedError =>
                          Done (mkDescrambled
                                  (Completed status bytesWritten
                                     detailedError)
                                  self2 mem tr)
                      end
                  end
            end
        end
  end.

(** ** [android_media_MediaDescrambler_native_descramble] *)

(** [retval] is [None] where the function returns [bytesWritten] without
    the callback having set it. *)
Record NativeReturn : Type := mkNativeReturn {
  retval : option Z;
  n_self : option JDescrambler;
  n_memory : Memory;
  n_trace : list Event
}.

Definition release_byte_array (arr : option Ptr) : list Event :=
  match arr with
  | None => []
  | Some a => [ReleaseByteArrayElements a]
  end.

(** Lines 381-399: release the byte arrays, throw, return [bytesWritten]. *)
Definition finish (d : Descrambled) (srcArray dstArray : option Ptr)
    (pre : list Event) : NativeReturn :=
  let tr := pre ++ d_trace d
            ++ release_byte_array srcArray ++ release_byte_array dstArray in
  match d_result d with
  | NoMemory =>
      mkNativeReturn None (Some (d_self d)) (d_memory d)
        (tr ++ [Throw OutOfMemoryError])
  | FailedTransaction =>
      mkNativeReturn None (Some (d_self d)) (d_memory d)
        (tr ++ [Throw RemoteException])
  | Completed StatusOK bytesWritten _ =>
      mkNativeReturn (Some (to_jint bytesWritten)) (Some (d_self d))
        (d_memory d) tr
  | Completed status bytesWritten detailedError =>
      mkNativeReturn (Some (to_jint bytesWritten)) (Some (d_self d))
        (d_memory d)
        (tr ++ [Throw (ServiceSpecificException status detailedError)])
  end.

(** Lines 357-364: with the source accepted, the destination is the
    source itself when [dstBuf] is NULL and is validated like the source
    otherwise; a rejected source leaves [err] as it is. *)
Definition destination (src : BufferAndSize) (dstBuf : option ByteBuffer)
    (dstOffset dstLimit length : Z) : BufferAndSize :=
  match bs_err src, dstBuf with
  | OK, None => mkBufferAndSize OK (outPtr src) None []
  | OK, Some buf => getBufferAndSize buf dstOffset dstLimit length
  | err, _ => mkBufferAndSize err None None []
  end.

Definition android_media_MediaDescrambler_native_descramble
    (p : Platform) (env : Environment)
    (thiz : option JDescrambler) (mem : Memory)
    (key : Z) (numSubSamples : Z)
    (numBytesOfClearDataObj numBytesOfEncryptedDataObj : option (list Z))
    (srcBuf : ByteBuffer) (srcOffset srcLimit : Z)
    (dstBuf : option ByteBuffer) (dstOffset dstLimit : Z)
  : Outcome NativeReturn :=
  match thiz with
  | None =>
      Done (mkNativeReturn (Some (-1)) None mem [Throw IllegalStateException])
  | Some descrambler =>
      match getSubSampleInfo p env numSubSamples
              numBytesOfClearDataObj numBytesOfEncryptedDataObj with
      | Undefined u => Undefined u
      | Done info =>
          let totalLength := ss_ret info in
          if totalLength <? 0 then
            Done (mkNativeReturn (Some (-1)) thiz mem
                    (ss_trace info ++ [Throw IllegalArgumentException]))
          else
            let src := getBufferAndSize srcBuf srcOffset srcLimit
                         (to_size_t p totalLength) in
            let dst := destination src dstBuf dstOffset dstLimit
                         (to_size_t p totalLength) in
            let pre := ss_trace info ++ bs_trace src ++ bs_trace dst in
            match bs_err dst, outPtr src, outPtr dst with
            | OK, Some srcPtr, Some dstPtr =>
                match descramble p env descrambler mem key totalLength
                        (outSubSamples info) srcPtr srcOffset dstPtr dstOffset
                with
                | Undefined u => Undefined u
                | Done d =>
                    Done (finish d (outByteArray src) (outByteArray dst) pre)
                end
            | _, _, _ =>
                Done (mkNativeReturn (Some (-1)) thiz mem
                        (pre ++ [Throw IllegalArgumentException]))
            end
      end
  end.

(** ** Byte-array borrows along a trace *)

Fixpoint remove_first (a : Ptr) (held : list Ptr) : list Ptr :=
  match held with
  | [] => []
  | b :: held' => if Nat.eqb a b then held' else b :: remove_first a held'
  end.

(** The byte arrays obtained with [GetByteArrayElements] and not yet given
    back with [ReleaseByteArrayElements]. *)
Fixpoint outstanding (tr : list Event) (held : list Ptr) : list Ptr :=
  match tr with
  | [] => held
  | GetByteArrayElements a :: tr' => outstanding tr' (a :: held)
  | ReleaseByteArrayElements a :: tr' => outstanding tr' (remove_first a held)
  | _ :: tr' => outstanding tr' held
  end.

Definition is_remote_call (e : Event) : bool :=
  match e with RemoteDescramble _ => true | _ => false end.

Definition remote_invoked (tr : list Event) : bool := existsb is_remote_call tr.

(** The events [getSubSampleInfo] can log. *)
Definition layout_event (e : Event) : bool :=
  match e with
  | GetIntArrayElements _ | ReleaseIntArrayElements _
  | ResizeSubSamples _ | ReadElement _ _ => true
  | _ => false
  end.

(** The events that neither take nor give back a byte array. *)
Definition borrow_neutral (e : Event) : bool :=
  match e with
  | GetByteArrayElements _ | ReleaseByteArrayElements _ => false
  | _ => true
  end.

(** ** The native context of the Java object

    Lines 43-57 ([getDescrambler], [setDescrambler]), 99-125 (constructor,
    destructor, [GetDescrambler]) and 225-241 ([native_release],
    [native_setup]).  An [sp<JDescrambler>] made from a raw pointer takes a
    strong reference and drops it when it goes out of scope; the instance
    is destroyed when its last strong reference is dropped. *)

(** A [hardware::IBinder] with what [fromBinder] makes of it. *)
Record IBinder : Type := mkIBinder { fromBinder : option IDescrambler }.

(** The [IHwBinder] object passed from Java: NULL, or a [JHwRemoteBinder]
    whose [getBinder] is NULL or a binder. *)
Definition BinderObj : Type := option (option IBinder).

(** A [JDescrambler] on the native heap: its strong count and its
    members. *)
Record Instance : Type := mkInstance {
  strong : nat;
  fields : JDescrambler
}.

(** The Java object's [mNativeContext] field (0 is [None]), the live
    instances, and where [new] puts the next one. *)
Record Runtime : Type := mkRuntime {
  mNativeContext : option Ptr;
  instances : Ptr -> option Instance;
  next : Ptr
}.

(** The one exception of this part, thrown by the constructor. *)
Inductive SetupException : Type := NullPointerException.

Definition put (a : Ptr) (i : option Instance)
    (h : Ptr -> option Instance) : Ptr -> option Instance :=
  fun q => if Nat.eqb q a then i else h q.

(** [GetDescrambler], lines 114-125. *)
Definition GetDescrambler (obj : BinderObj) : option IDescrambler :=
  match obj with
  | Some (Some hwBinder) => fromBinder hwBinder
  | _ => None
  end.

(** [incStrong] on the instance at [a]; [None] is a call through a pointer
    to a destroyed instance. *)
Definition incStrong (a : Ptr) (rt : Runtime) : option Runtime :=
  match instances rt a with
  | None => None
  | Some i =>
      Some (mkRuntime (mNativeContext rt)
              (put a (Some (mkInstance (S (strong i)) (fields i)))
                 (instances rt))
              (next rt))
  end.

(** [decStrong]: dropping the last strong reference runs the destructor
    (lines 106-111), after which the instance is gone. *)
Definition decStrong (a : Ptr) (rt : Runtime) : option Runtime :=
  match instances rt a with
  | None => None
  | Some i =>
      match strong i with
      | O => None
      | S O =>
          Some (mkRuntime (mNativeContext rt) (put a None (instances rt))
                  (next rt))
      | S (S c) =>
          Some (mkRuntime (mNativeContext rt)
                  (put a (Some (mkInstance (S c) (fields i)))
                     (instances rt))
                  (next rt))
      end
  end.

Definition on_pointer (f : Ptr -> Runtime -> option Runtime)
    (ptr : option Ptr) (rt : Runtime) : option Runtime :=
  match ptr with
  | None => Some rt
  | Some a => f a rt
  end.

Definition and_then (rt : option Runtime) (f : Runtime -> option Runtime)
  : option Runtime :=
  match rt with
  | None => None
  | Some rt' => f rt'
  end.

(** [getDescrambler], lines 43-45: the [sp] it returns holds a strong
    reference until the caller lets go of it. *)
Definition getDescrambler (rt : Runtime) : option (option Ptr * Runtime) :=
  match on_pointer incStrong (mNativeContext rt) rt with
  | None => None
  | Some rt' => Some (mNativeContext rt, rt')
  end.

(** The instance a call works on, from what [getDescrambler] returned:
    the [thiz] of [android_media_MediaDescrambler_native_descramble]. *)
Definition descrambler_of (held : option Ptr * Runtime)
  : option JDescrambler :=
  match fst held with
  | None => None
  | Some a =>
      match instances (snd held) a with
      | None => None
      | Some i => Some (fields i)
      end
  end.

(** [setDescrambler], lines 47-57.  The local [sp old] takes a reference
    to the old instance on entry and drops it on return. *)
Definition setDescrambler (descrambler : option Ptr) (rt : Runtime)
  : option Runtime :=
  let old := mNativeContext rt in
  and_then (on_pointer incStrong old rt) (fun rt1 =>
  and_then (on_pointer incStrong descrambler rt1) (fun rt2 =>
  and_then (on_pointer decStrong old rt2) (fun rt3 =>
  on_pointer decStrong old
    (mkRuntime descrambler (instances rt3) (next rt3))))).

(** The state the constructor of lines 99-104 leaves a [JDescrambler]
    in: the interface it was given, no dealer, no region, a descriptor
    without a heap.  The constructor does not initialise the descriptor's
    offset and size; they are 0 here. *)
Definition new_fields (iface : option IDescrambler) : JDescrambler :=
  mkJDescrambler iface None None (mkSharedBuffer None 0 0).

(** [native_setup], lines 238-241, with the constructor of lines 99-104:
    [new JDescrambler] is bound to a temporary [sp] for the call.  The
    constructor throws NullPointerException when it gets no interface, and
    the instance is installed all the same. *)
Definition native_setup (descramblerBinderObj : BinderObj) (rt : Runtime)
  : option (Runtime * option SetupException) :=
  let a := next rt in
  let iface := GetDescrambler descramblerBinderObj in
  let exn := match iface with
             | None => Some NullPointerException
             | Some _ => None
             end in
  let rt0 := mkRuntime (mNativeContext rt)
               (put a (Some (mkInstance 0 (new_fields iface))) (instances rt))
               (S a) in
  match and_then (incStrong a rt0) (fun rt1 =>
        and_then (setDescrambler (Some a) rt1) (decStrong a)) with
  | None => None
  | Some rt' => Some (rt', exn)
  end.

(** [native_release], lines 225-227. *)
Definition native_release (rt : Runtime) : option Runtime :=
  setDescrambler None rt.

(** The calls Java makes on one object. *)
Inductive Call : Type :=
| Setup (descramblerBinderObj : BinderObj)
| Release.

Definition call (c : Call) (rt : Runtime) : option Runtime :=
  match c with
  | Setup obj =>
      match native_setup obj rt with
      | None => None
      | Some (rt', _) => Some rt'
      end
  | Release => native_release rt
  end.

Fixpoint calls (cs : list Call) (rt : Runtime) : option Runtime :=
  match cs with
  | [] => Some rt
  | c :: cs' => and_then (call c rt) (calls cs')
  end.

(** The runtime before any call: no context, no instance. *)
Definition boot : Runtime := mkRuntime None (fun _ => None) 0%nat.

(** At most one instance is alive: the one [mNativeContext] points to,
    held by exactly that one strong reference; nothing lives at or beyond
    [next]. *)
Definition well_formed (rt : Runtime) : Prop :=
  (forall a, instances rt a <> None -> mNativeContext rt = Some a)
  /\ (forall a, mNativeContext rt = Some a ->
               exists i, instances rt a = Some i /\ strong i = 1%nat)
  /\ (forall a, (next rt <= a)%nat -> instances rt a = None).

(** ** Further observations on a trace *)

(** The exceptions thrown along a trace, in order. *)
Fixpoint thrown (tr : list Event) : list Exception :=
  match tr with
  | [] => []
  | Throw e :: tr' => e :: thrown tr'
  | _ :: tr' => thrown tr'
  end.

Definition is_region_allocation (e : Event) : bool :=
  match e with
  | NewMemoryDealer _ | Allocate _ => true
  | _ => false
  end.

(** Whether a new shared-memory region was created. *)
Definition region_allocated (tr : list Event) : bool :=
  existsb is_region_allocation tr.

(** How many times the remote service was called. *)
Definition remote_calls (tr : list Event) : nat :=
  List.length (filter is_remote_call tr).

Definition IntArray_eqb (a b : IntArray) : bool :=
  match a, b with
  | ClearData, ClearData | EncryptedData, EncryptedData => true
  | _, _ => false
  end.

Fixpoint remove_first_array (a : IntArray) (held : list IntArray)
  : list IntArray :=
  match held with
  | [] => []
  | b :: held' =>
      if IntArray_eqb a b then held' else b :: remove_first_array a held'
  end.

(** The int arrays obtained with [GetIntArrayElements] and not yet given
    back with [ReleaseIntArrayElements]. *)
Fixpoint int_arrays_held (tr : list Event) (held : list IntArray)
  : list IntArray :=
  match tr with
  | [] => held
  | GetIntArrayElements a :: tr' => int_arrays_held tr' (a :: held)
  | ReleaseIntArrayElements a :: tr' =>
      int_arrays_held tr' (remove_first_array a held)
  | _ :: tr' => int_arrays_held tr' held
  end.

Definition is_element_read (e : Event) : bool :=
  match e with ReadElement _ _ => true | _ => false end.

(** The storage a buffer resolves to: its direct address, or its array. *)
Definition address (byteBuf : ByteBuffer) : option Ptr :=
  match byteBuf with
  | DirectBuffer ptr => Some ptr
  | HeapBuffer array => array
  end.

(** What the remote service answered along a trace, in order. *)
Fixpoint replies (tr : list Event) : list Return :=
  match tr with
  | [] => []
  | RemoteDescramble reply :: tr' => reply :: replies tr'
  | _ :: tr' => replies tr'
  end.

(** What lines 389-398 throw for each way [descramble] returns. *)
Definition exception_of (res : DescrambleResult) : list Exception :=
  match res with
  | NoMemory => [OutOfMemoryError]
  | FailedTransaction => [RemoteException]
  | Completed StatusOK _ _ => []
  | Completed status _ detailedError =>
      [ServiceSpecificException status detailedError]
  end.

(** What line 399 returns for each way [descramble] returns. *)
Definition retval_of (res : DescrambleResult) : option Z :=
  match res with
  | NoMemory | FailedTransaction => None
  | Completed _ bytesWritten _ => Some (to_jint bytesWritten)
  end.

(** ** Reference definitions, in the words of the specification *)

(** The lengths an array contributes to [n] subsamples: its own entries,
    or [n] zeroes when it is absent. *)
Definition lengths (arr : option (list Z)) (n : nat) : list Z :=
  match arr with
  | None => repeat 0 n
  | Some l => l
  end.

Definition sum (l : list Z) : Z := fold_right Z.add 0 l.

(** The exact sum of all clear and encrypted lengths. *)
Definition exact_total (clear enc : option (list Z)) (n : nat) : Z :=
  sum (lengths clear n) + sum (lengths enc n).

(** The batch that pairs the i-th clear with the i-th encrypted length. *)
Fixpoint layout (cs es : list Z) : list SubSample :=
  match cs, es with
  | c :: cs', e :: es' => mkSubSample c e :: layout cs' es'
  | _, _ => []
  end.

(** The sum of the per-subsample terms as 32-bit unsigned arithmetic
    computes them. *)
Fixpoint wrapped_terms (cs es : list Z) : Z :=
  match cs, es with
  | c :: cs', e :: es' =>
      to_uint32 (to_uint32 c + to_uint32 e) + wrapped_terms cs' es'
  | _, _ => 0
  end.

(** The total the accumulator holds after the last subsample. *)
Definition final_total (p : Platform) (clear enc : option (list Z)) (n : nat)
  : Z :=
  to_ssize_t p (wrapped_terms (lengths clear n) (lengths enc n)).

(** An array, when present, has exactly [n] entries. *)
Definition has_length (arr : option (list Z)) (n : nat) : Prop :=
  match arr with
  | None => True
  | Some l => List.length l = n
  end.

(** Every entry is a length: a non-negative [jint]. *)
Definition all_lengths (arr : option (list Z)) : Prop :=
  match arr with
  | None => True
  | Some l => Forall (fun x => 0 <= x <= INT32_MAX) l
  end.

(** [x] rounded up to a multiple of [m]. *)
Definition round_up (x m : Z) : Z := (x + m - 1) / m * m.

(** A service that leaves the first [totalLength] bytes of the region as it
    found them and reports [OK] with [bytesWritten = totalLength]. *)
Definition echoes (env : Environment) (totalLength : Z) : Prop :=
  forall req bytes, exists msg bytes',
    remote_descramble env req bytes
      = (Delivered StatusOK totalLength msg, bytes') /\
    forall i, 0 <= i < totalLength -> bytes' i = bytes i.

(** The allocator hands back a region for a grow to [neededSize]. *)
Definition allocates (p : Platform) (env : Environment) (neededSize : Z)
  : Prop :=
  allocate env (grown_size p env neededSize) <> None.

(** The steps of a grow whose failure the source tests: the heap reference
    of the new region and the native handle. *)
Definition grow_fails (p : Platform) (env : Environment) (neededSize : Z)
  : Prop :=
  fst (fst (getMemory env (grown_size p env neededSize))) = None \/
  native_handle_create env = false.

(** ** Scenarios used to exercise the statements *)

Module Scenario.

Definition echo (n : Z) : Request -> (Z -> byte) -> Return * (Z -> byte) :=
  fun _ bytes => (Delivered StatusOK n EmptyString, bytes).

(** An allocator with the 32-byte alignment of [MemoryDealer] whose steps
    all succeed, and a service that reports [OK] with [n] bytes. *)
Definition env (n : Z) : Environment :=
  mkEnvironment 32 (fun _ => true) (fun _ => Some (fun _ => x00))
    (fun size => (Some (mkHeap 7 size), 0, size)) true (echo n).

(** The same, but no heap reference can be obtained for a new region. *)
Definition env_no_heap (n : Z) : Environment :=
  mkEnvironment 32 (fun _ => true) (fun _ => Some (fun _ => x00))
    (fun size => (None, 0, 0)) true (echo n).

(** The same, but the allocator hands back no region. *)
Definition env_no_region (n : Z) : Environment :=
  mkEnvironment 32 (fun _ => true) (fun _ => None)
    (fun size => (Some (mkHeap 7 size), 0, size)) true (echo n).

(** A session that has not descrambled yet. *)
Definition fresh : JDescrambler :=
  mkJDescrambler (Some 7) None None (mkSharedBuffer None 0 0).

(** A session holding a 64 KiB region. *)
Definition warm : JDescrambler :=
  mkJDescrambler (Some 7) (Some 65536)
    (Some (mkIMemory 65536 (fun _ => x00)))
    (mkSharedBuffer (Some (mkHidlMemory "ashmem" [7] 65536)) 0 65536).

(** Three caller objects: five bytes at address 1, six at address 2, ten
    at address 3. *)
Definition memory : Memory :=
  fun q =>
    match q with
    | 1%nat => Some [x01; x02; x03; x04; x05]
    | 2%nat => Some [x0a; x0b; x0c; x0d; x0e; x0f]
    | 3%nat => Some [x10; x11; x12; x13; x14; x15; x16; x17; x18; x19]
    | _ => None
    end.

(** The allocator of [env], with a service that answers [reply] and leaves
    the region as it is. *)
Definition env_replying (reply : Return) : Environment :=
  mkEnvironment 32 (fun _ => true) (fun _ => Some (fun _ => x00))
    (fun size => (Some (mkHeap 7 size), 0, size)) true
    (fun _ bytes => (reply, bytes)).

End Scenario.

(** * Properties *)

(** Closes a goal about concrete values by evaluation. *)
Ltac evaluate :=
  vm_compute; repeat split;
  solve [reflexivity | discriminate | exact I | intro; discriminate].

(** ** Machine integers *)

Section MachineIntFacts.

Variable w : Z.
Hypothesis w_pos : 0 < w.

Lemma pow2_half : 2 ^ w = 2 * 2 ^ (w - 1).
Proof.
  replace w with (Z.succ (w - 1)) at 1 by lia.
  rewrite Z.pow_succ_r; lia.
Qed.

Lemma to_unsigned_small (x : Z) : 0 <= x < 2 ^ w -> to_unsigned w x = x.
Proof. intros Hx. unfold to_unsigned. apply Z.mod_small. exact Hx. Qed.

Lemma to_unsigned_range (x : Z) : 0 <= to_unsigned w x < 2 ^ w.
Proof. unfold to_unsigned. apply Z.mod_pos_bound. apply Z.pow_pos_nonneg; lia. Qed.

Lemma to_signed_small (x : Z) :
  - 2 ^ (w - 1) <= x < 2 ^ (w - 1) -> to_signed w x = x.
Proof.
  intros Hx. unfold to_signed.
  rewrite Z.mod_small; [lia | rewrite pow2_half; lia].
Qed.

Lemma to_signed_range (x : Z) :
  - 2 ^ (w - 1) <= to_signed w x < 2 ^ (w - 1).
Proof.
  unfold to_signed.
  assert (H : 0 <= (x + 2 ^ (w - 1)) mod 2 ^ w < 2 ^ w)
    by (apply Z.mod_pos_bound; apply Z.pow_pos_nonneg; lia).
  pose proof pow2_half as Hh. lia.
Qed.

(** Wrapping after every addition is wrapping once at the end. *)
Lemma to_signed_add_l (a b : Z) :
  to_signed w (to_signed w a + b) = to_signed w (a + b).
Proof.
  unfold to_signed. f_equal.
  replace ((a + 2 ^ (w - 1)) mod 2 ^ w - 2 ^ (w - 1) + b + 2 ^ (w - 1))
    with ((a + 2 ^ (w - 1)) mod 2 ^ w + b) by lia.
  rewrite Zplus_mod_idemp_l. f_equal. lia.
Qed.

(** A mask narrowed to [w] bits selects the same bits of a [w]-bit
    value. *)
Lemma land_to_unsigned (x y : Z) :
  0 <= x < 2 ^ w -> Z.land x (to_unsigned w y) = Z.land x y.
Proof.
  intros Hx. unfold to_unsigned.
  rewrite <- (Z.land_ones y w) by lia.
  rewrite (Z.land_comm y), Z.land_assoc.
  rewrite (Z.land_ones x w) by lia.
  rewrite Z.mod_small by exact Hx. reflexivity.
Qed.

End MachineIntFacts.

(** Masking off the low [k] bits rounds down to a multiple of [2 ^ k]. *)
Lemma land_lnot_low_bits (x k : Z) :
  0 <= k -> Z.land x (Z.lnot (2 ^ k - 1)) = x / 2 ^ k * 2 ^ k.
Proof.
  intros Hk.
  replace (2 ^ k - 1) with (Z.ones k) by (rewrite Z.ones_equiv; lia).
  rewrite <- Z.ldiff_land, Z.ldiff_ones_r by exact Hk.
  rewrite Z.shiftl_mul_pow2, Z.shiftr_div_pow2 by exact Hk.
  reflexivity.
Qed.

Lemma round_up_ge (x m : Z) : 0 < m -> x <= round_up x m.
Proof.
  intros Hm. unfold round_up.
  pose proof (Z.div_mod (x + m - 1) m ltac:(lia)) as Hdm.
  pose proof (Z.mod_pos_bound (x + m - 1) m Hm) as Hr.
  lia.
Qed.

Lemma round_up_le (x m : Z) : 0 < m -> round_up x m <= x + m - 1.
Proof.
  intros Hm. unfold round_up.
  pose proof (Z.div_mod (x + m - 1) m ltac:(lia)) as Hdm.
  pose proof (Z.mod_pos_bound (x + m - 1) m Hm) as Hr.
  lia.
Qed.

Lemma round_up_multiple (x m : Z) : 0 < m -> round_up x m mod m = 0.
Proof. intros Hm. unfold round_up. apply Z.mod_mul. lia. Qed.

Lemma size_bits_pos (p : Platform) : 0 < size_bits p.
Proof. destruct p; simpl; lia. Qed.

Lemma to_ssize_t_small (p : Platform) (x : Z) :
  0 <= x <= SSIZE_MAX p -> to_ssize_t p x = x.
Proof.
  intros Hx. unfold to_ssize_t. apply to_signed_small.
  - apply size_bits_pos.
  - unfold SSIZE_MAX in Hx.
    assert (0 < 2 ^ (size_bits p - 1)) by (destruct p; simpl; lia).
    lia.
Qed.

Lemma to_size_t_small (p : Platform) (x : Z) :
  0 <= x <= SSIZE_MAX p -> to_size_t p x = x.
Proof.
  intros Hx. unfold to_size_t. apply to_unsigned_small.
  unfold SSIZE_MAX in Hx. destruct p; simpl in *; lia.
Qed.

(** ** The subsample layout *)

Lemma skipn_cons_nth_error {A : Type} (l : list A) (k : nat) (x : A) :
  nth_error l k = Some x -> skipn k l = x :: skipn (S k) l.
Proof.
  revert l. induction k as [|k IH]; intros [|y l] H; try discriminate H.
  - injection H as ->. reflexivity.
  - exact (IH l H).
Qed.

Lemma length_lengths (arr : option (list Z)) (n : nat) :
  has_length arr n -> List.length (lengths arr n) = n.
Proof.
  destruct arr as [l|]; simpl; intros H.
  - exact H.
  - apply repeat_length.
Qed.

Lemma element_lengths (arr : option (list Z)) (n k : nat) :
  has_length arr n -> (k < n)%nat ->
  element arr (Z.of_nat k) = nth_error (lengths arr n) k.
Proof.
  destruct arr as [l|]; simpl; intros H Hk.
  - rewrite Nat2Z.id. reflexivity.
  - symmetry. apply nth_error_repeat. exact Hk.
Qed.

Lemma nth_error_in_range {A : Type} (l : list A) (k : nat) :
  (k < List.length l)%nat -> exists x, nth_error l k = Some x.
Proof.
  intros Hk. destruct (nth_error l k) as [x|] eqn:E.
  - exists x. reflexivity.
  - apply nth_error_None in E. lia.
Qed.

Lemma to_ssize_t_idem (p : Platform) (x : Z) :
  to_ssize_t p (to_ssize_t p x) = to_ssize_t p x.
Proof.
  unfold to_ssize_t. apply to_signed_small.
  - apply size_bits_pos.
  - apply to_signed_range. apply size_bits_pos.
Qed.

(** The loop from index [k] on: it appends the remaining pairs, narrowed to
    [uint32_t], and its accumulator ends at the wrapped sum of their
    terms. *)
Lemma fill_loop_closed_form (p : Platform) (clear enc : option (list Z))
    (n : nat) :
  has_length clear n -> has_length enc n ->
  forall (count k : nat) (st : LoopState),
    (k + count = n)%nat ->
    to_ssize_t p (totalSize st) = totalSize st ->
    exists rd,
      fill_loop p clear enc count (Z.of_nat k) st
      = Some (mkLoopState
                (subSamples st ++
                 layout (map to_uint32 (skipn k (lengths clear n)))
                        (map to_uint32 (skipn k (lengths enc n))))
                (to_ssize_t p
                   (totalSize st +
                    wrapped_terms (skipn k (lengths clear n))
                                  (skipn k (lengths enc n))))
                rd).
Proof.
  intros Hc He.
  pose proof (length_lengths clear n Hc) as Lc.
  pose proof (length_lengths enc n He) as Le.
  induction count as [|count IH]; intros k st Hk Hst.
  - assert (k = n) by lia. subst k.
    rewrite !skipn_all2 by lia. simpl.
    rewrite app_nil_r, Z.add_0_r, Hst.
    exists (reads st). destruct st; reflexivity.
  - destruct (nth_error_in_range (lengths clear n) k ltac:(lia)) as [c Ec].
    destruct (nth_error_in_range (lengths enc n) k ltac:(lia)) as [e Ee].
    rewrite (skipn_cons_nth_error _ _ _ Ec), (skipn_cons_nth_error _ _ _ Ee).
    cbn [fill_loop]. unfold loop_body.
    rewrite (element_lengths clear n k Hc) by lia.
    rewrite (element_lengths enc n k He) by lia.
    rewrite Ec, Ee.
    replace (Z.of_nat k + 1) with (Z.of_nat (S k)) by lia.
    edestruct (IH (S k)) as [rd Hrd]; [lia | | rewrite Hrd].
    + cbn [totalSize]. apply to_ssize_t_idem.
    + exists rd. cbn [subSamples totalSize map layout wrapped_terms
                       numBytesOfClearData numBytesOfEncryptedData].
      rewrite <- app_assoc. cbn [app].
      f_equal. f_equal.
      unfold to_ssize_t. rewrite to_signed_add_l by apply size_bits_pos.
      f_equal. lia.
Qed.

Lemma count_accepted (n : Z) :
  0 < n < MAX_COUNT -> ((n <=? 0) || (n >=? MAX_COUNT)) = false.
Proof.
  intros H. apply orb_false_iff. split.
  - apply Z.leb_gt. lia.
  - rewrite Z.geb_leb. apply Z.leb_gt. lia.
Qed.

(** What [getSubSampleInfo] returns for an accepted count and arrays of
    that many entries: the narrowed pairs, and the final total unless it is
    negative. *)
Lemma getSubSampleInfo_closed_form (p : Platform) (env : Environment)
    (n : Z) (clear enc : option (list Z)) :
  0 < n < MAX_COUNT ->
  resize_ok env n = true ->
  has_length clear (Z.to_nat n) -> has_length enc (Z.to_nat n) ->
  exists tr,
    getSubSampleInfo p env n clear enc
    = Done (mkSubSampleInfo
              (if final_total p clear enc (Z.to_nat n) <? 0 then -1
               else final_total p clear enc (Z.to_nat n))
              (layout (map to_uint32 (lengths clear (Z.to_nat n)))
                      (map to_uint32 (lengths enc (Z.to_nat n))))
              tr).
Proof.
  intros Hn Hr Hc He. unfold getSubSampleInfo.
  rewrite (count_accepted n Hn), Hr. cbn [negb].
  destruct (fill_loop_closed_form p clear enc (Z.to_nat n) Hc He
              (Z.to_nat n) 0%nat (mkLoopState [] 0 []))
    as [rd Hrd]; [lia | destruct p; reflexivity |].
  change (Z.of_nat 0) with 0 in Hrd. rewrite Hrd.
  cbn [totalSize subSamples reads skipn app]. rewrite Z.add_0_l.
  fold (final_total p clear enc (Z.to_nat n)).
  destruct (final_total p clear enc (Z.to_nat n) <? 0); eexists; reflexivity.
Qed.

Lemma sum_bounds (l : list Z) :
  Forall (fun x => 0 <= x <= INT32_MAX) l ->
  0 <= sum l <= Z.of_nat (List.length l) * INT32_MAX.
Proof.
  induction 1 as [|x l Hx _ IH].
  - simpl. lia.
  - change (sum (x :: l)) with (x + sum l).
    cbn [List.length]. rewrite Nat2Z.inj_succ.
    unfold INT32_MAX in *. lia.
Qed.

Lemma map_to_uint32_lengths (l : list Z) :
  Forall (fun x => 0 <= x <= INT32_MAX) l -> map to_uint32 l = l.
Proof.
  induction 1 as [|x l Hx _ IH]; simpl.
  - reflexivity.
  - rewrite IH. f_equal. apply to_unsigned_small.
    unfold INT32_MAX in Hx. lia.
Qed.

Lemma wrapped_terms_exact (cs es : list Z) :
  List.length cs = List.length es ->
  Forall (fun x => 0 <= x <= INT32_MAX) cs ->
  Forall (fun x => 0 <= x <= INT32_MAX) es ->
  wrapped_terms cs es = sum cs + sum es.
Proof.
  intros Hl Hc. revert es Hl.
  induction Hc as [|c cs Hx _ IH]; intros [|e es] Hl He;
    try discriminate Hl; simpl.
  - reflexivity.
  - inversion He as [|? ? Hy He']; subst.
    rewrite (IH es) by (auto; simpl in Hl; lia).
    unfold INT32_MAX in *. unfold to_uint32.
    rewrite (to_unsigned_small 32 c), (to_unsigned_small 32 e) by lia.
    rewrite (to_unsigned_small 32 (c + e)) by lia.
    change (sum (c :: cs)) with (c + sum cs).
    change (sum (e :: es)) with (e + sum es). lia.
Qed.

Lemma all_lengths_lengths (arr : option (list Z)) (n : nat) :
  all_lengths arr -> Forall (fun x => 0 <= x <= INT32_MAX) (lengths arr n).
Proof.
  destruct arr as [l|]; simpl; intros H.
  - exact H.
  - apply Forall_forall. intros x Hx. apply repeat_spec in Hx. subst x.
    unfold INT32_MAX. lia.
Qed.

Lemma layout_length (cs es : list Z) :
  List.length cs = List.length es ->
  List.length (layout cs es) = List.length cs.
Proof.
  revert es. induction cs as [|c cs IH]; intros [|e es] Hl;
    try discriminate Hl; simpl.
  - reflexivity.
  - f_equal. apply IH. simpl in Hl. lia.
Qed.

(** On a 64-bit ABI the exact sum of fewer than [MAX_COUNT] pairs of
    lengths always fits the accumulator. *)
Lemma exact_total_fits_LP64 (clear enc : option (list Z)) (n : Z) :
  0 < n < MAX_COUNT ->
  has_length clear (Z.to_nat n) -> has_length enc (Z.to_nat n) ->
  all_lengths clear -> all_lengths enc ->
  exact_total clear enc (Z.to_nat n) <= SSIZE_MAX LP64.
Proof.
  intros Hn Hc He Ac Ae. unfold exact_total.
  pose proof (sum_bounds _ (all_lengths_lengths clear (Z.to_nat n) Ac)) as Bc.
  pose proof (sum_bounds _ (all_lengths_lengths enc (Z.to_nat n) Ae)) as Be.
  rewrite length_lengths in Bc, Be by assumption.
  rewrite Z2Nat.id in Bc, Be by lia.
  change MAX_COUNT with 268435455 in Hn.
  change (SSIZE_MAX LP64) with 9223372036854775807.
  unfold INT32_MAX in *. nia.
Qed.

(** C2 (amended): for a count [n] with [1 <= n < MAX_COUNT], arrays that
    (when present) hold [n] non-negative lengths, a batch allocation that
    succeeds, and an exact sum that fits [ssize_t] (which it always does on
    a 64-bit ABI), [getSubSampleInfo] produces the batch of exactly [n]
    entries pairing the i-th clear with the i-th encrypted length, an absent
    array counting 0, and returns the exact sum of all lengths. *)
Theorem getSubSampleInfo_exact_layout (p : Platform) (env : Environment)
    (n : Z) (clear enc : option (list Z)) :
  1 <= n < MAX_COUNT ->
  resize_ok env n = true ->
  has_length clear (Z.to_nat n) -> has_length enc (Z.to_nat n) ->
  all_lengths clear -> all_lengths enc ->
  p = LP64 \/ exact_total clear enc (Z.to_nat n) <= SSIZE_MAX p ->
  exists tr,
    getSubSampleInfo p env n clear enc
    = Done (mkSubSampleInfo
              (exact_total clear enc (Z.to_nat n))
              (layout (lengths clear (Z.to_nat n)) (lengths enc (Z.to_nat n)))
              tr)
    /\ List.length (layout (lengths clear (Z.to_nat n))
                           (lengths enc (Z.to_nat n))) = Z.to_nat n.
Proof.
  intros Hn Hr Hc He Ac Ae Hfit.
  assert (Hfit' : exact_total clear enc (Z.to_nat n) <= SSIZE_MAX p).
  { destruct Hfit as [-> | H]; [| exact H].
    apply exact_total_fits_LP64; auto; lia. }
  pose proof (all_lengths_lengths clear (Z.to_nat n) Ac) as Fc.
  pose proof (all_lengths_lengths enc (Z.to_nat n) Ae) as Fe.
  pose proof (length_lengths clear _ Hc) as Lc.
  pose proof (length_lengths enc _ He) as Le.
  destruct (getSubSampleInfo_closed_form p env n clear enc) as [tr Htr];
    auto; try lia.
  assert (Hft : final_total p clear enc (Z.to_nat n)
                = exact_total clear enc (Z.to_nat n)).
  { unfold final_total. rewrite wrapped_terms_exact by (auto; lia).
    fold (exact_total clear enc (Z.to_nat n)).
    apply to_ssize_t_small. split; [| exact Hfit'].
    unfold exact_total.
    pose proof (sum_bounds _ Fc). pose proof (sum_bounds _ Fe). lia. }
  rewrite Hft in Htr.
  rewrite !map_to_uint32_lengths in Htr by assumption.
  assert (Hnn : (exact_total clear enc (Z.to_nat n) <? 0) = false).
  { apply Z.ltb_ge. unfold exact_total.
    pose proof (sum_bounds _ Fc). pose proof (sum_bounds _ Fe). lia. }
  rewrite Hnn in Htr.
  exists tr. split; [exact Htr |].
  rewrite layout_length by lia. exact Lc.
Qed.

Lemma getSubSampleInfo_exact_layout_witness :
  exists tr,
    getSubSampleInfo ILP32 (Scenario.env 10) 2 (Some [4; 0]) None
    = Done (mkSubSampleInfo 4 [mkSubSample 4 0; mkSubSample 0 0] tr)
    /\ List.length [mkSubSample 4 0; mkSubSample 0 0] = 2%nat.
Proof.
  apply (getSubSampleInfo_exact_layout ILP32 (Scenario.env 10) 2
           (Some [4; 0]) None).
  - evaluate.
  - reflexivity.
  - reflexivity.
  - exact I.
  - repeat constructor; evaluate.
  - exact I.
  - right. evaluate.
Defined.

(** C2, as stated, fails: on a 32-bit ABI the lengths 2147483647 and 1 are
    rejected although their exact sum is 2147483648, and on a 64-bit ABI
    the entry -1 is stored as 4294967295 and so is the total, not -1. *)
Lemma getSubSampleInfo_total_not_exact :
  (returned (getSubSampleInfo ILP32 (Scenario.env 0) 1
               (Some [2147483647]) (Some [1])) = Some (-1)
   /\ exact_total (Some [2147483647]) (Some [1]) 1 = 2147483648)
  /\
  (returned (getSubSampleInfo LP64 (Scenario.env 0) 1 (Some [-1]) None)
   = Some 4294967295
   /\ exact_total (Some [-1]) None 1 = -1).
Proof. repeat split. Qed.

(** C6 (amended): [getSubSampleInfo] accumulates
    [total += clear[i] + encrypted[i]] in a signed [ssize_t] accumulator,
    each term computed in 32-bit unsigned arithmetic, and looks at the
    accumulator once, after the last subsample: for an accepted count and
    arrays of that many entries it returns -1 (InvalidArgument) exactly
    when the final total is negative, and the final total otherwise.  The
    running total of an intermediate step is not examined. *)
Theorem getSubSampleInfo_final_total_decides (p : Platform)
    (env : Environment) (n : Z) (clear enc : option (list Z)) :
  0 < n < MAX_COUNT ->
  resize_ok env n = true ->
  has_length clear (Z.to_nat n) -> has_length enc (Z.to_nat n) ->
  exists info,
    getSubSampleInfo p env n clear enc = Done info /\
    (final_total p clear enc (Z.to_nat n) < 0 -> ss_ret info = -1) /\
    (0 <= final_total p clear enc (Z.to_nat n) ->
     ss_ret info = final_total p clear enc (Z.to_nat n)).
Proof.
  intros Hn Hr Hc He.
  destruct (getSubSampleInfo_closed_form p env n clear enc Hn Hr Hc He)
    as [tr Htr].
  rewrite Htr. eexists. split; [reflexivity |]. cbn [ss_ret].
  destruct (Z.ltb_spec (final_total p clear enc (Z.to_nat n)) 0); split; lia.
Qed.

Lemma getSubSampleInfo_final_total_decides_witness :
  exists info,
    getSubSampleInfo ILP32 (Scenario.env 0) 1 (Some [-1]) None = Done info /\
    (final_total ILP32 (Some [-1]) None 1 < 0 -> ss_ret info = -1) /\
    (0 <= final_total ILP32 (Some [-1]) None 1 ->
     ss_ret info = final_total ILP32 (Some [-1]) None 1).
Proof.
  apply (getSubSampleInfo_final_total_decides ILP32 (Scenario.env 0) 1
           (Some [-1]) None).
  - evaluate.
  - reflexivity.
  - reflexivity.
  - exact I.
Defined.

(** C6, as stated, fails.  On a 32-bit ABI, with the lengths
    (2147483647, 1) twice, the accumulator is -2147483648 after the first
    subsample and 0 after the second, and the computation succeeds with
    total 0.  With the clear entries -5 and 10 the sum of the entries is
    negative after the first subsample; a 32-bit accumulator holds -5 there
    and the computation succeeds with total 5, and on a 64-bit ABI the
    entry -5 counts as 4294967291 and the computation succeeds with total
    4294967301. *)
Lemma getSubSampleInfo_negative_running_total_accepted :
  (running_total ILP32 (Some [2147483647; 2147483647]) (Some [1; 1]) 1
   = Some (-2147483648)
   /\ running_total ILP32 (Some [2147483647; 2147483647]) (Some [1; 1]) 2
      = Some 0
   /\ returned (getSubSampleInfo ILP32 (Scenario.env 0) 2
                  (Some [2147483647; 2147483647]) (Some [1; 1])) = Some 0)
  /\
  (sum (firstn 1 [-5; 10]) = -5
   /\ running_total ILP32 (Some [-5; 10]) None 1 = Some (-5)
   /\ returned (getSubSampleInfo ILP32 (Scenario.env 0) 2
                  (Some [-5; 10]) None) = Some 5
   /\ returned (getSubSampleInfo LP64 (Scenario.env 0) 2
                  (Some [-5; 10]) None) = Some 4294967301).
Proof. repeat split. Qed.

(** C7: for a count [n <= 0] or [n >= MAX_COUNT], where
    [MAX_COUNT = INT32_MAX / sizeof(SubSample)], [getSubSampleInfo] returns
    -1 with an empty trace, so before the batch is allocated and before any
    element of either array is obtained or read, and the native call throws
    IllegalArgumentException and returns -1 without any other effect. *)
Theorem invalid_count_rejected (p : Platform) (env : Environment)
    (descrambler : JDescrambler) (mem : Memory) (key n : Z)
    (clear enc : option (list Z))
    (srcBuf : ByteBuffer) (srcOffset srcLimit : Z)
    (dstBuf : option ByteBuffer) (dstOffset dstLimit : Z) :
  n <= 0 \/ n >= MAX_COUNT ->
  MAX_COUNT = INT32_MAX / sizeof_SubSample /\
  getSubSampleInfo p env n clear enc = Done (mkSubSampleInfo (-1) [] []) /\
  android_media_MediaDescrambler_native_descramble p env (Some descrambler) mem key n clear enc
    srcBuf srcOffset srcLimit dstBuf dstOffset dstLimit
  = Done (mkNativeReturn (Some (-1)) (Some descrambler) mem
            [Throw IllegalArgumentException]).
Proof.
  intros Hn.
  assert (Hc : ((n <=? 0) || (n >=? MAX_COUNT)) = true).
  { apply orb_true_iff. destruct Hn as [H | H].
    - left. apply Z.leb_le. exact H.
    - right. rewrite Z.geb_leb. apply Z.leb_le. lia. }
  assert (Hs : getSubSampleInfo p env n clear enc
               = Done (mkSubSampleInfo (-1) [] [])).
  { unfold getSubSampleInfo. rewrite Hc. reflexivity. }
  split; [reflexivity |]. split; [exact Hs |].
  unfold android_media_MediaDescrambler_native_descramble. rewrite Hs. reflexivity.
Qed.

Lemma invalid_count_rejected_witness :
  MAX_COUNT = INT32_MAX / sizeof_SubSample /\
  getSubSampleInfo LP64 (Scenario.env 4) 268435455 (Some [4]) None
  = Done (mkSubSampleInfo (-1) [] []) /\
  android_media_MediaDescrambler_native_descramble LP64 (Scenario.env 4) (Some Scenario.fresh)
    Scenario.memory 0 268435455 (Some [4]) None
    (DirectBuffer 1%nat) 0 5 None 0 5
  = Done (mkNativeReturn (Some (-1)) (Some Scenario.fresh) Scenario.memory
            [Throw IllegalArgumentException]).
Proof.
  apply (invalid_count_rejected LP64 (Scenario.env 4) Scenario.fresh
           Scenario.memory 0 268435455 (Some [4]) None
           (DirectBuffer 1%nat) 0 5 None 0 5).
  right. evaluate.
Defined.

(** ** The shared transport buffer *)

Lemma SSIZE_MAX_bound (p : Platform) (n : Z) :
  n <= SSIZE_MAX p -> n + 131072 < 2 ^ size_bits p.
Proof. unfold SSIZE_MAX. destruct p; simpl; lia. Qed.

Lemma alignment_bounds (k : Z) : 0 <= k <= 16 -> 1 <= 2 ^ k <= 65536.
Proof.
  intros Hk. split.
  - pose proof (Z.pow_pos_nonneg 2 k ltac:(lia) ltac:(lia)). lia.
  - change 65536 with (2 ^ 16). apply Z.pow_le_mono_r; lia.
Qed.

(** The first mask rounds up to the alignment, when it is a power of two
    and the sum does not leave [size_t]. *)
Lemma align_to_round_up (p : Platform) (n k : Z) :
  0 <= k -> 0 <= n -> n + 2 ^ k - 1 < 2 ^ size_bits p ->
  align_to p n (2 ^ k) = round_up n (2 ^ k).
Proof.
  intros Hk Hn Hfit.
  pose proof (Z.pow_pos_nonneg 2 k ltac:(lia) Hk) as Hpos.
  unfold align_to, to_size_t.
  rewrite (to_unsigned_small _ (2 ^ k - 1)) by lia.
  rewrite (to_unsigned_small _ (n + (2 ^ k - 1))) by lia.
  rewrite land_to_unsigned by (try apply size_bits_pos; lia).
  rewrite land_lnot_low_bits by exact Hk.
  unfold round_up. do 2 f_equal. lia.
Qed.

(** The second mask rounds up to a multiple of 64 KiB. *)
Lemma align_64K_round_up (p : Platform) (n : Z) :
  0 <= n -> n + 65535 < 2 ^ size_bits p ->
  align_64K p n = round_up n 65536.
Proof.
  intros Hn Hfit. unfold align_64K, to_size_t.
  rewrite (to_unsigned_small _ (n + 65535)) by lia.
  rewrite land_to_unsigned by (try apply size_bits_pos; lia).
  change 65535 with (2 ^ 16 - 1) at 2.
  rewrite land_lnot_low_bits by lia.
  unfold round_up. change (2 ^ 16) with 65536. do 2 f_equal. lia.
Qed.

Lemma grown_size_round_up (p : Platform) (env : Environment) (n k : Z) :
  0 <= n <= SSIZE_MAX p ->
  0 <= k <= 16 -> getAllocationAlignment env = 2 ^ k ->
  grown_size p env n = round_up (round_up n (2 ^ k)) 65536.
Proof.
  intros Hn Hk Ha. unfold grown_size. rewrite Ha.
  pose proof (alignment_bounds k Hk) as Hb.
  pose proof (SSIZE_MAX_bound p n ltac:(lia)) as Hfit.
  pose proof (round_up_ge n (2 ^ k) ltac:(lia)) as Hge.
  pose proof (round_up_le n (2 ^ k) ltac:(lia)) as Hle.
  rewrite align_to_round_up by lia.
  apply align_64K_round_up; lia.
Qed.

Lemma ensureBufferCapacity_no_op (p : Platform) (env : Environment)
    (self : JDescrambler) (n : Z) :
  has_capacity self n = true ->
  ensureBufferCapacity p env self n = Done (mkEnsured true self []).
Proof. intros H. unfold ensureBufferCapacity. rewrite H. reflexivity. Qed.

(** A grow whose allocation hands back NULL calls through it. *)
Lemma ensureBufferCapacity_no_region (p : Platform) (env : Environment)
    (self : JDescrambler) (n : Z) :
  has_capacity self n = false ->
  allocate env (grown_size p env n) = None ->
  ensureBufferCapacity p env self n = Undefined NullDereference.
Proof.
  intros Hcap Hnone. unfold ensureBufferCapacity. rewrite Hcap, Hnone.
  reflexivity.
Qed.

(** A grow past either tested step: the new region is installed, the
    descriptor is left as it was, and the call reports failure. *)
Lemma ensureBufferCapacity_grow_fails (p : Platform) (env : Environment)
    (self : JDescrambler) (n : Z) (bytes : Z -> byte) :
  has_capacity self n = false ->
  allocate env (grown_size p env n) = Some bytes ->
  grow_fails p env n ->
  ensureBufferCapacity p env self n
  = Done (mkEnsured false
            (mkJDescrambler (mDescrambler self) (Some (grown_size p env n))
               (Some (mkIMemory (grown_size p env n) bytes))
               (mDescramblerSrcBuffer self))
            [NewMemoryDealer (grown_size p env n);
             Allocate (grown_size p env n)]).
Proof.
  intros Hcap Hbytes Hfail. unfold ensureBufferCapacity, grow_fails in *.
  rewrite Hcap, Hbytes.
  destruct (getMemory env (grown_size p env n)) as [[[heap|] offset] size];
    simpl in Hfail.
  - destruct Hfail as [Hfail | Hfail]; [discriminate Hfail |].
    rewrite Hfail. reflexivity.
  - reflexivity.
Qed.

Lemma ensureBufferCapacity_grow_succeeds (p : Platform) (env : Environment)
    (self : JDescrambler) (n : Z) (bytes : Z -> byte)
    (heap : IMemoryHeap) (offset size : Z) :
  has_capacity self n = false ->
  allocate env (grown_size p env n) = Some bytes ->
  getMemory env (grown_size p env n) = (Some heap, offset, size) ->
  native_handle_create env = true ->
  ensureBufferCapacity p env self n
  = Done (mkEnsured true
            (mkJDescrambler (mDescrambler self) (Some (grown_size p env n))
               (Some (mkIMemory (grown_size p env n) bytes))
               (mkSharedBuffer
                  (Some (mkHidlMemory "ashmem" [heapID heap] (heapSize heap)))
                  (to_uint64 offset) (to_uint64 size)))
            [NewMemoryDealer (grown_size p env n);
             Allocate (grown_size p env n)]).
Proof.
  intros Hcap Hbytes Hmem Hnative. unfold ensureBufferCapacity.
  rewrite Hcap, Hbytes, Hmem, Hnative. reflexivity.
Qed.

(** After a grow the session holds the region the allocator handed back,
    whether or not the grow was confirmed, and it still has the interface
    it had. *)
Lemma ensureBufferCapacity_grow_region (p : Platform) (env : Environment)
    (self : JDescrambler) (n : Z) (bytes : Z -> byte) :
  has_capacity self n = false ->
  allocate env (grown_size p env n) = Some bytes ->
  exists en,
    ensureBufferCapacity p env self n = Done en
    /\ mMem (en_self en) = Some (mkIMemory (grown_size p env n) bytes)
    /\ mDescrambler (en_self en) = mDescrambler self
    /\ en_trace en
       = [NewMemoryDealer (grown_size p env n); Allocate (grown_size p env n)].
Proof.
  intros Hcap Hbytes. unfold ensureBufferCapacity. rewrite Hcap, Hbytes.
  destruct (getMemory env (grown_size p env n)) as [[[heap|] offset] size];
    [destruct (native_handle_create env) |];
    eexists; (split; [reflexivity |]); repeat split.
Qed.

(** Whenever [ensureBufferCapacity] returns, the session holds a region. *)
Lemma ensureBufferCapacity_returns (p : Platform) (env : Environment)
    (self : JDescrambler) (n : Z) (en : Ensured) :
  ensureBufferCapacity p env self n = Done en ->
  (has_capacity self n = true /\ en = mkEnsured true self [])
  \/ (has_capacity self n = false
      /\ exists bytes,
           allocate env (grown_size p env n) = Some bytes
           /\ mMem (en_self en) = Some (mkIMemory (grown_size p env n) bytes)
           /\ mDescrambler (en_self en) = mDescrambler self
           /\ en_trace en
              = [NewMemoryDealer (grown_size p env n);
                 Allocate (grown_size p env n)]).
Proof.
  intros H. destruct (has_capacity self n) eqn:Hcap.
  - left. rewrite ensureBufferCapacity_no_op in H by exact Hcap.
    injection H as <-. now split.
  - right. split; [reflexivity |].
    destruct (allocate env (grown_size p env n)) as [bytes|] eqn:Hbytes.
    + destruct (ensureBufferCapacity_grow_region p env self n bytes Hcap Hbytes)
        as (en' & He & Hm & Hi & Ht).
      rewrite He in H. injection H as <-. exists bytes. now repeat split.
    + rewrite ensureBufferCapacity_no_region in H by assumption.
      discriminate H.
Qed.

Lemma has_capacity_false (self : JDescrambler) (n : Z) :
  mMem self = None \/ capacity self < n -> has_capacity self n = false.
Proof.
  unfold has_capacity, capacity.
  destruct (mMem self) as [m|]; intros [H | H]; try discriminate H;
    try reflexivity.
  rewrite Z.geb_leb. apply Z.leb_gt. exact H.
Qed.

Lemma has_capacity_true (self : JDescrambler) (n : Z) (m : IMemory) :
  mMem self = Some m -> n <= mem_size m -> has_capacity self n = true.
Proof.
  intros Hm Hn. unfold has_capacity. rewrite Hm.
  rewrite Z.geb_leb. apply Z.leb_le. exact Hn.
Qed.

(** C8 (amended): [ensureBufferCapacity n] is a successful no-op that keeps
    the region and the descriptor whenever the session holds a region of
    size at least [n].  Otherwise (no region yet, or a smaller one), for a
    request [n] up to [SSIZE_MAX] and an allocation alignment that is a
    power of two up to 64 KiB, it asks for a fresh region whose size is [n]
    rounded up to the alignment and then to a multiple of 64 KiB; when the
    allocator hands that region back, the call returns with it installed,
    so the capacity is at least [n]; and when the heap reference and the
    native handle are obtained it succeeds with the descriptor
    [{heapReference, offset, size}] of the new region.  Whenever the call
    returns, a later call with a size that is not larger does not
    allocate. *)
Theorem ensureBufferCapacity_policy (p : Platform) (env : Environment)
    (self : JDescrambler) (n k : Z) :
  0 <= n <= SSIZE_MAX p ->
  0 <= k <= 16 ->
  getAllocationAlignment env = 2 ^ k ->
  (forall m,
     mMem self = Some m -> n <= mem_size m ->
     ensureBufferCapacity p env self n = Done (mkEnsured true self []))
  /\
  (mMem self = None \/ capacity self < n ->
   let size := round_up (round_up n (2 ^ k)) 65536 in
   n <= size /\ size mod 65536 = 0 /\
   forall bytes,
     allocate env size = Some bytes ->
     exists en,
       ensureBufferCapacity p env self n = Done en /\
       en_trace en = [NewMemoryDealer size; Allocate size] /\
       mMem (en_self en) = Some (mkIMemory size bytes) /\
       capacity (en_self en) >= n /\
       forall heap offset sz,
         getMemory env size = (Some heap, offset, sz) ->
         native_handle_create env = true ->
         en_ok en = true /\
         mDescramblerSrcBuffer (en_self en)
         = mkSharedBuffer
             (Some (mkHidlMemory "ashmem" [heapID heap] (heapSize heap)))
             (to_uint64 offset) (to_uint64 sz))
  /\
  (forall en n',
     ensureBufferCapacity p env self n = Done en ->
     n' <= n ->
     ensureBufferCapacity p env (en_self en) n'
     = Done (mkEnsured true (en_self en) [])).
Proof.
  intros Hn Hk Ha.
  pose proof (grown_size_round_up p env n k Hn Hk Ha) as Hsize.
  pose proof (alignment_bounds k Hk) as Hb.
  assert (Hge : n <= round_up (round_up n (2 ^ k)) 65536).
  { pose proof (round_up_ge n (2 ^ k) ltac:(lia)).
    pose proof (round_up_ge (round_up n (2 ^ k)) 65536 ltac:(lia)). lia. }
  split; [| split].
  - intros m Hm Hfit. apply ensureBufferCapacity_no_op.
    exact (has_capacity_true self n m Hm Hfit).
  - intros Hsmall size.
    pose proof (has_capacity_false self n Hsmall) as Hcap.
    fold size in Hsize, Hge.
    split; [exact Hge |].
    split; [apply round_up_multiple; lia |].
    intros bytes Hbytes. rewrite <- Hsize in Hbytes.
    destruct (ensureBufferCapacity_grow_region p env self n bytes Hcap Hbytes)
      as (en & He & Hregion & _ & Htrace).
    rewrite Hsize in Hregion, Htrace.
    exists en. split; [exact He |]. split; [exact Htrace |].
    split; [exact Hregion |].
    split; [unfold capacity; rewrite Hregion; cbn [mem_size]; lia |].
    intros heap offset sz Hheap Hnative. rewrite <- Hsize in Hheap.
    rewrite (ensureBufferCapacity_grow_succeeds p env self n bytes heap
               offset sz Hcap Hbytes Hheap Hnative) in He.
    injection He as <-. split; reflexivity.
  - intros en n' He Hn'. apply ensureBufferCapacity_no_op.
    destruct (ensureBufferCapacity_returns p env self n en He)
      as [[Hcap ->] | (Hcap & bytes & _ & Hregion & _)].
    + cbn [en_self].
      unfold has_capacity in *. destruct (mMem self) as [m|];
        [| discriminate Hcap].
      rewrite Z.geb_leb in *. apply Z.leb_le in Hcap. apply Z.leb_le. lia.
    + eapply has_capacity_true; [exact Hregion |].
      cbn [mem_size]. rewrite Hsize. lia.
Qed.

Lemma ensureBufferCapacity_policy_witness :
  (forall m,
     mMem Scenario.warm = Some m -> 65537 <= mem_size m ->
     ensureBufferCapacity ILP32 (Scenario.env 0) Scenario.warm 65537
     = Done (mkEnsured true Scenario.warm []))
  /\
  (mMem Scenario.warm = None \/ capacity Scenario.warm < 65537 ->
   let size := round_up (round_up 65537 (2 ^ 5)) 65536 in
   65537 <= size /\ size mod 65536 = 0 /\
   forall bytes,
     allocate (Scenario.env 0) size = Some bytes ->
     exists en,
       ensureBufferCapacity ILP32 (Scenario.env 0) Scenario.warm 65537
       = Done en /\
       en_trace en = [NewMemoryDealer size; Allocate size] /\
       mMem (en_self en) = Some (mkIMemory size bytes) /\
       capacity (en_self en) >= 65537 /\
       forall heap offset sz,
         getMemory (Scenario.env 0) size = (Some heap, offset, sz) ->
         native_handle_create (Scenario.env 0) = true ->
         en_ok en = true /\
         mDescramblerSrcBuffer (en_self en)
         = mkSharedBuffer
             (Some (mkHidlMemory "ashmem" [heapID heap] (heapSize heap)))
             (to_uint64 offset) (to_uint64 sz))
  /\
  (forall en n',
     ensureBufferCapacity ILP32 (Scenario.env 0) Scenario.warm 65537
     = Done en ->
     n' <= 65537 ->
     ensureBufferCapacity ILP32 (Scenario.env 0) (en_self en) n'
     = Done (mkEnsured true (en_self en) [])).
Proof.
  apply (ensureBufferCapacity_policy ILP32 (Scenario.env 0) Scenario.warm
           65537 5).
  - evaluate.
  - evaluate.
  - reflexivity.
Defined.

(** C8, as stated, fails: a session that has no region yet has capacity 0,
    and a request for 0 bytes is not a no-op there; it allocates a region,
    and reports failure when no heap reference is obtained.  And a request
    in the last 64 KiB of [size_t] wraps to a region of size 0. *)
Lemma ensureBufferCapacity_empty_session_allocates :
  capacity Scenario.fresh >= 0
  /\ (exists en,
        ensureBufferCapacity LP64 (Scenario.env 0) Scenario.fresh 0 = Done en
        /\ en_trace en = [NewMemoryDealer 0; Allocate 0])
  /\ (exists en,
        ensureBufferCapacity LP64 (Scenario.env_no_heap 0) Scenario.fresh 0
        = Done en
        /\ en_ok en = false)
  /\ (exists en,
        ensureBufferCapacity ILP32 (Scenario.env 0) Scenario.fresh 4294967295
        = Done en
        /\ capacity (en_self en) = 0).
Proof.
  split; [evaluate |].
  repeat split; eexists; (split; [reflexivity |]); reflexivity.
Qed.

(** For the two steps of a grow that the source tests, the heap reference
    of the new region and the native handle: when the allocator has handed
    back the region and one of them fails, [ensureBufferCapacity] reports
    failure, [descramble] returns [NO_MEMORY] with no remote call in its
    trace, and the native call ends by throwing OutOfMemoryError; the
    session is left holding the new, unconfirmed region in place of the old
    one, with the descriptor of the old region. *)
Lemma failed_grow_reports_no_memory (p : Platform) (env : Environment)
    (self : JDescrambler) (mem : Memory) (key totalLength : Z)
    (subs : list SubSample) (srcPtr : Ptr) (srcOffset : Z) (dstPtr : Ptr)
    (dstOffset : Z) (bytes : Z -> byte) :
  has_capacity self (to_size_t p totalLength) = false ->
  allocate env (grown_size p env (to_size_t p totalLength)) = Some bytes ->
  grow_fails p env (to_size_t p totalLength) ->
  let size := grown_size p env (to_size_t p totalLength) in
  let left :=
    mkJDescrambler (mDescrambler self) (Some size)
      (Some (mkIMemory size bytes)) (mDescramblerSrcBuffer self) in
  let d := mkDescrambled NoMemory left mem
             [NewMemoryDealer size; Allocate size] in
  ensureBufferCapacity p env self (to_size_t p totalLength)
  = Done (mkEnsured false left [NewMemoryDealer size; Allocate size])
  /\ descramble p env self mem key totalLength subs
       srcPtr srcOffset dstPtr dstOffset = Done d
  /\ remote_invoked (d_trace d) = false
  /\ forall srcArray dstArray pre,
       n_trace (finish d srcArray dstArray pre)
       = pre ++ [NewMemoryDealer size; Allocate size]
             ++ release_byte_array srcArray ++ release_byte_array dstArray
             ++ [Throw OutOfMemoryError].
Proof.
  intros Hcap Hbytes Hfail size left d.
  pose proof (ensureBufferCapacity_grow_fails p env self _ bytes Hcap Hbytes
                Hfail) as He.
  fold size in He. fold left in He.
  split; [exact He |].
  split; [unfold descramble; rewrite He; reflexivity |].
  split; [reflexivity |].
  intros srcArray dstArray pre. unfold finish, d.
  cbn [d_result d_trace n_trace].
  rewrite <- !app_assoc. reflexivity.
Qed.

(** A grow whose allocation hands back NULL: [descramble] does not return
    [NO_MEMORY], it calls through the null [mMem] at line 144. *)
Lemma descramble_no_region (p : Platform) (env : Environment)
    (self : JDescrambler) (mem : Memory) (key totalLength : Z)
    (subs : list SubSample) (srcPtr : Ptr) (srcOffset : Z) (dstPtr : Ptr)
    (dstOffset : Z) :
  has_capacity self (to_size_t p totalLength) = false ->
  allocate env (grown_size p env (to_size_t p totalLength)) = None ->
  descramble p env self mem key totalLength subs
    srcPtr srcOffset dstPtr dstOffset = Undefined NullDereference.
Proof.
  intros Hcap Hnone. unfold descramble.
  rewrite (ensureBufferCapacity_no_region p env self _ Hcap Hnone).
  reflexivity.
Qed.

(** C9 fails on the code for the first step of a grow.  The result of
    [MemoryDealer::allocate] is not tested: when the allocator hands back
    NULL, line 144 calls [getMemory] through the null [mMem].  So, for a
    session without a region asked for 4 bytes, and for a session with a
    64 KiB region asked for 65537 bytes, [ensureBufferCapacity] does not
    report failure, [descramble] does not return [NO_MEMORY] and the native
    call throws no OutOfMemoryError: each of them ends in the call through
    the null pointer. *)
Theorem failed_allocation_calls_through_null :
  allocate (Scenario.env_no_region 4)
    (grown_size LP64 (Scenario.env_no_region 4) 4) = None
  /\ ensureBufferCapacity LP64 (Scenario.env_no_region 4) Scenario.fresh 4
     = Undefined NullDereference
  /\ ensureBufferCapacity LP64 (Scenario.env_no_region 4) Scenario.warm 65537
     = Undefined NullDereference
  /\ descramble LP64 (Scenario.env_no_region 4) Scenario.fresh Scenario.memory
       0 4 [mkSubSample 4 0] 1%nat 0 2%nat 0
     = Undefined NullDereference
  /\ android_media_MediaDescrambler_native_descramble LP64
       (Scenario.env_no_region 4) (Some Scenario.fresh) Scenario.memory
       0 1 (Some [4]) None (DirectBuffer 1%nat) 0 5 None 0 5
     = Undefined NullDereference.
Proof. repeat split. Qed.

(** ** Copies between caller memory and the region *)

Lemma load_in_bounds (mem : Memory) (ptr : Ptr) (b : list byte) (off len : Z) :
  mem ptr = Some b ->
  0 <= off -> 0 <= len -> off + len <= Z.of_nat (List.length b) ->
  load mem ptr off len
  = Some (firstn (Z.to_nat len) (skipn (Z.to_nat off) b)).
Proof.
  intros Hb Hoff Hlen Hfit. unfold load. rewrite Hb.
  replace (0 <=? off) with true by (symmetry; apply Z.leb_le; lia).
  replace (0 <=? len) with true by (symmetry; apply Z.leb_le; lia).
  replace (off + len <=? Z.of_nat (List.length b)) with true
    by (symmetry; apply Z.leb_le; lia).
  reflexivity.
Qed.

Lemma store_in_bounds (mem : Memory) (ptr : Ptr) (b data : list byte)
    (off : Z) :
  mem ptr = Some b ->
  0 <= off ->
  off + Z.of_nat (List.length data) <= Z.of_nat (List.length b) ->
  exists mem',
    store mem ptr off data = Some mem' /\
    mem' ptr = Some (firstn (Z.to_nat off) b ++ data
                     ++ skipn (Z.to_nat (off + Z.of_nat (List.length data))) b)
    /\ forall q, q <> ptr -> mem' q = mem q.
Proof.
  intros Hb Hoff Hfit. unfold store. rewrite Hb. cbv zeta.
  replace (0 <=? off) with true by (symmetry; apply Z.leb_le; lia).
  replace (off + Z.of_nat (List.length data) <=? Z.of_nat (List.length b))
    with true by (symmetry; apply Z.leb_le; lia).
  eexists. split; [reflexivity |]. split.
  - rewrite Nat.eqb_refl. reflexivity.
  - intros q Hq. apply Nat.eqb_neq in Hq. rewrite Hq. reflexivity.
Qed.

Lemma map_seq_tabulates {A : Type} (f : nat -> A) (d : A) (data : list A) :
  forall s,
    (forall k, (k < List.length data)%nat -> f (s + k)%nat = nth k data d) ->
    map f (seq s (List.length data)) = data.
Proof.
  induction data as [|x data IH]; intros s H.
  - reflexivity.
  - cbn [List.length seq map]. f_equal.
    + rewrite <- (Nat.add_0_r s). apply (H 0%nat). simpl. lia.
    + apply IH. intros k Hk.
      replace (S s + k)%nat with (s + S k)%nat by lia.
      apply (H (S k)). simpl. lia.
Qed.

(** Reading back what was copied to the start of the region, through a
    service that left those bytes alone. *)
Lemma region_read_write (bytes bytes' : Z -> byte) (data : list byte) :
  (forall i, 0 <= i < Z.of_nat (List.length data) ->
             bytes' i = region_write bytes data i) ->
  region_read bytes' (Z.of_nat (List.length data)) = data.
Proof.
  intros H. unfold region_read. rewrite Nat2Z.id.
  apply (map_seq_tabulates _ x00). intros k Hk. cbn [Nat.add].
  rewrite H by lia. unfold region_write.
  replace (0 <=? Z.of_nat k) with true by (symmetry; apply Z.leb_le; lia).
  replace (Z.of_nat k <? Z.of_nat (List.length data)) with true
    by (symmetry; apply Z.ltb_lt; lia).
  rewrite Nat2Z.id. reflexivity.
Qed.

Lemma length_window (b : list byte) (off len : Z) :
  0 <= off -> 0 <= len -> off + len <= Z.of_nat (List.length b) ->
  Z.of_nat (List.length (firstn (Z.to_nat len) (skipn (Z.to_nat off) b)))
  = len.
Proof.
  intros Hoff Hlen Hfit. rewrite length_firstn, length_skipn. lia.
Qed.

Lemma grown_size_nonneg (p : Platform) (env : Environment) (n : Z) :
  0 <= grown_size p env n.
Proof.
  unfold grown_size, align_64K. apply Z.land_nonneg. left.
  apply to_unsigned_range. apply size_bits_pos.
Qed.

(** With capacity for the request, the region in use afterwards is at
    least as large as the request whenever the call reports success. *)
Lemma ensureBufferCapacity_enough (p : Platform) (env : Environment)
    (self : JDescrambler) (n : Z) (en : Ensured) :
  0 <= n <= capacity self ->
  ensureBufferCapacity p env self n = Done en ->
  exists m,
    mMem (en_self en) = Some m /\ n <= mem_size m
    /\ mDescrambler (en_self en) = mDescrambler self.
Proof.
  intros Hn He.
  destruct (ensureBufferCapacity_returns p env self n en He)
    as [[Hcap ->] | (Hcap & bytes & _ & Hm & Hi & _)].
  - cbn [en_self]. unfold has_capacity, capacity in *.
    destruct (mMem self) as [m|]; [| discriminate Hcap].
    exists m. repeat split; [lia].
  - rewrite Hm. eexists. split; [reflexivity |]. cbn [mem_size].
    split; [| exact Hi].
    unfold has_capacity, capacity in *.
    destruct (mMem self) as [m|].
    + rewrite Z.geb_leb in Hcap. apply Z.leb_gt in Hcap. lia.
    + pose proof (grown_size_nonneg p env n). lia.
Qed.

(** With capacity for the request, a reported failure can only concern a
    request of no bytes. *)
Lemma ensureBufferCapacity_fails_only_empty (p : Platform)
    (env : Environment) (self : JDescrambler) (n : Z) (en : Ensured) :
  0 <= n <= capacity self ->
  ensureBufferCapacity p env self n = Done en ->
  en_ok en = false -> n = 0.
Proof.
  intros Hn He Hok.
  destruct (ensureBufferCapacity_returns p env self n en He)
    as [[Hcap ->] | (Hcap & _)].
  - discriminate Hok.
  - unfold has_capacity, capacity in *.
    destruct (mMem self) as [m|]; [| lia].
    rewrite Z.geb_leb in Hcap. apply Z.leb_gt in Hcap. lia.
Qed.

(** With capacity for the request, the call returns unless it has to
    allocate the first region and gets none. *)
Lemma ensureBufferCapacity_defined (p : Platform) (env : Environment)
    (self : JDescrambler) (n : Z) :
  (has_capacity self n = false -> allocates p env n) ->
  exists en, ensureBufferCapacity p env self n = Done en.
Proof.
  intros Halloc. destruct (has_capacity self n) eqn:Hcap.
  - eexists. apply ensureBufferCapacity_no_op. exact Hcap.
  - specialize (Halloc eq_refl). unfold allocates in Halloc.
    destruct (allocate env (grown_size p env n)) as [bytes|] eqn:Hbytes;
      [| contradiction].
    destruct (ensureBufferCapacity_grow_region p env self n bytes Hcap Hbytes)
      as (en & He & _).
    exists en. exact He.
Qed.

Lemma splice_nothing (dst : list byte) (off : Z) :
  firstn (Z.to_nat off) dst ++ [] ++ skipn (Z.to_nat (off + 0)) dst = dst.
Proof. rewrite Z.add_0_r. cbn [app]. apply firstn_skipn. Qed.

(** ** One descramble through the region *)

Lemma bytesWritten_valid_echo (p : Platform) (n : Z) :
  0 < n <= SSIZE_MAX p -> bytesWritten_valid p n n = true.
Proof.
  intros Hn. unfold bytesWritten_valid.
  rewrite to_ssize_t_small by lia.
  apply andb_true_iff. split.
  - apply Z.gtb_lt. lia.
  - apply Z.leb_le. lia.
Qed.

(** C3: for a session that has its interface and capacity at least
    [totalLength] (a session without a region being handed one by the
    allocator), a service that leaves the region's bytes as they are and
    reports [OK] with [bytesWritten = totalLength], and source and
    destination windows that lie inside their objects, [descramble] returns
    and leaves the destination object holding the [totalLength] source
    bytes of [srcOffset, srcOffset + totalLength) at [dstOffset], with
    every byte outside [dstOffset, dstOffset + totalLength), and every
    other object, as before. *)
Theorem descramble_round_trip (p : Platform) (env : Environment)
    (self : JDescrambler) (mem : Memory) (key totalLength : Z)
    (subs : list SubSample) (srcPtr : Ptr) (srcOffset : Z) (dstPtr : Ptr)
    (dstOffset : Z) (src dst : list byte) :
  0 <= totalLength <= SSIZE_MAX p ->
  mDescrambler self <> None ->
  capacity self >= totalLength ->
  (mMem self = None -> allocates p env totalLength) ->
  echoes env totalLength ->
  mem srcPtr = Some src -> mem dstPtr = Some dst ->
  0 <= srcOffset -> srcOffset + totalLength <= Z.of_nat (List.length src) ->
  0 <= dstOffset -> dstOffset + totalLength <= Z.of_nat (List.length dst) ->
  exists d,
    descramble p env self mem key totalLength subs
      srcPtr srcOffset dstPtr dstOffset = Done d
    /\ d_memory d dstPtr
       = Some (firstn (Z.to_nat dstOffset) dst
               ++ firstn (Z.to_nat totalLength) (skipn (Z.to_nat srcOffset) src)
               ++ skipn (Z.to_nat (dstOffset + totalLength)) dst)
    /\ forall q, q <> dstPtr -> d_memory d q = mem q.
Proof.
  intros Hlen Hiface Hcap Halloc Hecho Hsrc Hdst Hso Hsfit Hdo Hdfit.
  unfold descramble. rewrite (to_size_t_small p totalLength) by exact Hlen.
  destruct (ensureBufferCapacity_defined p env self totalLength) as [en He].
  { intros Hno. apply Halloc. unfold has_capacity, capacity in *.
    destruct (mMem self) as [m|]; [| reflexivity].
    rewrite Z.geb_leb in Hno. apply Z.leb_gt in Hno. lia. }
  rewrite He.
  destruct (en_ok en) eqn:Hok; cbn [negb].
  - destruct (ensureBufferCapacity_enough p env self totalLength en
                ltac:(lia) He) as (m & Hm & Hsize & Hi).
    rewrite Hm.
    rewrite (load_in_bounds mem srcPtr src srcOffset totalLength)
      by (assumption || lia).
    set (data := firstn (Z.to_nat totalLength) (skipn (Z.to_nat srcOffset) src)).
    assert (Hdata : Z.of_nat (List.length data) = totalLength)
      by (apply length_window; lia).
    replace (totalLength >? mem_size m) with false
      by (symmetry; rewrite Z.gtb_ltb; apply Z.ltb_ge; lia).
    rewrite Hi.
    destruct (mDescrambler self) as [iface|]; [| contradiction].
    match goal with
    | |- context [remote_descramble env ?r ?b] =>
        destruct (Hecho r b) as (msg & bytes' & Hreply & Hagree);
        rewrite Hreply
    end.
    destruct (Z.eq_dec totalLength 0) as [Hzero | Hpos].
    + assert (Hinvalid : bytesWritten_valid p totalLength totalLength = false)
        by (rewrite Hzero; reflexivity).
      rewrite Hinvalid. eexists. split; [reflexivity |]. cbn [d_memory].
      split; [| reflexivity].
      rewrite Hdst. f_equal. subst data. rewrite Hzero.
      symmetry. apply splice_nothing.
    + rewrite bytesWritten_valid_echo by lia.
      replace (totalLength >? mem_size m) with false
        by (symmetry; rewrite Z.gtb_ltb; apply Z.ltb_ge; lia).
      assert (Hread : region_read bytes' totalLength = data).
      { rewrite <- Hdata at 1.
        apply (region_read_write (mem_bytes m) bytes' data).
        intros i Hi'. apply Hagree. lia. }
      rewrite Hread.
      destruct (store_in_bounds mem dstPtr dst data dstOffset Hdst Hdo
                  ltac:(lia)) as (mem' & Hstore & Hat & Hother).
      rewrite Hstore. eexists. split; [reflexivity |]. cbn [d_memory].
      split; [| exact Hother].
      rewrite Hat, Hdata. reflexivity.
  - pose proof (ensureBufferCapacity_fails_only_empty p env self totalLength
                  en ltac:(lia) He Hok) as Hzero.
    eexists. split; [reflexivity |]. cbn [d_memory].
    split; [| reflexivity].
    rewrite Hdst. f_equal. rewrite Hzero. symmetry. apply splice_nothing.
Qed.

Lemma descramble_round_trip_witness :
  exists d,
    descramble LP64 (Scenario.env 4) Scenario.warm Scenario.memory 0 4
      [mkSubSample 4 0] 1%nat 1 2%nat 2 = Done d
    /\ d_memory d 2%nat = Some [x0a; x0b; x02; x03; x04; x05]
    /\ forall q, q <> 2%nat -> d_memory d q = Scenario.memory q.
Proof.
  apply (descramble_round_trip LP64 (Scenario.env 4) Scenario.warm
           Scenario.memory 0 4 [mkSubSample 4 0] 1%nat 1 2%nat 2
           [x01; x02; x03; x04; x05] [x0a; x0b; x0c; x0d; x0e; x0f]).
  - evaluate.
  - discriminate.
  - evaluate.
  - discriminate.
  - intros req bytes. exists EmptyString, bytes. split; reflexivity.
  - reflexivity.
  - reflexivity.
  - evaluate.
  - evaluate.
  - evaluate.
  - evaluate.
Defined.

(** The ways [descramble] returns. *)
Lemma descramble_cases (p : Platform) (env : Environment)
    (self : JDescrambler) (mem : Memory) (key totalLength : Z)
    (subs : list SubSample) (srcPtr : Ptr) (srcOffset : Z) (dstPtr : Ptr)
    (dstOffset : Z) (d : Descrambled) :
  descramble p env self mem key totalLength subs
    srcPtr srcOffset dstPtr dstOffset = Done d ->
  exists en,
    ensureBufferCapacity p env self (to_size_t p totalLength) = Done en
    /\
    ((en_ok en = false /\
      d = mkDescrambled NoMemory (en_self en) mem (en_trace en))
     \/
     exists reply,
       en_ok en = true /\
       d_trace d = en_trace en ++ [RemoteDescramble reply] /\
       match reply with
       | TransportError => d_result d = FailedTransaction /\ d_memory d = mem
       | Delivered StatusOK bytesWritten msg =>
           if bytesWritten_valid p bytesWritten totalLength then
             d_result d = Completed StatusOK bytesWritten msg /\
             exists data,
               store mem dstPtr dstOffset data = Some (d_memory d) /\
               List.length data = Z.to_nat bytesWritten
           else
             d_result d = Completed ERROR_CAS_UNKNOWN bytesWritten msg /\
             d_memory d = mem
       | Delivered status bytesWritten msg =>
           d_result d = Completed status bytesWritten msg /\ d_memory d = mem
       end).
Proof.
  intros H. unfold descramble in H.
  destruct (ensureBufferCapacity p env self (to_size_t p totalLength))
    as [en | u] eqn:He; [| discriminate H].
  exists en. split; [reflexivity |].
  destruct (en_ok en) eqn:Hok; cbn [negb] in H.
  2: { left. injection H as <-. split; reflexivity. }
  right.
  destruct (mMem (en_self en)) as [m|]; [| discriminate H].
  destruct (load mem srcPtr srcOffset (to_size_t p totalLength)) as [data|];
    [| discriminate H].
  destruct (to_size_t p totalLength >? mem_size m); [discriminate H |].
  destruct (mDescrambler (en_self en)) as [iface|]; [| discriminate H].
  destruct (remote_descramble env _ _) as [reply bytes].
  exists reply. split; [reflexivity |].
  destruct reply as [| [| |code] bytesWritten msg].
  - injection H as <-. repeat split.
  - destruct (bytesWritten_valid p bytesWritten totalLength).
    + destruct (bytesWritten >? mem_size m); [discriminate H |].
      destruct (store mem dstPtr dstOffset (region_read bytes bytesWritten))
        as [mem'|] eqn:Hstore; [| discriminate H].
      injection H as <-. cbn [d_trace d_result d_memory].
      split; [reflexivity |]. split; [reflexivity |].
      exists (region_read bytes bytesWritten). split; [exact Hstore |].
      unfold region_read. rewrite length_map, length_seq. reflexivity.
    + injection H as <-. repeat split.
  - injection H as <-. repeat split.
  - injection H as <-. repeat split.
Qed.

Lemma ensureBufferCapacity_trace (p : Platform) (env : Environment)
    (self : JDescrambler) (n : Z) (en : Ensured) :
  ensureBufferCapacity p env self n = Done en ->
  en_trace en = [] \/
  en_trace en
  = [NewMemoryDealer (grown_size p env n); Allocate (grown_size p env n)].
Proof.
  intros He.
  destruct (ensureBufferCapacity_returns p env self n en He)
    as [[_ ->] | (_ & bytes & _ & _ & _ & Ht)].
  - left. reflexivity.
  - right. exact Ht.
Qed.

(** On a 64-bit ABI the test of line 210 is the test of the
    specification. *)
Lemma bytesWritten_valid_LP64 (bytesWritten totalLength : Z) :
  0 <= bytesWritten < 2 ^ 32 ->
  bytesWritten_valid LP64 bytesWritten totalLength = true
  <-> 0 < bytesWritten <= totalLength.
Proof.
  intros Hb. unfold bytesWritten_valid.
  rewrite to_ssize_t_small
    by (change (SSIZE_MAX LP64) with 9223372036854775807; lia).
  rewrite andb_true_iff, Z.gtb_lt, Z.leb_le. lia.
Qed.

(** On a 32-bit ABI every count of [2 ^ 31] or more passes the test of
    line 210, whatever was sent. *)
Lemma bytesWritten_valid_ILP32_wraps (bytesWritten totalLength : Z) :
  2 ^ 31 <= bytesWritten < 2 ^ 32 -> 0 <= totalLength ->
  bytesWritten_valid ILP32 bytesWritten totalLength = true.
Proof.
  intros Hb Ht. unfold bytesWritten_valid, to_ssize_t, to_signed.
  cbn [size_bits].
  replace ((bytesWritten + 2 ^ (32 - 1)) mod 2 ^ 32)
    with (bytesWritten - 2 ^ 31).
  - apply andb_true_iff. split.
    + apply Z.gtb_lt. lia.
    + apply Z.leb_le. lia.
  - apply Zmod_unique with (q := 1); lia.
Qed.

(** On a 64-bit ABI: a service that reports [OK] with no bytes, or with
    more bytes than were sent, gets its status replaced and nothing is
    copied. *)
Lemma descramble_invalid_output_LP64 (env : Environment)
    (self : JDescrambler) (mem : Memory) (key totalLength : Z)
    (subs : list SubSample) (srcPtr : Ptr) (srcOffset : Z) (dstPtr : Ptr)
    (dstOffset : Z) (d : Descrambled) (tr : list Event)
    (bytesWritten : Z) (msg : string) :
  descramble LP64 env self mem key totalLength subs
    srcPtr srcOffset dstPtr dstOffset = Done d ->
  d_trace d = tr ++ [RemoteDescramble (Delivered StatusOK bytesWritten msg)] ->
  0 <= bytesWritten < 2 ^ 32 ->
  bytesWritten = 0 \/ totalLength < bytesWritten ->
  d_result d = Completed ERROR_CAS_UNKNOWN bytesWritten msg /\
  d_memory d = mem.
Proof.
  intros Hd Htr Hb Hbad.
  destruct (descramble_cases _ _ _ _ _ _ _ _ _ _ _ _ Hd)
    as (en & He & [[_ ->] | (reply & _ & Htr' & Hreply)]).
  - cbn [d_trace] in Htr.
    destruct (ensureBufferCapacity_trace LP64 env self
                (to_size_t LP64 totalLength) en He) as [E | E];
      rewrite E in Htr; destruct tr as [|? [|? [|? ?]]]; discriminate Htr.
  - rewrite Htr in Htr'. apply app_inj_tail in Htr'.
    destruct Htr' as [_ Heq]. injection Heq as <-.
    destruct (bytesWritten_valid LP64 bytesWritten totalLength) eqn:Hv.
    + apply bytesWritten_valid_LP64 in Hv; [lia | exact Hb].
    + exact Hreply.
Qed.

(** C4 fails on a 32-bit ABI: with 4 bytes sent and a service that reports
    [OK] with [bytesWritten = 4294967295], the cast [(ssize_t)] makes the
    count -1, the test of line 210 accepts it, and [descramble] goes on to
    copy 4294967295 bytes out of the 64 KiB region instead of replacing the
    status. *)
Theorem descramble_accepts_implausible_count_ILP32 :
  bytesWritten_valid ILP32 4294967295 4 = true
  /\ descramble ILP32 (Scenario.env 4294967295) Scenario.warm Scenario.memory
       0 4 [mkSubSample 4 0] 1%nat 0 2%nat 0
     = Undefined OutOfBoundsMemcpy.
Proof. split; reflexivity. Qed.

(** ** Traces *)

Lemma remote_invoked_app (a b : list Event) :
  remote_invoked (a ++ b) = remote_invoked a || remote_invoked b.
Proof. apply existsb_app. Qed.

Lemma outstanding_app (a b : list Event) (held : list Ptr) :
  outstanding (a ++ b) held = outstanding b (outstanding a held).
Proof.
  revert held. induction a as [|e a IH]; intros held.
  - reflexivity.
  - destruct e; cbn [app outstanding]; apply IH.
Qed.

Lemma outstanding_neutral (tr : list Event) (held : list Ptr) :
  forallb borrow_neutral tr = true -> outstanding tr held = held.
Proof.
  induction tr as [|e tr IH]; intros H.
  - reflexivity.
  - cbn [forallb] in H. apply andb_true_iff in H. destruct H as [He Htr].
    destruct e; try discriminate He; cbn [outstanding]; apply IH; exact Htr.
Qed.

Lemma layout_events_neutral (tr : list Event) :
  forallb layout_event tr = true ->
  forallb borrow_neutral tr = true /\ remote_invoked tr = false.
Proof.
  induction tr as [|e tr IH]; intros H.
  - split; reflexivity.
  - cbn [forallb] in H. apply andb_true_iff in H. destruct H as [He Htr].
    destruct (IH Htr) as [IH1 IH2].
    destruct e; try discriminate He; split; assumption.
Qed.

Lemma fill_loop_reads (p : Platform) (clear enc : option (list Z)) :
  forall (count : nat) (i : Z) (st st' : LoopState),
    forallb layout_event (reads st) = true ->
    fill_loop p clear enc count i st = Some st' ->
    forallb layout_event (reads st') = true.
Proof.
  induction count as [|count IH]; intros i st st' Hst H.
  - injection H as <-. exact Hst.
  - cbn [fill_loop] in H.
    destruct (loop_body p clear enc i st) as [st1|] eqn:Hbody;
      [| discriminate H].
    refine (IH _ _ _ _ H).
    unfold loop_body in Hbody.
    destruct (element clear i); [| discriminate Hbody].
    destruct (element enc i); [| discriminate Hbody].
    injection Hbody as <-. cbn [reads].
    rewrite !forallb_app, Hst.
    destruct clear, enc; reflexivity.
Qed.

Lemma getSubSampleInfo_trace (p : Platform) (env : Environment) (n : Z)
    (clear enc : option (list Z)) (info : SubSampleInfo) :
  getSubSampleInfo p env n clear enc = Done info ->
  forallb layout_event (ss_trace info) = true.
Proof.
  unfold getSubSampleInfo. intros H.
  destruct ((n <=? 0) || (n >=? MAX_COUNT)).
  { injection H as <-. reflexivity. }
  destruct (negb (resize_ok env n)).
  { injection H as <-. cbn [ss_trace]. rewrite !forallb_app.
    destruct clear, enc; reflexivity. }
  destruct (fill_loop p clear enc (Z.to_nat n) 0 (mkLoopState [] 0 []))
    as [st|] eqn:Hloop; [| discriminate H].
  assert (Hreads : forallb layout_event (reads st) = true)
    by (refine (fill_loop_reads p clear enc _ _ _ _ _ Hloop); reflexivity).
  destruct (totalSize st <? 0); injection H as <-; cbn [ss_trace];
    rewrite !forallb_app, Hreads; destruct clear, enc; reflexivity.
Qed.

Lemma getBufferAndSize_trace (byteBuf : ByteBuffer) (offset limit length : Z) :
  remote_invoked (bs_trace (getBufferAndSize byteBuf offset limit length))
  = false.
Proof.
  unfold getBufferAndSize.
  destruct byteBuf as [ptr | [arr|]];
    try destruct (window_rejected offset limit length); reflexivity.
Qed.

Lemma ensureBufferCapacity_quiet (p : Platform) (env : Environment)
    (self : JDescrambler) (n : Z) (en : Ensured) :
  ensureBufferCapacity p env self n = Done en ->
  forallb borrow_neutral (en_trace en) = true
  /\ remote_invoked (en_trace en) = false.
Proof.
  intros He.
  destruct (ensureBufferCapacity_trace p env self n en He) as [E | E];
    rewrite E; split; reflexivity.
Qed.

Lemma descramble_trace_neutral (p : Platform) (env : Environment)
    (self : JDescrambler) (mem : Memory) (key totalLength : Z)
    (subs : list SubSample) (srcPtr : Ptr) (srcOffset : Z) (dstPtr : Ptr)
    (dstOffset : Z) (d : Descrambled) :
  descramble p env self mem key totalLength subs
    srcPtr srcOffset dstPtr dstOffset = Done d ->
  forallb borrow_neutral (d_trace d) = true.
Proof.
  intros H.
  destruct (descramble_cases _ _ _ _ _ _ _ _ _ _ _ _ H)
    as (en & He & Hcases).
  destruct (ensureBufferCapacity_quiet p env self (to_size_t p totalLength)
              en He) as [Hq _].
  destruct Hcases as [[_ ->] | (reply & _ & -> & _)].
  - exact Hq.
  - rewrite forallb_app, Hq. reflexivity.
Qed.

(** What [finish] adds to the trace: the releases, then at most one
    exception. *)
Lemma finish_trace (d : Descrambled) (srcArray dstArray : option Ptr)
    (pre : list Event) :
  exists tail,
    n_trace (finish d srcArray dstArray pre)
    = pre ++ d_trace d ++ release_byte_array srcArray
          ++ release_byte_array dstArray ++ tail
    /\ (tail = [] \/ exists e, tail = [Throw e]).
Proof.
  unfold finish.
  destruct (d_result d) as [| | [| |code] bytesWritten msg]; cbn [n_trace].
  - exists [Throw OutOfMemoryError].
    rewrite <- !app_assoc. split; [reflexivity | right; eauto].
  - exists [Throw RemoteException].
    rewrite <- !app_assoc. split; [reflexivity | right; eauto].
  - exists []. rewrite app_nil_r. split; [reflexivity | left; reflexivity].
  - exists [Throw (ServiceSpecificException ERROR_CAS_UNKNOWN msg)].
    rewrite <- !app_assoc. split; [reflexivity | right; eauto].
  - exists [Throw (ServiceSpecificException (ERROR_CAS code) msg)].
    rewrite <- !app_assoc. split; [reflexivity | right; eauto].
Qed.

(** ** The native entry point *)

Lemma getBufferAndSize_accepted (byteBuf : ByteBuffer)
    (offset limit length : Z) :
  bs_err (getBufferAndSize byteBuf offset limit length) = OK ->
  window_rejected offset limit length = false /\
  exists ptr,
    outPtr (getBufferAndSize byteBuf offset limit length) = Some ptr.
Proof.
  unfold getBufferAndSize.
  destruct byteBuf as [ptr | [arr|]];
    try destruct (window_rejected offset limit length);
    cbn [bs_err outPtr]; intros H; try discriminate H; eauto.
Qed.

Lemma destination_accepted (src : BufferAndSize) (dstBuf : option ByteBuffer)
    (dstOffset dstLimit length : Z) :
  bs_err (destination src dstBuf dstOffset dstLimit length) = OK ->
  bs_err src = OK.
Proof.
  unfold destination.
  destruct (bs_err src); [reflexivity | | | |];
    cbn [bs_err]; intros H; discriminate H.
Qed.

(** The ways the native call returns, for a live session. *)
Lemma native_descramble_cases (p : Platform) (env : Environment)
    (self : JDescrambler) (mem : Memory) (key n : Z)
    (clear enc : option (list Z))
    (srcBuf : ByteBuffer) (srcOffset srcLimit : Z)
    (dstBuf : option ByteBuffer) (dstOffset dstLimit : Z)
    (r : NativeReturn) :
  android_media_MediaDescrambler_native_descramble p env (Some self) mem key n clear enc
    srcBuf srcOffset srcLimit dstBuf dstOffset dstLimit = Done r ->
  exists info src dst,
    getSubSampleInfo p env n clear enc = Done info /\
    src = getBufferAndSize srcBuf srcOffset srcLimit
            (to_size_t p (ss_ret info)) /\
    dst = destination src dstBuf dstOffset dstLimit
            (to_size_t p (ss_ret info)) /\
    ((ss_ret info < 0 /\
      r = mkNativeReturn (Some (-1)) (Some self) mem
            (ss_trace info ++ [Throw IllegalArgumentException]))
     \/
     (0 <= ss_ret info /\ bs_err dst <> OK /\
      r = mkNativeReturn (Some (-1)) (Some self) mem
            ((ss_trace info ++ bs_trace src ++ bs_trace dst)
             ++ [Throw IllegalArgumentException]))
     \/
     (0 <= ss_ret info /\ bs_err src = OK /\ bs_err dst = OK /\
      exists srcPtr dstPtr d,
        outPtr src = Some srcPtr /\ outPtr dst = Some dstPtr /\
        descramble p env self mem key (ss_ret info) (outSubSamples info)
          srcPtr srcOffset dstPtr dstOffset = Done d /\
        r = finish d (outByteArray src) (outByteArray dst)
              (ss_trace info ++ bs_trace src ++ bs_trace dst))).
Proof.
  unfold android_media_MediaDescrambler_native_descramble. intros H.
  destruct (getSubSampleInfo p env n clear enc) as [info|] eqn:Hinfo;
    [| discriminate H].
  exists info. do 2 eexists.
  split; [reflexivity |]. split; [reflexivity |]. split; [reflexivity |].
  cbv zeta in H.
  destruct (Z.ltb_spec (ss_ret info) 0) as [Hneg | Hnonneg].
  { left. injection H as <-. split; [exact Hneg | reflexivity]. }
  right.
  set (src := getBufferAndSize srcBuf srcOffset srcLimit
                (to_size_t p (ss_ret info))) in *.
  set (dst := destination src dstBuf dstOffset dstLimit
                (to_size_t p (ss_ret info))) in *.
  destruct (bs_err dst) eqn:Hdst.
  2-5: left; split; [exact Hnonneg |]; split; [discriminate |];
       injection H as <-; reflexivity.
  right.
  pose proof (destination_accepted _ _ _ _ _ Hdst) as Hsrc.
  destruct (getBufferAndSize_accepted _ _ _ _ Hsrc) as [_ [srcPtr HsrcPtr]].
  fold src in HsrcPtr. rewrite HsrcPtr in H.
  assert (HdstPtr : exists dstPtr, outPtr dst = Some dstPtr).
  { subst dst. unfold destination in *. rewrite Hsrc in *.
    destruct dstBuf as [buf|].
    - destruct (getBufferAndSize_accepted _ _ _ _ Hdst) as [_ Hp]. exact Hp.
    - cbn [outPtr]. eauto. }
  destruct HdstPtr as [dstPtr HdstPtr]. rewrite HdstPtr in H.
  destruct (descramble p env self mem key (ss_ret info) (outSubSamples info)
              srcPtr srcOffset dstPtr dstOffset) as [d|] eqn:Hd;
    [| discriminate H].
  injection H as <-.
  split; [exact Hnonneg |]. split; [exact Hsrc |]. split; [reflexivity |].
  exists srcPtr, dstPtr, d. repeat split; assumption.
Qed.

Lemma destination_trace (src : BufferAndSize) (dstBuf : option ByteBuffer)
    (dstOffset dstLimit length : Z) :
  remote_invoked (bs_trace (destination src dstBuf dstOffset dstLimit length))
  = false.
Proof.
  unfold destination.
  destruct (bs_err src); try reflexivity.
  destruct dstBuf as [buf|]; [apply getBufferAndSize_trace | reflexivity].
Qed.

Lemma release_byte_array_quiet (arr : option Ptr) :
  remote_invoked (release_byte_array arr) = false.
Proof. destruct arr; reflexivity. Qed.



(** The counts the test of line 210 refuses: none, or more than were
    sent. *)
Lemma bytesWritten_invalid_cases (p : Platform) (bytesWritten totalLength : Z) :
  bytesWritten = 0 \/
  (0 <= totalLength < bytesWritten /\ bytesWritten <= SSIZE_MAX p) ->
  bytesWritten_valid p bytesWritten totalLength = false.
Proof.
  intros [-> | H]; unfold bytesWritten_valid.
  - reflexivity.
  - rewrite to_ssize_t_small by lia.
    apply andb_false_iff. right. apply Z.leb_gt. lia.
Qed.



(** ** The window test *)

(** Where neither the narrowing of the length nor the 32-bit sum wraps,
    the test of line 85 is the exact comparison. *)
Lemma window_rejected_exact (offset limit length : Z) :
  0 <= length <= INT32_MAX ->
  INT32_MIN <= length + offset <= INT32_MAX ->
  window_rejected offset limit length = (length + offset >? limit).
Proof.
  unfold INT32_MAX, INT32_MIN. intros Hl Hs. unfold window_rejected, to_jint.
  rewrite (to_signed_small 32 ltac:(lia) length) by (simpl; lia).
  rewrite (to_signed_small 32 ltac:(lia) (length + offset)) by (simpl; lia).
  reflexivity.
Qed.

(** A source window that is out of range is rejected before anything else
    happens, as long as the arithmetic of the test does not wrap. *)
Lemma source_window_rejected_without_wrap (p : Platform) (env : Environment)
    (self : JDescrambler) (mem : Memory) (key n : Z)
    (clear enc : option (list Z))
    (srcBuf : ByteBuffer) (srcOffset srcLimit : Z)
    (dstBuf : option ByteBuffer) (dstOffset dstLimit : Z)
    (info : SubSampleInfo) :
  getSubSampleInfo p env n clear enc = Done info ->
  0 <= ss_ret info <= INT32_MAX ->
  INT32_MIN <= ss_ret info + srcOffset <= INT32_MAX ->
  srcOffset + ss_ret info > srcLimit ->
  exists tr,
    android_media_MediaDescrambler_native_descramble p env (Some self) mem key n clear enc
      srcBuf srcOffset srcLimit dstBuf dstOffset dstLimit
    = Done (mkNativeReturn (Some (-1)) (Some self) mem
              (tr ++ [Throw IllegalArgumentException]))
    /\ remote_invoked tr = false.
Proof.
  intros Hinfo Hlen Hsum Hout.
  pose proof (getSubSampleInfo_trace _ _ _ _ _ _ Hinfo) as Hq.
  apply layout_events_neutral in Hq. destruct Hq as [_ Hq].
  unfold android_media_MediaDescrambler_native_descramble. rewrite Hinfo. cbv zeta.
  replace (ss_ret info <? 0) with false by (symmetry; apply Z.ltb_ge; lia).
  assert (Hsize : to_size_t p (ss_ret info) = ss_ret info).
  { apply to_size_t_small. unfold INT32_MAX, SSIZE_MAX in *.
    destruct p; simpl; lia. }
  rewrite Hsize.
  assert (Hrej : window_rejected srcOffset srcLimit (ss_ret info) = true).
  { rewrite window_rejected_exact by assumption. apply Z.gtb_lt. lia. }
  unfold destination, getBufferAndSize. rewrite Hrej.
  destruct srcBuf as [ptr | [arr|]]; cbn [bs_err outPtr bs_trace];
    eexists; (split; [reflexivity |]);
    rewrite !remote_invoked_app, Hq; reflexivity.
Qed.

(** C1 fails on the code: the test of line 85 narrows the length to [jint]
    and adds in 32 bits.  On a 64-bit ABI two subsamples of
    (2147483647, 1) give [totalLength = 4294967296], which narrows to 0, so
    the window [0 + 4294967296 > 5] is accepted; on either ABI a length of
    2147483647 at offset 1 wraps to a negative sum and is accepted.  Both
    calls go on to [descramble], which copies [totalLength] bytes out of
    the five-byte source. *)
Theorem out_of_range_source_window_accepted :
  (returned (getSubSampleInfo LP64 (Scenario.env 0) 2
               (Some [2147483647; 2147483647]) (Some [1; 1]))
   = Some 4294967296
   /\ 0 + 4294967296 > 5
   /\ bs_err (getBufferAndSize (DirectBuffer 1%nat) 0 5
                (to_size_t LP64 4294967296)) = OK
   /\ android_media_MediaDescrambler_native_descramble LP64 (Scenario.env 0) (Some Scenario.fresh)
        Scenario.memory 0 2 (Some [2147483647; 2147483647]) (Some [1; 1])
        (DirectBuffer 1%nat) 0 5 None 0 5
      = Undefined OutOfBoundsMemcpy)
  /\
  (returned (getSubSampleInfo ILP32 (Scenario.env 0) 1
               (Some [2147483647]) None) = Some 2147483647
   /\ 1 + 2147483647 > 5
   /\ bs_err (getBufferAndSize (DirectBuffer 1%nat) 1 5
                (to_size_t ILP32 2147483647)) = OK
   /\ android_media_MediaDescrambler_native_descramble ILP32 (Scenario.env 0) (Some Scenario.fresh)
        Scenario.memory 0 1 (Some [2147483647]) None
        (DirectBuffer 1%nat) 1 5 None 1 5
      = Undefined OutOfBoundsMemcpy).
Proof. repeat split. Qed.

(** ** Byte-array borrows *)

Lemma outstanding_after_neutral (a b : list Event) (held : list Ptr) :
  forallb borrow_neutral a = true ->
  outstanding (a ++ b) held = outstanding b held.
Proof.
  intros H. rewrite outstanding_app, (outstanding_neutral a held H).
  reflexivity.
Qed.

Lemma remove_first_pair (a b : Ptr) :
  remove_first b (remove_first a [b; a]) = [].
Proof.
  cbn [remove_first]. destruct (Nat.eqb a b) eqn:E.
  - apply Nat.eqb_eq in E. subst b. cbn [remove_first].
    rewrite Nat.eqb_refl. reflexivity.
  - rewrite Nat.eqb_refl. cbn [remove_first]. rewrite Nat.eqb_refl.
    reflexivity.
Qed.

(** Every return of the native call has given back the byte arrays it
    borrowed, except one: with an array-backed source accepted and the
    destination rejected, the source array is still borrowed. *)
Lemma borrows_released_or_source_leaked (p : Platform) (env : Environment)
    (self : JDescrambler) (mem : Memory) (key n : Z)
    (clear enc : option (list Z))
    (srcBuf : ByteBuffer) (srcOffset srcLimit : Z)
    (dstBuf : option ByteBuffer) (dstOffset dstLimit : Z)
    (r : NativeReturn) :
  android_media_MediaDescrambler_native_descramble p env (Some self) mem key n clear enc
    srcBuf srcOffset srcLimit dstBuf dstOffset dstLimit = Done r ->
  outstanding (n_trace r) [] = []
  \/ exists arr,
       srcBuf = HeapBuffer (Some arr)
       /\ outstanding (n_trace r) [] = [arr]
       /\ retval r = Some (-1)
       /\ dstBuf <> None.
Proof.
  intros Hr.
  destruct (native_descramble_cases _ _ _ _ _ _ _ _ _ _ _ _ _ _ _ Hr)
    as (info & src & dst & Hinfo & Hsrc & Hdst & Hcases).
  pose proof (getSubSampleInfo_trace _ _ _ _ _ _ Hinfo) as Hq.
  apply layout_events_neutral in Hq. destruct Hq as [Hq _].
  destruct Hcases as [[_ ->] | [(_ & Herr & ->) | Hcall]].
  - left. cbn [n_trace].
    rewrite outstanding_after_neutral by exact Hq. reflexivity.
  - cbn [n_trace retval]. rewrite <- !app_assoc.
    rewrite outstanding_after_neutral by exact Hq.
    subst dst src. unfold destination, getBufferAndSize in *.
    destruct srcBuf as [ptr | [arr|]];
      try destruct (window_rejected srcOffset srcLimit
                      (to_size_t p (ss_ret info)));
      cbn [bs_err bs_trace outPtr] in *;
      try (left; cbn [app outstanding remove_first];
           rewrite ?Nat.eqb_refl; reflexivity);
      destruct dstBuf as [[ptr' | [arr'|]] |];
      try destruct (window_rejected dstOffset dstLimit
                      (to_size_t p (ss_ret info)));
      cbn [bs_err bs_trace outPtr] in *;
      first
        [ left; cbn [app outstanding remove_first];
          rewrite ?Nat.eqb_refl; reflexivity
        | exfalso; apply Herr; reflexivity
        | right; eexists; repeat split; try discriminate;
          cbn [app outstanding remove_first]; rewrite ?Nat.eqb_refl;
          reflexivity ].
  - left.
    destruct Hcall as (_ & Hsok & Hdok & srcPtr & dstPtr & d & _ & _ & Hd & ->).
    pose proof (descramble_trace_neutral _ _ _ _ _ _ _ _ _ _ _ _ Hd) as Hqd.
    destruct (finish_trace d (outByteArray src) (outByteArray dst)
                (ss_trace info ++ bs_trace src ++ bs_trace dst))
      as (tail & -> & Htail).
    rewrite <- !app_assoc.
    rewrite outstanding_after_neutral by exact Hq.
    rewrite !outstanding_app. rewrite (outstanding_neutral (d_trace d)) by exact Hqd.
    assert (Hneutral : forallb borrow_neutral tail = true)
      by (destruct Htail as [-> | [e ->]]; reflexivity).
    rewrite (outstanding_neutral tail) by exact Hneutral.
    subst dst src. unfold destination, getBufferAndSize in *.
    destruct srcBuf as [ptr | [arr|]];
      try destruct (window_rejected srcOffset srcLimit
                      (to_size_t p (ss_ret info)));
      cbn [bs_err bs_trace outPtr outByteArray] in *;
      try discriminate Hsok;
      destruct dstBuf as [[ptr' | [arr'|]] |];
      try destruct (window_rejected dstOffset dstLimit
                      (to_size_t p (ss_ret info)));
      cbn [bs_err bs_trace outPtr outByteArray] in *;
      try discriminate Hdok;
      cbn [outstanding release_byte_array];
      try apply remove_first_pair;
      cbn [remove_first]; rewrite ?Nat.eqb_refl; reflexivity.
Qed.

(** C5 fails on the code: with an array-backed source whose window is
    accepted and an array-backed destination whose window is rejected, the
    native call throws IllegalArgumentException and returns -1 at line 369
    while the source array obtained with [GetByteArrayElements] has not
    been released. *)
Theorem source_borrow_outlives_rejected_destination :
  exists r,
    android_media_MediaDescrambler_native_descramble LP64 (Scenario.env 4) (Some Scenario.fresh)
      Scenario.memory 0 1 (Some [4]) None
      (HeapBuffer (Some 1%nat)) 0 5
      (Some (HeapBuffer (Some 2%nat))) 3 6 = Done r
    /\ retval r = Some (-1)
    /\ n_trace r
       = [GetIntArrayElements ClearData; ResizeSubSamples 1;
          ReadElement ClearData 0; ReleaseIntArrayElements ClearData;
          GetByteArrayElements 1%nat;
          GetByteArrayElements 2%nat; ReleaseByteArrayElements 2%nat;
          Throw IllegalArgumentException]
    /\ outstanding (n_trace r) [] = [1%nat].
Proof. eexists. repeat split. Qed.

(** ** Further consequences *)

(** At the native entry point: once the layout and both windows are
    accepted, a grow that gets its region and then fails at a tested step
    ends the call with OutOfMemoryError, with no remote call, caller memory
    as before and every byte array released. *)
Lemma native_descramble_out_of_memory (p : Platform) (env : Environment)
    (self : JDescrambler) (mem : Memory) (key n : Z)
    (clear enc : option (list Z))
    (srcBuf : ByteBuffer) (srcOffset srcLimit : Z)
    (dstBuf : option ByteBuffer) (dstOffset dstLimit : Z)
    (info : SubSampleInfo) :
  getSubSampleInfo p env n clear enc = Done info ->
  0 <= ss_ret info ->
  bs_err (destination
            (getBufferAndSize srcBuf srcOffset srcLimit
               (to_size_t p (ss_ret info)))
            dstBuf dstOffset dstLimit (to_size_t p (ss_ret info))) = OK ->
  has_capacity self (to_size_t p (ss_ret info)) = false ->
  allocates p env (to_size_t p (ss_ret info)) ->
  grow_fails p env (to_size_t p (ss_ret info)) ->
  exists r tr,
    android_media_MediaDescrambler_native_descramble p env (Some self) mem key n clear enc
      srcBuf srcOffset srcLimit dstBuf dstOffset dstLimit = Done r
    /\ retval r = None
    /\ n_trace r = tr ++ [Throw OutOfMemoryError]
    /\ remote_invoked tr = false
    /\ n_memory r = mem
    /\ outstanding (n_trace r) [] = [].
Proof.
  intros Hinfo Hlen Hdst Hcap Halloc Hfail.
  pose proof (getSubSampleInfo_trace _ _ _ _ _ _ Hinfo) as Hq.
  apply layout_events_neutral in Hq. destruct Hq as [_ Hq].
  pose proof (destination_accepted _ _ _ _ _ Hdst) as Hsrc.
  destruct (getBufferAndSize_accepted _ _ _ _ Hsrc) as [_ [srcPtr HsrcPtr]].
  set (src := getBufferAndSize srcBuf srcOffset srcLimit
                (to_size_t p (ss_ret info))) in *.
  set (dst := destination src dstBuf dstOffset dstLimit
                (to_size_t p (ss_ret info))) in *.
  assert (HdstPtr : exists dstPtr, outPtr dst = Some dstPtr).
  { subst dst. unfold destination in *. rewrite Hsrc in *.
    destruct dstBuf as [buf|].
    - destruct (getBufferAndSize_accepted _ _ _ _ Hdst) as [_ Hp]. exact Hp.
    - cbn [outPtr]. eauto. }
  destruct HdstPtr as [dstPtr HdstPtr].
  unfold allocates in Halloc.
  destruct (allocate env (grown_size p env (to_size_t p (ss_ret info))))
    as [bytes|] eqn:Hbytes; [clear Halloc | contradiction].
  pose proof (ensureBufferCapacity_grow_fails p env self _ bytes Hcap Hbytes
                Hfail) as He.
  set (en := mkEnsured false _ _) in He.
  assert (Hcall :
    android_media_MediaDescrambler_native_descramble p env (Some self) mem key n clear enc
      srcBuf srcOffset srcLimit dstBuf dstOffset dstLimit
    = Done (finish
              (mkDescrambled NoMemory (en_self en) mem (en_trace en))
              (outByteArray src) (outByteArray dst)
              (ss_trace info ++ bs_trace src ++ bs_trace dst))).
  { unfold android_media_MediaDescrambler_native_descramble. rewrite Hinfo. cbv zeta.
    replace (ss_ret info <? 0) with false by (symmetry; apply Z.ltb_ge; lia).
    fold src. fold dst. rewrite Hdst, HsrcPtr, HdstPtr.
    unfold descramble. rewrite He. reflexivity. }
  eexists. eexists. split; [exact Hcall |].
  destruct (borrows_released_or_source_leaked _ _ _ _ _ _ _ _ _ _ _ _ _ _ _
              Hcall) as [Hnone | (arr & _ & _ & Hret & _)];
    [| discriminate Hret].
  subst en.
  cbn [finish d_result d_trace d_memory d_self en_self en_trace
       retval n_trace n_memory] in *.
  split; [reflexivity |]. split; [reflexivity |].
  split; [| split; [reflexivity | exact Hnone]].
  pose proof (getBufferAndSize_trace srcBuf srcOffset srcLimit
                (to_size_t p (ss_ret info))) as Hqs.
  pose proof (destination_trace src dstBuf dstOffset dstLimit
                (to_size_t p (ss_ret info))) as Hqd.
  fold src in Hqs. fold dst in Hqd.
  rewrite !remote_invoked_app, Hq, Hqs, Hqd, !release_byte_array_quiet.
  reflexivity.
Qed.

Lemma wrapped_terms_bounds (cs es : list Z) :
  0 <= wrapped_terms cs es <= Z.of_nat (List.length cs) * 4294967295.
Proof.
  revert es. induction cs as [|c cs IH]; intros [|e es];
    cbn [wrapped_terms List.length]; try lia.
  specialize (IH es).
  pose proof (to_unsigned_range 32 ltac:(lia)
                (to_uint32 c + to_uint32 e)) as Hterm.
  unfold to_uint32 in *. rewrite Nat2Z.inj_succ.
  change (2 ^ 32) with 4294967296 in Hterm. lia.
Qed.

(** On a 64-bit ABI the accumulator cannot become negative for an accepted
    count: there the test of line 300 never fires, and a negative entry
    comes back as a large total. *)
Lemma final_total_nonneg_LP64 (clear enc : option (list Z)) (n : Z) :
  0 < n < MAX_COUNT ->
  has_length clear (Z.to_nat n) ->
  0 <= final_total LP64 clear enc (Z.to_nat n).
Proof.
  intros Hn Hc. unfold final_total.
  pose proof (wrapped_terms_bounds (lengths clear (Z.to_nat n))
                (lengths enc (Z.to_nat n))) as Hb.
  rewrite length_lengths in Hb by exact Hc.
  rewrite Z2Nat.id in Hb by lia.
  change MAX_COUNT with 268435455 in Hn.
  rewrite to_ssize_t_small; [lia |].
  change (SSIZE_MAX LP64) with 9223372036854775807. lia.
Qed.

(** The end-to-end scenario of the specification: two subsamples
    (4, 0) and (0, 6), ten source bytes at offset 0 with limit 10,
    descrambled in place through a service that echoes its input.  The
    call returns 10, throws nothing, releases nothing it did not borrow,
    and the ten bytes are as they were. *)
Example end_to_end_echo :
  exists r,
    android_media_MediaDescrambler_native_descramble LP64 (Scenario.env 10)
      (Some Scenario.fresh) Scenario.memory 0 2 (Some [4; 0]) (Some [0; 6])
      (DirectBuffer 3%nat) 0 10 None 0 10 = Done r
    /\ retval r = Some 10
    /\ n_memory r 3%nat = Scenario.memory 3%nat
    /\ n_trace r
       = [GetIntArrayElements ClearData; GetIntArrayElements EncryptedData;
          ResizeSubSamples 2;
          ReadElement ClearData 0; ReadElement EncryptedData 0;
          ReadElement ClearData 1; ReadElement EncryptedData 1;
          ReleaseIntArrayElements EncryptedData;
          ReleaseIntArrayElements ClearData;
          NewMemoryDealer 65536; Allocate 65536;
          RemoteDescramble (Delivered StatusOK 10 EmptyString)].
Proof. eexists. repeat split. Qed.

(** * Further properties of the code *)

(** ** What a call throws *)

Lemma thrown_app (a b : list Event) : thrown (a ++ b) = thrown a ++ thrown b.
Proof.
  induction a as [|e a IH]; [reflexivity |].
  destruct e; cbn [app thrown]; rewrite IH; reflexivity.
Qed.

Lemma region_allocated_app (a b : list Event) :
  region_allocated (a ++ b) = region_allocated a || region_allocated b.
Proof. apply existsb_app. Qed.

Lemma remote_calls_app (a b : list Event) :
  remote_calls (a ++ b) = (remote_calls a + remote_calls b)%nat.
Proof. unfold remote_calls. rewrite filter_app, length_app. reflexivity. Qed.

Lemma layout_events_silent (tr : list Event) :
  forallb layout_event tr = true ->
  thrown tr = [] /\ region_allocated tr = false /\ remote_calls tr = 0%nat.
Proof.
  induction tr as [|e tr IH]; intros H.
  - repeat split.
  - cbn [forallb] in H. apply andb_true_iff in H. destruct H as [He Htr].
    destruct (IH Htr) as (IH1 & IH2 & IH3).
    destruct e; try discriminate He; repeat split; assumption.
Qed.

Lemma getBufferAndSize_silent (byteBuf : ByteBuffer)
    (offset limit length : Z) :
  thrown (bs_trace (getBufferAndSize byteBuf offset limit length)) = []
  /\ region_allocated
       (bs_trace (getBufferAndSize byteBuf offset limit length)) = false
  /\ remote_calls
       (bs_trace (getBufferAndSize byteBuf offset limit length)) = 0%nat.
Proof.
  unfold getBufferAndSize.
  destruct byteBuf as [ptr | [arr|]];
    try destruct (window_rejected offset limit length); repeat split.
Qed.

Lemma destination_silent (src : BufferAndSize) (dstBuf : option ByteBuffer)
    (dstOffset dstLimit length : Z) :
  thrown (bs_trace (destination src dstBuf dstOffset dstLimit length)) = []
  /\ region_allocated
       (bs_trace (destination src dstBuf dstOffset dstLimit length)) = false
  /\ remote_calls
       (bs_trace (destination src dstBuf dstOffset dstLimit length)) = 0%nat.
Proof.
  unfold destination.
  destruct (bs_err src); try (repeat split; fail).
  destruct dstBuf as [buf|]; [apply getBufferAndSize_silent | repeat split].
Qed.

Lemma release_byte_array_silent (arr : option Ptr) :
  thrown (release_byte_array arr) = []
  /\ region_allocated (release_byte_array arr) = false
  /\ remote_calls (release_byte_array arr) = 0%nat.
Proof. destruct arr; repeat split. Qed.

Lemma ensureBufferCapacity_silent (p : Platform) (env : Environment)
    (self : JDescrambler) (n : Z) (en : Ensured) :
  ensureBufferCapacity p env self n = Done en ->
  thrown (en_trace en) = [] /\ remote_calls (en_trace en) = 0%nat.
Proof.
  intros He.
  destruct (ensureBufferCapacity_trace p env self n en He) as [E | E];
    rewrite E; split; reflexivity.
Qed.

(** The events before [descramble] is entered. *)
Lemma prelude_silent (p : Platform) (env : Environment) (n : Z)
    (clear enc : option (list Z)) (info : SubSampleInfo)
    (srcBuf : ByteBuffer) (srcOffset srcLimit : Z)
    (dstBuf : option ByteBuffer) (dstOffset dstLimit length : Z) :
  getSubSampleInfo p env n clear enc = Done info ->
  let src := getBufferAndSize srcBuf srcOffset srcLimit length in
  let dst := destination src dstBuf dstOffset dstLimit length in
  let pre := ss_trace info ++ bs_trace src ++ bs_trace dst in
  thrown pre = [] /\ region_allocated pre = false
  /\ remote_calls pre = 0%nat /\ remote_invoked pre = false.
Proof.
  intros Hinfo src dst pre.
  pose proof (getSubSampleInfo_trace _ _ _ _ _ _ Hinfo) as Hq.
  destruct (layout_events_silent _ Hq) as (H1 & H2 & H3).
  apply layout_events_neutral in Hq. destruct Hq as [_ H4].
  destruct (getBufferAndSize_silent srcBuf srcOffset srcLimit length)
    as (S1 & S2 & S3).
  destruct (destination_silent src dstBuf dstOffset dstLimit length)
    as (D1 & D2 & D3).
  pose proof (getBufferAndSize_trace srcBuf srcOffset srcLimit length) as S4.
  pose proof (destination_trace src dstBuf dstOffset dstLimit length) as D4.
  fold src in S1, S2, S3, S4. fold dst in D1, D2, D3, D4.
  unfold pre. rewrite !thrown_app, !region_allocated_app, !remote_calls_app,
    !remote_invoked_app.
  rewrite H1, H2, H3, H4, S1, S2, S3, S4, D1, D2, D3, D4.
  repeat split.
Qed.

Lemma descramble_trace_silent (p : Platform) (env : Environment)
    (self : JDescrambler) (mem : Memory) (key totalLength : Z)
    (subs : list SubSample) (srcPtr : Ptr) (srcOffset : Z) (dstPtr : Ptr)
    (dstOffset : Z) (d : Descrambled) :
  descramble p env self mem key totalLength subs
    srcPtr srcOffset dstPtr dstOffset = Done d ->
  thrown (d_trace d) = [] /\ (remote_calls (d_trace d) <= 1)%nat
  /\ (d_result d = NoMemory <-> remote_calls (d_trace d) = 0%nat).
Proof.
  intros H.
  destruct (descramble_cases _ _ _ _ _ _ _ _ _ _ _ _ H)
    as (en & He & Hways).
  destruct (ensureBufferCapacity_silent p env self (to_size_t p totalLength)
              en He) as [Ht Hc].
  destruct Hways as [[_ ->] | (reply & _ & Htr & Hreply)].
  - cbn [d_trace d_result]. rewrite Ht, Hc. repeat split; lia.
  - rewrite Htr, thrown_app, remote_calls_app, Ht, Hc.
    split; [reflexivity |]. split; [cbn; lia |].
    split; [| cbn; intros E; discriminate E].
    intros Hres. exfalso.
    destruct reply as [| [| |code] bytesWritten msg].
    + destruct Hreply as [E _]. congruence.
    + destruct (bytesWritten_valid p bytesWritten totalLength);
        destruct Hreply as [E _]; congruence.
    + destruct Hreply as [E _]. congruence.
    + destruct Hreply as [E _]. congruence.
Qed.

Lemma no_remote_calls (tr : list Event) :
  remote_calls tr = 0%nat -> filter is_remote_call tr = [].
Proof. unfold remote_calls. apply length_zero_iff_nil. Qed.

Lemma finish_summary (d : Descrambled) (srcArray dstArray : option Ptr)
    (pre : list Event) :
  retval (finish d srcArray dstArray pre) = retval_of (d_result d)
  /\ n_self (finish d srcArray dstArray pre) = Some (d_self d)
  /\ n_memory (finish d srcArray dstArray pre) = d_memory d
  /\ thrown (n_trace (finish d srcArray dstArray pre))
     = thrown pre ++ thrown (d_trace d) ++ exception_of (d_result d)
  /\ filter is_remote_call (n_trace (finish d srcArray dstArray pre))
     = filter is_remote_call pre ++ filter is_remote_call (d_trace d).
Proof.
  destruct (release_byte_array_silent srcArray) as (S1 & _ & S3).
  destruct (release_byte_array_silent dstArray) as (D1 & _ & D3).
  apply no_remote_calls in S3, D3.
  unfold finish.
  destruct (d_result d) as [| | [| |code] bytesWritten msg];
    cbn [retval n_self n_memory n_trace retval_of exception_of];
    rewrite !thrown_app, !filter_app, S1, S3, D1, D3;
    cbn [thrown filter is_remote_call app];
    rewrite ?app_nil_r, <- ?app_assoc; repeat split.
Qed.

(** The two ways the native call returns for a live session: rejected
    before anything is allocated or sent, or through [descramble]. *)
Lemma native_descramble_summary (p : Platform) (env : Environment)
    (self : JDescrambler) (mem : Memory) (key n : Z)
    (clear enc : option (list Z))
    (srcBuf : ByteBuffer) (srcOffset srcLimit : Z)
    (dstBuf : option ByteBuffer) (dstOffset dstLimit : Z)
    (r : NativeReturn) :
  android_media_MediaDescrambler_native_descramble p env (Some self) mem key
    n clear enc srcBuf srcOffset srcLimit dstBuf dstOffset dstLimit = Done r ->
  (thrown (n_trace r) = [IllegalArgumentException]
   /\ retval r = Some (-1) /\ n_self r = Some self /\ n_memory r = mem
   /\ filter is_remote_call (n_trace r) = []
   /\ region_allocated (n_trace r) = false)
  \/
  exists info srcPtr dstPtr d,
    getSubSampleInfo p env n clear enc = Done info
    /\ 0 <= ss_ret info
    /\ descramble p env self mem key (ss_ret info) (outSubSamples info)
         srcPtr srcOffset dstPtr dstOffset = Done d
    /\ retval r = retval_of (d_result d)
    /\ n_self r = Some (d_self d)
    /\ n_memory r = d_memory d
    /\ thrown (n_trace r) = exception_of (d_result d)
    /\ filter is_remote_call (n_trace r)
       = filter is_remote_call (d_trace d).
Proof.
  intros Hr.
  destruct (native_descramble_cases _ _ _ _ _ _ _ _ _ _ _ _ _ _ _ Hr)
    as (info & src & dst & Hinfo & Hsrc & Hdst & Hcases).
  destruct (prelude_silent p env n clear enc info srcBuf srcOffset srcLimit
              dstBuf dstOffset dstLimit (to_size_t p (ss_ret info)) Hinfo)
    as (P1 & P2 & P3 & _).
  rewrite <- Hsrc in P1, P2, P3. rewrite <- Hdst in P1, P2, P3.
  apply no_remote_calls in P3.
  pose proof (getSubSampleInfo_trace _ _ _ _ _ _ Hinfo) as Hq.
  destruct (layout_events_silent _ Hq) as (L1 & L2 & L3).
  apply no_remote_calls in L3.
  destruct Hcases as [[_ ->] | [(_ & _ & ->) | Hcall]].
  - left. cbn [n_trace retval n_self n_memory].
    rewrite thrown_app, filter_app, region_allocated_app, L1, L2, L3.
    repeat split.
  - left. cbn [n_trace retval n_self n_memory].
    rewrite thrown_app, filter_app, region_allocated_app, P1, P2, P3.
    repeat split.
  - right.
    destruct Hcall as (Hlen & _ & _ & srcPtr & dstPtr & d & _ & _ & Hd & ->).
    exists info, srcPtr, dstPtr, d.
    destruct (descramble_trace_silent _ _ _ _ _ _ _ _ _ _ _ _ Hd)
      as (T1 & _ & _).
    destruct (finish_summary d (outByteArray src) (outByteArray dst)
                (ss_trace info ++ bs_trace src ++ bs_trace dst))
      as (F1 & F2 & F3 & F4 & F5).
    rewrite F4, F5, P1, P3, T1.
    repeat split; assumption.
Qed.

(** What [descramble] logs of the service: nothing when the grow failed,
    and otherwise the one reply, which decides the result. *)
Lemma descramble_replies (p : Platform) (env : Environment)
    (self : JDescrambler) (mem : Memory) (key totalLength : Z)
    (subs : list SubSample) (srcPtr : Ptr) (srcOffset : Z) (dstPtr : Ptr)
    (dstOffset : Z) (d : Descrambled) :
  descramble p env self mem key totalLength subs
    srcPtr srcOffset dstPtr dstOffset = Done d ->
  (d_result d = NoMemory /\ d_memory d = mem
   /\ filter is_remote_call (d_trace d) = [])
  \/
  exists reply,
    filter is_remote_call (d_trace d) = [RemoteDescramble reply] /\
    match reply with
    | TransportError => d_result d = FailedTransaction /\ d_memory d = mem
    | Delivered StatusOK bytesWritten msg =>
        if bytesWritten_valid p bytesWritten totalLength then
          d_result d = Completed StatusOK bytesWritten msg /\
          exists data,
            store mem dstPtr dstOffset data = Some (d_memory d) /\
            List.length data = Z.to_nat bytesWritten
        else
          d_result d = Completed ERROR_CAS_UNKNOWN bytesWritten msg /\
          d_memory d = mem
    | Delivered status bytesWritten msg =>
        d_result d = Completed status bytesWritten msg /\ d_memory d = mem
    end.
Proof.
  intros H.
  destruct (descramble_cases _ _ _ _ _ _ _ _ _ _ _ _ H)
    as (en & He & Hways).
  destruct (ensureBufferCapacity_silent p env self (to_size_t p totalLength)
              en He) as [_ Hc].
  apply no_remote_calls in Hc.
  destruct Hways as [[_ ->] | (reply & _ & Htr & Hreply)].
  - left. cbn [d_result d_memory d_trace]. repeat split. exact Hc.
  - right. exists reply. split; [| exact Hreply].
    rewrite Htr, filter_app, Hc. reflexivity.
Qed.

Lemma replies_filter (tr : list Event) :
  replies (filter is_remote_call tr) = replies tr.
Proof.
  induction tr as [|e tr IH]; [reflexivity |].
  destruct e; cbn [filter is_remote_call replies]; rewrite ?IH; reflexivity.
Qed.

(** The native call, told by what the service answered: either it was not
    asked, or it was asked once. *)
Lemma native_descramble_replies (p : Platform) (env : Environment)
    (self : JDescrambler) (mem : Memory) (key n : Z)
    (clear enc : option (list Z))
    (srcBuf : ByteBuffer) (srcOffset srcLimit : Z)
    (dstBuf : option ByteBuffer) (dstOffset dstLimit : Z)
    (r : NativeReturn) :
  android_media_MediaDescrambler_native_descramble p env (Some self) mem key
    n clear enc srcBuf srcOffset srcLimit dstBuf dstOffset dstLimit = Done r ->
  (replies (n_trace r) = [] /\ n_memory r = mem /\
   ((thrown (n_trace r) = [IllegalArgumentException]
     /\ retval r = Some (-1) /\ n_self r = Some self
     /\ region_allocated (n_trace r) = false)
    \/ (thrown (n_trace r) = [OutOfMemoryError] /\ retval r = None)))
  \/
  exists info srcPtr dstPtr d reply,
    getSubSampleInfo p env n clear enc = Done info
    /\ descramble p env self mem key (ss_ret info) (outSubSamples info)
         srcPtr srcOffset dstPtr dstOffset = Done d
    /\ replies (n_trace r) = [reply]
    /\ retval r = retval_of (d_result d)
    /\ n_memory r = d_memory d
    /\ thrown (n_trace r) = exception_of (d_result d)
    /\ match reply with
       | TransportError => d_result d = FailedTransaction /\ d_memory d = mem
       | Delivered StatusOK bytesWritten msg =>
           if bytesWritten_valid p bytesWritten (ss_ret info) then
             d_result d = Completed StatusOK bytesWritten msg /\
             exists data,
               store mem dstPtr dstOffset data = Some (d_memory d) /\
               List.length data = Z.to_nat bytesWritten
           else
             d_result d = Completed ERROR_CAS_UNKNOWN bytesWritten msg /\
             d_memory d = mem
       | Delivered status bytesWritten msg =>
           d_result d = Completed status bytesWritten msg /\ d_memory d = mem
       end.
Proof.
  intros Hr.
  destruct (native_descramble_summary _ _ _ _ _ _ _ _ _ _ _ _ _ _ _ Hr)
    as [(H1 & H2 & H3 & H4 & H5 & H6)
       | (info & srcPtr & dstPtr & d & Hinfo & _ & Hd & R1 & R2 & R3 & R4 & R5)].
  - left. rewrite <- replies_filter, H5. auto 10.
  - destruct (descramble_replies _ _ _ _ _ _ _ _ _ _ _ _ Hd)
      as [(Hres & Hmem & Hnone) | (reply & Hone & Hreply)].
    + left. rewrite <- replies_filter, R5, Hnone, R3, R4, R1, Hres.
      split; [reflexivity |]. split; [exact Hmem |]. right. split; reflexivity.
    + right. exists info, srcPtr, dstPtr, d, reply.
      rewrite <- replies_filter, R5, Hone. repeat split; assumption.
Qed.

(** X2.  One call asks the service at most once and throws at most one
    exception. *)
Theorem at_most_one_call_and_one_exception (p : Platform) (env : Environment)
    (self : JDescrambler) (mem : Memory) (key n : Z)
    (clear enc : option (list Z))
    (srcBuf : ByteBuffer) (srcOffset srcLimit : Z)
    (dstBuf : option ByteBuffer) (dstOffset dstLimit : Z)
    (r : NativeReturn) :
  android_media_MediaDescrambler_native_descramble p env (Some self) mem key
    n clear enc srcBuf srcOffset srcLimit dstBuf dstOffset dstLimit = Done r ->
  (List.length (replies (n_trace r)) <= 1)%nat
  /\ (List.length (thrown (n_trace r)) <= 1)%nat.
Proof.
  intros Hr.
  destruct (native_descramble_replies _ _ _ _ _ _ _ _ _ _ _ _ _ _ _ Hr)
    as [(H1 & _ & [(H3 & _) | (H3 & _)])
       | (info & srcPtr & dstPtr & d & reply & _ & _ & H1 & _ & _ & Hex & _)].
  - rewrite H1, H3. cbn. lia.
  - rewrite H1, H3. cbn. lia.
  - rewrite H1, Hex.
    destruct (d_result d) as [| | [| |code] bytesWritten msg]; cbn; lia.
Qed.

Lemma at_most_one_call_and_one_exception_witness :
  exists r,
    android_media_MediaDescrambler_native_descramble LP64 (Scenario.env 9)
      (Some Scenario.warm) Scenario.memory 0 1 (Some [4]) None
      (DirectBuffer 1%nat) 0 5 None 0 5 = Done r
    /\ (List.length (replies (n_trace r)) <= 1)%nat
    /\ (List.length (thrown (n_trace r)) <= 1)%nat.
Proof.
  eexists. split; [reflexivity |].
  apply (at_most_one_call_and_one_exception LP64 (Scenario.env 9)
           Scenario.warm Scenario.memory 0 1 (Some [4]) None
           (DirectBuffer 1%nat) 0 5 None 0 5).
  reflexivity.
Defined.

(** Once the service has been asked, every byte array the call borrowed
    is given back before it returns. *)
Lemma borrows_released_when_service_asked (p : Platform) (env : Environment)
    (self : JDescrambler) (mem : Memory) (key n : Z)
    (clear enc : option (list Z))
    (srcBuf : ByteBuffer) (srcOffset srcLimit : Z)
    (dstBuf : option ByteBuffer) (dstOffset dstLimit : Z)
    (r : NativeReturn) :
  android_media_MediaDescrambler_native_descramble p env (Some self) mem key
    n clear enc srcBuf srcOffset srcLimit dstBuf dstOffset dstLimit = Done r ->
  replies (n_trace r) <> [] ->
  outstanding (n_trace r) [] = [].
Proof.
  intros Hr Hasked.
  destruct (borrows_released_or_source_leaked _ _ _ _ _ _ _ _ _ _ _ _ _ _ _ Hr)
    as [Hnone | (arr & _ & Hheld & _ & _)]; [exact Hnone |].
  exfalso.
  destruct (native_descramble_cases _ _ _ _ _ _ _ _ _ _ _ _ _ _ _ Hr)
    as (info & src & dst & Hinfo & Hsrc & Hdst & Hcases).
  destruct (prelude_silent p env n clear enc info srcBuf srcOffset srcLimit
              dstBuf dstOffset dstLimit (to_size_t p (ss_ret info)) Hinfo)
    as (_ & _ & P3 & _).
  rewrite <- Hsrc in P3. rewrite <- Hdst in P3. apply no_remote_calls in P3.
  pose proof (getSubSampleInfo_trace _ _ _ _ _ _ Hinfo) as Hq.
  destruct (layout_events_silent _ Hq) as (_ & _ & L3).
  apply no_remote_calls in L3.
  apply layout_events_neutral in Hq. destruct Hq as [Hq _].
  destruct Hcases as [[_ ->] | [(_ & _ & ->) | Hcall]].
  - apply Hasked. cbn [n_trace].
    rewrite <- replies_filter, filter_app, L3. reflexivity.
  - apply Hasked. cbn [n_trace].
    rewrite <- replies_filter, filter_app, P3. reflexivity.
  - destruct Hcall as (_ & Hsok & Hdok & srcPtr & dstPtr & d & _ & _ & Hd & ->).
    pose proof (descramble_trace_neutral _ _ _ _ _ _ _ _ _ _ _ _ Hd) as Hqn.
    destruct (finish_trace d (outByteArray src) (outByteArray dst)
                (ss_trace info ++ bs_trace src ++ bs_trace dst))
      as (tail & Htr & Htail).
    clear - Hheld Htr Htail Hq Hqn Hsok Hdok Hsrc Hdst.
    rewrite Htr in Hheld. rewrite <- !app_assoc in Hheld.
    rewrite outstanding_after_neutral in Hheld by exact Hq.
    rewrite !outstanding_app in Hheld.
    rewrite (outstanding_neutral (d_trace d)) in Hheld by exact Hqn.
    assert (Hneutral : forallb borrow_neutral tail = true)
      by (destruct Htail as [-> | [e ->]]; reflexivity).
    rewrite (outstanding_neutral tail) in Hheld by exact Hneutral.
    subst dst src. unfold destination, getBufferAndSize in *.
    destruct srcBuf as [ptr | [arr0|]];
      try destruct (window_rejected srcOffset srcLimit
                      (to_size_t p (ss_ret info)));
      cbn [bs_err bs_trace outPtr outByteArray] in *;
      try discriminate Hsok;
      destruct dstBuf as [[ptr' | [arr'|]] |];
      try destruct (window_rejected dstOffset dstLimit
                      (to_size_t p (ss_ret info)));
      cbn [bs_err bs_trace outPtr outByteArray] in *;
      try discriminate Hdok;
      cbn [outstanding release_byte_array] in Hheld;
      try rewrite remove_first_pair in Hheld;
      cbn [remove_first] in Hheld; rewrite ?Nat.eqb_refl in Hheld;
      discriminate Hheld.
Qed.

(** X3.  When the transaction with the service fails, the call throws
    RemoteException and nothing else, its return value is the unset
    [bytesWritten], caller memory is as before and every byte array it
    borrowed has been released. *)
Theorem transport_failure_throws_RemoteException (p : Platform)
    (env : Environment) (self : JDescrambler) (mem : Memory) (key n : Z)
    (clear enc : option (list Z))
    (srcBuf : ByteBuffer) (srcOffset srcLimit : Z)
    (dstBuf : option ByteBuffer) (dstOffset dstLimit : Z)
    (r : NativeReturn) :
  android_media_MediaDescrambler_native_descramble p env (Some self) mem key
    n clear enc srcBuf srcOffset srcLimit dstBuf dstOffset dstLimit = Done r ->
  replies (n_trace r) = [TransportError] ->
  thrown (n_trace r) = [RemoteException] /\ retval r = None
  /\ n_memory r = mem /\ outstanding (n_trace r) [] = [].
Proof.
  intros Hr Hreply.
  destruct (native_descramble_replies _ _ _ _ _ _ _ _ _ _ _ _ _ _ _ Hr)
    as [(H1 & _) | (info & srcPtr & dstPtr & d & reply & _ & _ & H1 & Hret
                    & Hmem & Hex & Hcase)].
  - rewrite H1 in Hreply. discriminate Hreply.
  - rewrite H1 in Hreply. injection Hreply as ->.
    destruct Hcase as [Hres Hsame].
    rewrite Hret, Hmem, Hex, Hres, Hsame. cbn [exception_of retval_of].
    repeat split.
    destruct (borrows_released_or_source_leaked _ _ _ _ _ _ _ _ _ _ _ _ _ _ _
                Hr) as [Hnone | (arr & _ & _ & Hneg & _)]; [exact Hnone |].
    rewrite Hret, Hres in Hneg. discriminate Hneg.
Qed.

Lemma transport_failure_throws_RemoteException_witness :
  exists r,
    android_media_MediaDescrambler_native_descramble LP64
      (Scenario.env_replying TransportError)
      (Some Scenario.fresh) Scenario.memory 0 1 (Some [4]) None
      (HeapBuffer (Some 1%nat)) 0 5 (Some (HeapBuffer (Some 2%nat))) 0 6
    = Done r
    /\ thrown (n_trace r) = [RemoteException] /\ retval r = None
    /\ n_memory r = Scenario.memory /\ outstanding (n_trace r) [] = [].
Proof.
  eexists. split; [reflexivity |].
  apply (transport_failure_throws_RemoteException LP64
           (Scenario.env_replying TransportError) Scenario.fresh
           Scenario.memory 0 1 (Some [4]) None
           (HeapBuffer (Some 1%nat)) 0 5 (Some (HeapBuffer (Some 2%nat))) 0 6).
  - reflexivity.
  - reflexivity.
Defined.

(** X4.  When the service answers with a status other than [OK], the call
    throws a ServiceSpecificException carrying that status and the
    service's diagnostic, returns the byte count the service reported, and
    leaves caller memory as before. *)
Theorem service_error_is_thrown_verbatim (p : Platform) (env : Environment)
    (self : JDescrambler) (mem : Memory) (key n : Z)
    (clear enc : option (list Z))
    (srcBuf : ByteBuffer) (srcOffset srcLimit : Z)
    (dstBuf : option ByteBuffer) (dstOffset dstLimit : Z)
    (r : NativeReturn) (status : Status) (bytesWritten : Z) (msg : string) :
  android_media_MediaDescrambler_native_descramble p env (Some self) mem key
    n clear enc srcBuf srcOffset srcLimit dstBuf dstOffset dstLimit = Done r ->
  replies (n_trace r) = [Delivered status bytesWritten msg] ->
  status <> StatusOK ->
  thrown (n_trace r) = [ServiceSpecificException status msg]
  /\ retval r = Some (to_jint bytesWritten)
  /\ n_memory r = mem /\ outstanding (n_trace r) [] = [].
Proof.
  intros Hr Hreply Hst.
  destruct (native_descramble_replies _ _ _ _ _ _ _ _ _ _ _ _ _ _ _ Hr)
    as [(H1 & _) | (info & srcPtr & dstPtr & d & reply & _ & _ & H1 & Hret
                    & Hmem & Hex & Hcase)].
  - rewrite H1 in Hreply. discriminate Hreply.
  - rewrite H1 in Hreply. injection Hreply as ->.
    assert (Hres : d_result d = Completed status bytesWritten msg
                   /\ d_memory d = mem).
    { destruct status; [contradiction | exact Hcase | exact Hcase]. }
    destruct Hres as [Hres Hsame].
    rewrite Hret, Hmem, Hex, Hres, Hsame.
    split; [destruct status; [contradiction | reflexivity | reflexivity] |].
    split; [reflexivity |]. split; [reflexivity |].
    apply (borrows_released_when_service_asked _ _ _ _ _ _ _ _ _ _ _ _ _ _ _
             Hr).
    rewrite H1. discriminate.
Qed.

Lemma service_error_is_thrown_verbatim_witness :
  exists r,
    android_media_MediaDescrambler_native_descramble ILP32
      (Scenario.env_replying (Delivered (ERROR_CAS 3) 0 "no license"))
      (Some Scenario.fresh) Scenario.memory 0 1 (Some [4]) None
      (HeapBuffer (Some 1%nat)) 0 5 None 0 5
    = Done r
    /\ thrown (n_trace r) = [ServiceSpecificException (ERROR_CAS 3) "no license"]
    /\ retval r = Some (to_jint 0)
    /\ n_memory r = Scenario.memory /\ outstanding (n_trace r) [] = [].
Proof.
  eexists. split; [reflexivity |].
  apply (service_error_is_thrown_verbatim ILP32
           (Scenario.env_replying (Delivered (ERROR_CAS 3) 0 "no license"))
           Scenario.fresh Scenario.memory 0 1 (Some [4]) None
           (HeapBuffer (Some 1%nat)) 0 5 None 0 5).
  - reflexivity.
  - reflexivity.
  - discriminate.
Defined.

(** X5.  The call returns without an exception exactly when the service
    was asked, answered [OK], and reported a byte count that the test of
    line 210 accepts; the value returned is then that count. *)
Theorem no_exception_iff_accepted_output (p : Platform) (env : Environment)
    (self : JDescrambler) (mem : Memory) (key n : Z)
    (clear enc : option (list Z))
    (srcBuf : ByteBuffer) (srcOffset srcLimit : Z)
    (dstBuf : option ByteBuffer) (dstOffset dstLimit : Z)
    (r : NativeReturn) (info : SubSampleInfo) :
  android_media_MediaDescrambler_native_descramble p env (Some self) mem key
    n clear enc srcBuf srcOffset srcLimit dstBuf dstOffset dstLimit = Done r ->
  getSubSampleInfo p env n clear enc = Done info ->
  thrown (n_trace r) = [] <->
  exists bytesWritten msg,
    replies (n_trace r) = [Delivered StatusOK bytesWritten msg]
    /\ bytesWritten_valid p bytesWritten (ss_ret info) = true
    /\ retval r = Some (to_jint bytesWritten).
Proof.
  intros Hr Hinfo.
  destruct (native_descramble_replies _ _ _ _ _ _ _ _ _ _ _ _ _ _ _ Hr)
    as [(H1 & _ & [(H3 & _) | (H3 & _)])
       | (info' & srcPtr & dstPtr & d & reply & Hinfo' & _ & H1 & Hret
          & _ & Hex & Hcase)].
  - split.
    + intros E. rewrite H3 in E. discriminate E.
    + intros (bw & msg & E & _). rewrite H1 in E. discriminate E.
  - split.
    + intros E. rewrite H3 in E. discriminate E.
    + intros (bw & msg & E & _). rewrite H1 in E. discriminate E.
  - rewrite Hinfo in Hinfo'. injection Hinfo' as <-.
    rewrite H1, Hret, Hex. split.
    + intros E.
      destruct reply as [| [| |code] bytesWritten msg].
      * destruct Hcase as [Hres _]. rewrite Hres in E. discriminate E.
      * destruct (bytesWritten_valid p bytesWritten (ss_ret info)) eqn:Hv.
        -- destruct Hcase as [Hres _]. rewrite Hres.
           exists bytesWritten, msg. repeat split. exact Hv.
        -- destruct Hcase as [Hres _]. rewrite Hres in E. discriminate E.
      * destruct Hcase as [Hres _]. rewrite Hres in E. discriminate E.
      * destruct Hcase as [Hres _]. rewrite Hres in E. discriminate E.
    + intros (bw & msg & E & Hv & _). injection E as ->.
      rewrite Hv in Hcase. destruct Hcase as [Hres _]. rewrite Hres.
      reflexivity.
Qed.

Lemma no_exception_iff_accepted_output_witness :
  exists r,
    android_media_MediaDescrambler_native_descramble LP64 (Scenario.env 3)
      (Some Scenario.fresh) Scenario.memory 0 1 (Some [4]) None
      (DirectBuffer 1%nat) 0 5 None 0 5 = Done r
    /\ (thrown (n_trace r) = [] <->
        exists bytesWritten msg,
          replies (n_trace r) = [Delivered StatusOK bytesWritten msg]
          /\ bytesWritten_valid LP64 bytesWritten 4 = true
          /\ retval r = Some (to_jint bytesWritten)).
Proof.
  eexists. split; [reflexivity |].
  apply (no_exception_iff_accepted_output LP64 (Scenario.env 3)
           Scenario.fresh Scenario.memory 0 1 (Some [4]) None
           (DirectBuffer 1%nat) 0 5 None 0 5
           _ (mkSubSampleInfo 4 [mkSubSample 4 0]
                [GetIntArrayElements ClearData; ResizeSubSamples 1;
                 ReadElement ClearData 0; ReleaseIntArrayElements ClearData])).
  - reflexivity.
  - reflexivity.
Defined.

(** ** Windows *)

Lemma replies_app (a b : list Event) :
  replies (a ++ b) = replies a ++ replies b.
Proof.
  induction a as [|e a IH]; [reflexivity |].
  destruct e; cbn [app replies]; rewrite IH; reflexivity.
Qed.

(** With the layout accepted and either buffer refused, the call is
    rejected. *)
Lemma native_descramble_rejects (p : Platform) (env : Environment)
    (self : JDescrambler) (mem : Memory) (key n : Z)
    (clear enc : option (list Z))
    (srcBuf : ByteBuffer) (srcOffset srcLimit : Z)
    (dstBuf : option ByteBuffer) (dstOffset dstLimit : Z)
    (info : SubSampleInfo) :
  getSubSampleInfo p env n clear enc = Done info ->
  0 <= ss_ret info ->
  bs_err (destination
            (getBufferAndSize srcBuf srcOffset srcLimit
               (to_size_t p (ss_ret info)))
            dstBuf dstOffset dstLimit (to_size_t p (ss_ret info))) <> OK ->
  exists tr,
    android_media_MediaDescrambler_native_descramble p env (Some self) mem key
      n clear enc srcBuf srcOffset srcLimit dstBuf dstOffset dstLimit
    = Done (mkNativeReturn (Some (-1)) (Some self) mem
              (tr ++ [Throw IllegalArgumentException]))
    /\ thrown tr = [] /\ replies tr = [] /\ region_allocated tr = false.
Proof.
  intros Hinfo Hlen Herr.
  destruct (prelude_silent p env n clear enc info srcBuf srcOffset srcLimit
              dstBuf dstOffset dstLimit (to_size_t p (ss_ret info)) Hinfo)
    as (P1 & P2 & P3 & _).
  apply no_remote_calls in P3.
  eexists. split; [| split; [exact P1 | split; [| exact P2]]].
  - unfold android_media_MediaDescrambler_native_descramble.
    rewrite Hinfo. cbv zeta.
    replace (ss_ret info <? 0) with false by (symmetry; apply Z.ltb_ge; lia).
    destruct (bs_err (destination _ _ _ _ _)) eqn:E;
      [contradiction | reflexivity ..].
  - rewrite <- replies_filter, P3. reflexivity.
Qed.

Lemma window_rejected_when_out_of_range (offset limit length : Z) :
  0 <= length <= INT32_MAX ->
  INT32_MIN <= length + offset <= INT32_MAX ->
  offset + length > limit ->
  window_rejected offset limit length = true.
Proof.
  intros Hl Hs Hout. rewrite window_rejected_exact by assumption.
  apply Z.gtb_lt. lia.
Qed.

Lemma getBufferAndSize_refuses (byteBuf : ByteBuffer)
    (offset limit length : Z) :
  window_rejected offset limit length = true ->
  bs_err (getBufferAndSize byteBuf offset limit length) <> OK.
Proof.
  intros H. unfold getBufferAndSize. rewrite H.
  destruct byteBuf as [ptr | [arr|]]; discriminate.
Qed.

(** X6.  Where the 32-bit arithmetic of the window test does not wrap, a
    source window with [srcOffset + totalLength > srcLimit], or a
    destination window with [dstOffset + totalLength > dstLimit], makes the
    call throw IllegalArgumentException and return -1 with caller memory
    untouched, no region allocated and the service not called. *)
Theorem out_of_range_window_rejected_without_wrap (p : Platform)
    (env : Environment) (self : JDescrambler) (mem : Memory) (key n : Z)
    (clear enc : option (list Z))
    (srcBuf : ByteBuffer) (srcOffset srcLimit : Z)
    (dstBuf : option ByteBuffer) (dstOffset dstLimit : Z)
    (info : SubSampleInfo) :
  getSubSampleInfo p env n clear enc = Done info ->
  0 <= ss_ret info <= INT32_MAX ->
  (INT32_MIN <= ss_ret info + srcOffset <= INT32_MAX
   /\ srcOffset + ss_ret info > srcLimit)
  \/ (dstBuf <> None
      /\ INT32_MIN <= ss_ret info + dstOffset <= INT32_MAX
      /\ dstOffset + ss_ret info > dstLimit) ->
  exists r,
    android_media_MediaDescrambler_native_descramble p env (Some self) mem key
      n clear enc srcBuf srcOffset srcLimit dstBuf dstOffset dstLimit = Done r
    /\ retval r = Some (-1)
    /\ thrown (n_trace r) = [IllegalArgumentException]
    /\ replies (n_trace r) = []
    /\ region_allocated (n_trace r) = false
    /\ n_memory r = mem.
Proof.
  intros Hinfo Hlen Hout.
  assert (Hsize : to_size_t p (ss_ret info) = ss_ret info).
  { apply to_size_t_small. unfold INT32_MAX, SSIZE_MAX in *.
    destruct p; simpl; lia. }
  destruct (native_descramble_rejects p env self mem key n clear enc
              srcBuf srcOffset srcLimit dstBuf dstOffset dstLimit info Hinfo
              ltac:(lia)) as (tr & Hcall & T1 & T2 & T3).
  { rewrite Hsize. destruct Hout as [[Hs Ho] | (Hd & Hs & Ho)].
    - pose proof (getBufferAndSize_refuses srcBuf srcOffset srcLimit
                    (ss_ret info)
                    (window_rejected_when_out_of_range _ _ _ Hlen Hs Ho))
        as Hsrc.
      unfold destination.
      destruct (bs_err (getBufferAndSize srcBuf srcOffset srcLimit
                          (ss_ret info))); [contradiction | discriminate ..].
    - unfold destination.
      destruct (bs_err (getBufferAndSize srcBuf srcOffset srcLimit
                          (ss_ret info))); try discriminate.
      destruct dstBuf as [buf|]; [| contradiction].
      apply getBufferAndSize_refuses.
      apply window_rejected_when_out_of_range; assumption. }
  eexists. split; [exact Hcall |]. cbn [retval n_trace n_memory].
  rewrite thrown_app, T1.
  split; [reflexivity |]. split; [reflexivity |].
  split; [| split; [| reflexivity]].
  - rewrite replies_app, T2. reflexivity.
  - rewrite region_allocated_app, T3. reflexivity.
Qed.

Lemma out_of_range_window_rejected_without_wrap_witness :
  exists r,
    android_media_MediaDescrambler_native_descramble LP64 (Scenario.env 4)
      (Some Scenario.fresh) Scenario.memory 0 1 (Some [4]) None
      (DirectBuffer 1%nat) 0 5 (Some (DirectBuffer 2%nat)) 3 6 = Done r
    /\ retval r = Some (-1)
    /\ thrown (n_trace r) = [IllegalArgumentException]
    /\ replies (n_trace r) = []
    /\ region_allocated (n_trace r) = false
    /\ n_memory r = Scenario.memory.
Proof.
  apply (out_of_range_window_rejected_without_wrap LP64 (Scenario.env 4)
           Scenario.fresh Scenario.memory 0 1 (Some [4]) None
           (DirectBuffer 1%nat) 0 5 (Some (DirectBuffer 2%nat)) 3 6
           (mkSubSampleInfo 4 [mkSubSample 4 0]
              [GetIntArrayElements ClearData; ResizeSubSamples 1;
               ReadElement ClearData 0; ReleaseIntArrayElements ClearData])).
  - reflexivity.
  - evaluate.
  - right. split; [discriminate | evaluate].
Defined.

(** X7.  When [dstBuf] is NULL the destination is the source storage and
    [dstOffset] and [dstLimit] are compared with nothing: with the source
    window accepted and inside its object, a session that has its interface
    and a region of sufficient size, and a service that echoes
    [totalLength > 0] bytes, a [dstOffset] that is negative or leaves fewer
    than [totalLength] bytes in the object is not rejected, and the copy
    back leaves the object. *)
Theorem in_place_destination_offset_unchecked (p : Platform)
    (env : Environment) (self : JDescrambler) (mem : Memory) (key n : Z)
    (clear enc : option (list Z))
    (srcBuf : ByteBuffer) (srcOffset srcLimit dstOffset dstLimit : Z)
    (info : SubSampleInfo) (m : IMemory) (ptr : Ptr) (obj : list byte) :
  getSubSampleInfo p env n clear enc = Done info ->
  0 < ss_ret info <= SSIZE_MAX p ->
  window_rejected srcOffset srcLimit (to_size_t p (ss_ret info)) = false ->
  address srcBuf = Some ptr ->
  mem ptr = Some obj ->
  0 <= srcOffset ->
  srcOffset + ss_ret info <= Z.of_nat (List.length obj) ->
  mDescrambler self <> None ->
  mMem self = Some m -> ss_ret info <= mem_size m ->
  echoes env (ss_ret info) ->
  dstOffset < 0 \/ dstOffset + ss_ret info > Z.of_nat (List.length obj) ->
  android_media_MediaDescrambler_native_descramble p env (Some self) mem key
    n clear enc srcBuf srcOffset srcLimit None dstOffset dstLimit
  = Undefined OutOfBoundsMemcpy.
Proof.
  intros Hinfo Hlen Hacc Haddr Hobj Hso Hsfit Hiface Hm Hcap Hecho Hbad.
  unfold android_media_MediaDescrambler_native_descramble.
  rewrite Hinfo. cbv zeta.
  replace (ss_ret info <? 0) with false by (symmetry; apply Z.ltb_ge; lia).
  assert (Hsrc : getBufferAndSize srcBuf srcOffset srcLimit
                   (to_size_t p (ss_ret info))
                 = mkBufferAndSize OK (Some ptr)
                     (outByteArray (getBufferAndSize srcBuf srcOffset srcLimit
                                      (to_size_t p (ss_ret info))))
                     (bs_trace (getBufferAndSize srcBuf srcOffset srcLimit
                                  (to_size_t p (ss_ret info))))).
  { unfold getBufferAndSize. rewrite Hacc.
    destruct srcBuf as [q | [arr|]]; cbn [address] in Haddr;
      try discriminate Haddr; injection Haddr as ->; reflexivity. }
  rewrite Hsrc. unfold destination. cbn [bs_err outPtr].
  unfold descramble.
  rewrite (to_size_t_small p (ss_ret info)) by lia.
  rewrite (ensureBufferCapacity_no_op p env self (ss_ret info))
    by (exact (has_capacity_true self _ m Hm Hcap)).
  cbn [en_ok negb en_self en_trace]. rewrite Hm.
  rewrite (load_in_bounds mem ptr obj srcOffset (ss_ret info))
    by (assumption || lia).
  replace (ss_ret info >? mem_size m) with false
    by (symmetry; rewrite Z.gtb_ltb; apply Z.ltb_ge; lia).
  destruct (mDescrambler self) as [iface|]; [| contradiction].
  match goal with
  | |- context [remote_descramble env ?r ?b] =>
      destruct (Hecho r b) as (msg & bytes' & Hreply & _); rewrite Hreply
  end.
  rewrite bytesWritten_valid_echo by lia.
  replace (ss_ret info >? mem_size m) with false
    by (symmetry; rewrite Z.gtb_ltb; apply Z.ltb_ge; lia).
  assert (Hstore : store mem ptr dstOffset (region_read bytes' (ss_ret info))
                   = None).
  { unfold store. rewrite Hobj. cbv zeta.
    unfold region_read. rewrite length_map, length_seq.
    rewrite Z2Nat.id by lia.
    destruct Hbad as [Hneg | Hover].
    - replace (0 <=? dstOffset) with false
        by (symmetry; apply Z.leb_gt; lia).
      reflexivity.
    - replace (dstOffset + ss_ret info <=? Z.of_nat (List.length obj))
        with false by (symmetry; apply Z.leb_gt; lia).
      rewrite andb_false_r. reflexivity. }
  rewrite Hstore. reflexivity.
Qed.

Lemma in_place_destination_offset_unchecked_witness :
  android_media_MediaDescrambler_native_descramble LP64 (Scenario.env 4)
    (Some Scenario.warm) Scenario.memory 0 1 (Some [4]) None
    (DirectBuffer 1%nat) 0 5 None 3 5
  = Undefined OutOfBoundsMemcpy.
Proof.
  apply (in_place_destination_offset_unchecked LP64 (Scenario.env 4)
           Scenario.warm Scenario.memory 0 1 (Some [4]) None
           (DirectBuffer 1%nat) 0 5 3 5
           (mkSubSampleInfo 4 [mkSubSample 4 0]
              [GetIntArrayElements ClearData; ResizeSubSamples 1;
               ReadElement ClearData 0; ReleaseIntArrayElements ClearData])
           (mkIMemory 65536 (fun _ => x00)) 1%nat
           [x01; x02; x03; x04; x05]).
  - reflexivity.
  - evaluate.
  - reflexivity.
  - reflexivity.
  - reflexivity.
  - evaluate.
  - evaluate.
  - discriminate.
  - reflexivity.
  - evaluate.
  - intros req bytes. exists EmptyString, bytes. split; reflexivity.
  - right. evaluate.
Defined.

(** ** More on the subsample layout *)

(** X8.  On a 64-bit ABI the test of line 300 never fires: for an accepted
    count and arrays of that many entries the call returns the plain sum of
    the 32-bit terms, which is not negative, so an entry below zero is not
    refused but counted as [2 ^ 32] more. *)
Theorem getSubSampleInfo_never_refuses_total_LP64 (env : Environment)
    (n : Z) (clear enc : option (list Z)) :
  0 < n < MAX_COUNT ->
  resize_ok env n = true ->
  has_length clear (Z.to_nat n) -> has_length enc (Z.to_nat n) ->
  exists subs tr,
    getSubSampleInfo LP64 env n clear enc
    = Done (mkSubSampleInfo
              (wrapped_terms (lengths clear (Z.to_nat n))
                             (lengths enc (Z.to_nat n)))
              subs tr)
    /\ 0 <= wrapped_terms (lengths clear (Z.to_nat n))
                          (lengths enc (Z.to_nat n)).
Proof.
  intros Hn Hr Hc He.
  destruct (getSubSampleInfo_closed_form LP64 env n clear enc Hn Hr Hc He)
    as [tr Htr].
  pose proof (final_total_nonneg_LP64 clear enc n Hn Hc) as Hnn.
  pose proof (wrapped_terms_bounds (lengths clear (Z.to_nat n))
                (lengths enc (Z.to_nat n))) as Hb.
  rewrite length_lengths in Hb by exact Hc.
  rewrite Z2Nat.id in Hb by lia.
  assert (Hft : final_total LP64 clear enc (Z.to_nat n)
                = wrapped_terms (lengths clear (Z.to_nat n))
                                (lengths enc (Z.to_nat n))).
  { unfold final_total. apply to_ssize_t_small.
    change MAX_COUNT with 268435455 in Hn.
    change (SSIZE_MAX LP64) with 9223372036854775807. lia. }
  replace (final_total LP64 clear enc (Z.to_nat n) <? 0) with false in Htr
    by (symmetry; apply Z.ltb_ge; exact Hnn).
  rewrite Hft in Htr.
  eexists. exists tr. split; [exact Htr | lia].
Qed.

Lemma getSubSampleInfo_never_refuses_total_LP64_witness :
  exists subs tr,
    getSubSampleInfo LP64 (Scenario.env 0) 2 (Some [-1; 7]) None
    = Done (mkSubSampleInfo 4294967302 subs tr)
    /\ 0 <= 4294967302.
Proof.
  apply (getSubSampleInfo_never_refuses_total_LP64 (Scenario.env 0) 2
           (Some [-1; 7]) None).
  - evaluate.
  - reflexivity.
  - reflexivity.
  - exact I.
Defined.

Lemma to_signed_32_of_mod (x : Z) :
  to_signed 32 x
  = if x mod 2 ^ 32 <? 2 ^ 31 then x mod 2 ^ 32 else x mod 2 ^ 32 - 2 ^ 32.
Proof.
  unfold to_signed. change (32 - 1) with 31.
  pose proof (Z.mod_pos_bound x (2 ^ 32) ltac:(lia)) as Hy.
  rewrite <- Zplus_mod_idemp_l.
  destruct (Z.ltb_spec (x mod 2 ^ 32) (2 ^ 31)) as [Hlow | Hhigh].
  - rewrite Z.mod_small by lia. lia.
  - replace ((x mod 2 ^ 32 + 2 ^ 31) mod 2 ^ 32)
      with (x mod 2 ^ 32 + 2 ^ 31 - 2 ^ 32); [lia |].
    apply Zmod_unique with (q := 1); lia.
Qed.

(** X9.  On a 32-bit ABI, for an accepted count and arrays of that many
    non-negative lengths, the call looks only at the exact sum modulo
    [2 ^ 32]: it returns -1 when that residue is [2 ^ 31] or more, and the
    residue otherwise, which differs from the exact sum as soon as the sum
    reaches [2 ^ 32]. *)
Theorem getSubSampleInfo_total_modulo_ILP32 (env : Environment)
    (n : Z) (clear enc : option (list Z)) :
  0 < n < MAX_COUNT ->
  resize_ok env n = true ->
  has_length clear (Z.to_nat n) -> has_length enc (Z.to_nat n) ->
  all_lengths clear -> all_lengths enc ->
  returned (getSubSampleInfo ILP32 env n clear enc)
  = Some (if exact_total clear enc (Z.to_nat n) mod 2 ^ 32 <? 2 ^ 31
          then exact_total clear enc (Z.to_nat n) mod 2 ^ 32
          else -1).
Proof.
  intros Hn Hr Hc He Ac Ae.
  destruct (getSubSampleInfo_closed_form ILP32 env n clear enc Hn Hr Hc He)
    as [tr Htr].
  rewrite Htr. cbn [returned ss_ret]. f_equal.
  unfold final_total.
  rewrite wrapped_terms_exact
    by (try apply all_lengths_lengths; try assumption;
        rewrite !length_lengths by assumption; reflexivity).
  fold (exact_total clear enc (Z.to_nat n)).
  unfold to_ssize_t. cbn [size_bits]. rewrite to_signed_32_of_mod.
  pose proof (Z.mod_pos_bound (exact_total clear enc (Z.to_nat n)) (2 ^ 32)
                ltac:(lia)) as Hy.
  destruct (Z.ltb_spec (exact_total clear enc (Z.to_nat n) mod 2 ^ 32)
              (2 ^ 31)) as [Hlow | Hhigh].
  - replace (exact_total clear enc (Z.to_nat n) mod 2 ^ 32 <? 0) with false
      by (symmetry; apply Z.ltb_ge; lia).
    reflexivity.
  - replace (exact_total clear enc (Z.to_nat n) mod 2 ^ 32 - 2 ^ 32 <? 0)
      with true by (symmetry; apply Z.ltb_lt; lia).
    reflexivity.
Qed.

Lemma getSubSampleInfo_total_modulo_ILP32_witness :
  returned (getSubSampleInfo ILP32 (Scenario.env 0) 3
              (Some [2147483647; 2147483647; 5]) (Some [1; 1; 0]))
  = Some 5.
Proof.
  apply (getSubSampleInfo_total_modulo_ILP32 (Scenario.env 0) 3
           (Some [2147483647; 2147483647; 5]) (Some [1; 1; 0])).
  - evaluate.
  - reflexivity.
  - reflexivity.
  - reflexivity.
  - repeat constructor; evaluate.
  - repeat constructor; evaluate.
Defined.

Lemma fill_loop_out_of_bounds (p : Platform) (clear enc : option (list Z))
    (j : Z) :
  element clear j = None \/ element enc j = None ->
  forall (count : nat) (i : Z) (st : LoopState),
    i <= j < i + Z.of_nat count ->
    fill_loop p clear enc count i st = None.
Proof.
  intros Hj. induction count as [|count IH]; intros i st Hi.
  - lia.
  - cbn [fill_loop].
    destruct (loop_body p clear enc i st) as [st'|] eqn:Hbody;
      [| reflexivity].
    destruct (Z.eq_dec i j) as [-> | Hne].
    + unfold loop_body in Hbody.
      destruct Hj as [Hj | Hj]; rewrite Hj in Hbody;
        [| destruct (element clear j)]; discriminate Hbody.
    + apply IH. lia.
Qed.

(** X10.  The count is never compared with the lengths of the arrays: for
    an accepted count, an array that is present with fewer entries than
    [numSubSamples] is read past its end. *)
Theorem getSubSampleInfo_reads_past_short_array (p : Platform)
    (env : Environment) (n : Z) (clear enc : option (list Z))
    (l : list Z) :
  0 < n < MAX_COUNT ->
  resize_ok env n = true ->
  clear = Some l \/ enc = Some l ->
  Z.of_nat (List.length l) < n ->
  getSubSampleInfo p env n clear enc = Undefined OutOfBoundsRead.
Proof.
  intros Hn Hr Hl Hshort. unfold getSubSampleInfo.
  rewrite (count_accepted n Hn), Hr. cbn [negb].
  rewrite (fill_loop_out_of_bounds p clear enc (Z.of_nat (List.length l)));
    [reflexivity | | lia].
  assert (Hnone : nth_error l (Z.to_nat (Z.of_nat (List.length l))) = None)
    by (apply nth_error_None; lia).
  destruct Hl as [-> | ->]; [left | right]; exact Hnone.
Qed.

Lemma getSubSampleInfo_reads_past_short_array_witness :
  getSubSampleInfo LP64 (Scenario.env 0) 3 (Some [4; 0; 1]) (Some [0; 6])
  = Undefined OutOfBoundsRead.
Proof.
  apply (getSubSampleInfo_reads_past_short_array LP64 (Scenario.env 0) 3
           (Some [4; 0; 1]) (Some [0; 6]) [0; 6]).
  - evaluate.
  - reflexivity.
  - right. reflexivity.
  - evaluate.
Defined.

Lemma int_arrays_held_app (a b : list Event) (held : list IntArray) :
  int_arrays_held (a ++ b) held = int_arrays_held b (int_arrays_held a held).
Proof.
  revert held. induction a as [|e a IH]; intros held.
  - reflexivity.
  - destruct e; cbn [app int_arrays_held]; apply IH.
Qed.

Lemma int_arrays_held_reads (tr : list Event) (held : list IntArray) :
  forallb is_element_read tr = true -> int_arrays_held tr held = held.
Proof.
  induction tr as [|e tr IH]; intros H.
  - reflexivity.
  - cbn [forallb] in H. apply andb_true_iff in H. destruct H as [He Htr].
    destruct e; try discriminate He. cbn [int_arrays_held]. exact (IH Htr).
Qed.

Lemma fill_loop_reads_only (p : Platform) (clear enc : option (list Z)) :
  forall (count : nat) (i : Z) (st st' : LoopState),
    forallb is_element_read (reads st) = true ->
    fill_loop p clear enc count i st = Some st' ->
    forallb is_element_read (reads st') = true.
Proof.
  induction count as [|count IH]; intros i st st' Hst H.
  - injection H as <-. exact Hst.
  - cbn [fill_loop] in H.
    destruct (loop_body p clear enc i st) as [st1|] eqn:Hbody;
      [| discriminate H].
    refine (IH _ _ _ _ H).
    unfold loop_body in Hbody.
    destruct (element clear i); [| discriminate Hbody].
    destruct (element enc i); [| discriminate Hbody].
    injection Hbody as <-. cbn [reads].
    rewrite !forallb_app, Hst.
    destruct clear, enc; reflexivity.
Qed.

(** X11.  [getSubSampleInfo] gives back every int array it obtained
    whenever it returns after the loop, and obtains none for a refused
    count; but when the batch cannot be allocated it returns -1 at line 273
    with the arrays it obtained still held. *)
Theorem getSubSampleInfo_int_array_borrows (p : Platform) (env : Environment)
    (n : Z) (clear enc : option (list Z)) (info : SubSampleInfo) :
  getSubSampleInfo p env n clear enc = Done info ->
  (n <= 0 \/ n >= MAX_COUNT \/ resize_ok env n = true ->
   int_arrays_held (ss_trace info) [] = [])
  /\
  (0 < n < MAX_COUNT -> resize_ok env n = false ->
   ss_ret info = -1 /\
   int_arrays_held (ss_trace info) []
   = int_arrays_held
       (get_event ClearData clear ++ get_event EncryptedData enc) []).
Proof.
  unfold getSubSampleInfo. intros H.
  destruct ((n <=? 0) || (n >=? MAX_COUNT)) eqn:Hcount.
  { injection H as <-. cbn [ss_trace ss_ret]. split; [reflexivity |].
    intros Hn _. rewrite (count_accepted n Hn) in Hcount.
    discriminate Hcount. }
  apply orb_false_iff in Hcount. destruct Hcount as [Hpos Hmax].
  apply Z.leb_gt in Hpos. rewrite Z.geb_leb in Hmax. apply Z.leb_gt in Hmax.
  destruct (resize_ok env n) eqn:Hr; cbn [negb] in H.
  - destruct (fill_loop p clear enc (Z.to_nat n) 0 (mkLoopState [] 0 []))
      as [st|] eqn:Hloop; [| discriminate H].
    assert (Hreads : forallb is_element_read (reads st) = true)
      by (refine (fill_loop_reads_only p clear enc _ _ _ _ _ Hloop);
          reflexivity).
    split; [| intros _ E; discriminate E].
    intros _.
    destruct (totalSize st <? 0); injection H as <-; cbn [ss_trace];
      rewrite !int_arrays_held_app;
      rewrite (int_arrays_held_reads (reads st)) by exact Hreads;
      destruct clear, enc; reflexivity.
  - injection H as <-. cbn [ss_trace ss_ret]. split.
    + intros [Hn | [Hn | Hn]]; [lia | lia | discriminate Hn].
    + intros _ _. split; [reflexivity |].
      rewrite app_assoc, int_arrays_held_app. reflexivity.
Qed.

Lemma getSubSampleInfo_int_array_borrows_witness :
  (2 <= 0 \/ 2 >= MAX_COUNT \/ resize_ok (Scenario.env 0) 2 = true ->
   int_arrays_held
     [GetIntArrayElements ClearData; GetIntArrayElements EncryptedData;
      ResizeSubSamples 2;
      ReadElement ClearData 0; ReadElement EncryptedData 0;
      ReadElement ClearData 1; ReadElement EncryptedData 1;
      ReleaseIntArrayElements EncryptedData;
      ReleaseIntArrayElements ClearData] [] = [])
  /\
  (0 < 2 < MAX_COUNT -> resize_ok (Scenario.env 0) 2 = false ->
   10 = -1 /\
   int_arrays_held
     [GetIntArrayElements ClearData; GetIntArrayElements EncryptedData;
      ResizeSubSamples 2;
      ReadElement ClearData 0; ReadElement EncryptedData 0;
      ReadElement ClearData 1; ReadElement EncryptedData 1;
      ReleaseIntArrayElements EncryptedData;
      ReleaseIntArrayElements ClearData] []
   = int_arrays_held
       (get_event ClearData (Some [4; 0])
        ++ get_event EncryptedData (Some [0; 6])) []).
Proof.
  apply (getSubSampleInfo_int_array_borrows LP64 (Scenario.env 0) 2
           (Some [4; 0]) (Some [0; 6])
           (mkSubSampleInfo 10 [mkSubSample 4 0; mkSubSample 0 6]
              [GetIntArrayElements ClearData;
               GetIntArrayElements EncryptedData; ResizeSubSamples 2;
               ReadElement ClearData 0; ReadElement EncryptedData 0;
               ReadElement ClearData 1; ReadElement EncryptedData 1;
               ReleaseIntArrayElements EncryptedData;
               ReleaseIntArrayElements ClearData])).
  reflexivity.
Defined.

(** ** More on one call *)

Lemma replies_nil (tr : list Event) :
  remote_invoked tr = false -> replies tr = [].
Proof.
  induction tr as [|e tr IH]; [reflexivity |].
  destruct e; cbn [remote_invoked existsb is_remote_call replies orb];
    try exact IH.
  intros H. discriminate H.
Qed.

(** X12.  Every return of the native call has released the byte arrays it
    borrowed, with one exception: when an array-backed source has been
    accepted and the destination buffer is then refused, the call returns
    -1 without having asked the service and with the source array still
    borrowed. *)
Theorem byte_array_borrows_at_return (p : Platform) (env : Environment)
    (self : JDescrambler) (mem : Memory) (key n : Z)
    (clear enc : option (list Z))
    (srcBuf : ByteBuffer) (srcOffset srcLimit : Z)
    (dstBuf : option ByteBuffer) (dstOffset dstLimit : Z)
    (r : NativeReturn) :
  android_media_MediaDescrambler_native_descramble p env (Some self) mem key
    n clear enc srcBuf srcOffset srcLimit dstBuf dstOffset dstLimit = Done r ->
  outstanding (n_trace r) [] = []
  \/ exists arr,
       srcBuf = HeapBuffer (Some arr)
       /\ dstBuf <> None
       /\ outstanding (n_trace r) [] = [arr]
       /\ retval r = Some (-1)
       /\ replies (n_trace r) = [].
Proof.
  intros Hr.
  destruct (borrows_released_or_source_leaked _ _ _ _ _ _ _ _ _ _ _ _ _ _ _ Hr)
    as [Hnone | (arr & Hsrc & Hheld & Hret & Hdst)]; [left; exact Hnone |].
  right. exists arr. repeat split; try assumption.
  destruct (replies (n_trace r)) as [|reply rest] eqn:E; [reflexivity |].
  rewrite (borrows_released_when_service_asked _ _ _ _ _ _ _ _ _ _ _ _ _ _ _
             Hr) in Hheld; [discriminate Hheld |].
  rewrite E. discriminate.
Qed.

Lemma byte_array_borrows_at_return_witness :
  exists r,
    android_media_MediaDescrambler_native_descramble LP64 (Scenario.env 4)
      (Some Scenario.fresh) Scenario.memory 0 1 (Some [4]) None
      (HeapBuffer (Some 1%nat)) 0 5 (Some (HeapBuffer (Some 1%nat))) 1 5
    = Done r
    /\ (outstanding (n_trace r) [] = []
        \/ exists arr,
             HeapBuffer (Some 1%nat) = HeapBuffer (Some arr)
             /\ Some (HeapBuffer (Some 1%nat)) <> None
             /\ outstanding (n_trace r) [] = [arr]
             /\ retval r = Some (-1)
             /\ replies (n_trace r) = []).
Proof.
  eexists. split; [reflexivity |].
  apply (byte_array_borrows_at_return LP64 (Scenario.env 4) Scenario.fresh
           Scenario.memory 0 1 (Some [4]) None
           (HeapBuffer (Some 1%nat)) 0 5 (Some (HeapBuffer (Some 1%nat))) 1 5).
  reflexivity.
Defined.

Lemma getSubSampleInfo_held (p : Platform) (env : Environment)
    (n : Z) (clear enc : option (list Z)) (info : SubSampleInfo) :
  getSubSampleInfo p env n clear enc = Done info ->
  int_arrays_held (ss_trace info) [] = []
  \/ (0 < n < MAX_COUNT /\ resize_ok env n = false /\ ss_ret info = -1
      /\ int_arrays_held (ss_trace info) []
         = int_arrays_held
             (get_event ClearData clear ++ get_event EncryptedData enc) []).
Proof.
  unfold getSubSampleInfo. intros H.
  destruct ((n <=? 0) || (n >=? MAX_COUNT)) eqn:Hcount.
  { injection H as <-. left. reflexivity. }
  apply orb_false_iff in Hcount. destruct Hcount as [Hpos Hmax].
  apply Z.leb_gt in Hpos. rewrite Z.geb_leb in Hmax. apply Z.leb_gt in Hmax.
  destruct (resize_ok env n) eqn:Hr; cbn [negb] in H.
  - left.
    destruct (fill_loop p clear enc (Z.to_nat n) 0 (mkLoopState [] 0 []))
      as [st|] eqn:Hloop; [| discriminate H].
    assert (Hreads : forallb is_element_read (reads st) = true)
      by (refine (fill_loop_reads_only p clear enc _ _ _ _ _ Hloop);
          reflexivity).
    destruct (totalSize st <? 0); injection H as <-; cbn [ss_trace];
      rewrite !int_arrays_held_app;
      rewrite (int_arrays_held_reads (reads st)) by exact Hreads;
      destruct clear, enc; reflexivity.
  - right. injection H as <-. cbn [ss_trace ss_ret].
    split; [lia |]. split; [reflexivity |]. split; [reflexivity |].
    rewrite app_assoc, int_arrays_held_app. reflexivity.
Qed.

Lemma getBufferAndSize_holds_no_int_array (byteBuf : ByteBuffer)
    (offset limit length : Z) (held : list IntArray) :
  int_arrays_held (bs_trace (getBufferAndSize byteBuf offset limit length))
    held = held.
Proof.
  unfold getBufferAndSize.
  destruct byteBuf as [ptr | [arr|]];
    try destruct (window_rejected offset limit length); reflexivity.
Qed.

Lemma destination_holds_no_int_array (src : BufferAndSize)
    (dstBuf : option ByteBuffer) (dstOffset dstLimit length : Z)
    (held : list IntArray) :
  int_arrays_held
    (bs_trace (destination src dstBuf dstOffset dstLimit length)) held = held.
Proof.
  unfold destination.
  destruct (bs_err src); try reflexivity.
  destruct dstBuf as [buf|];
    [apply getBufferAndSize_holds_no_int_array | reflexivity].
Qed.

(** X1.  A call that throws IllegalArgumentException returns -1 and has
    changed nothing of the session or of caller memory, allocated no
    region and not called the service.  What it can leave behind is a
    borrow.  Either every array it obtained has been given back; or the
    batch could not be allocated and the int arrays it obtained are still
    held (line 273); or the source, backed by a byte array, was accepted
    and the destination buffer refused, and that source array is still
    borrowed (line 369). *)
Theorem rejection_leaves_only_borrows (p : Platform) (env : Environment)
    (self : JDescrambler) (mem : Memory) (key n : Z)
    (clear enc : option (list Z))
    (srcBuf : ByteBuffer) (srcOffset srcLimit : Z)
    (dstBuf : option ByteBuffer) (dstOffset dstLimit : Z)
    (r : NativeReturn) :
  android_media_MediaDescrambler_native_descramble p env (Some self) mem key
    n clear enc srcBuf srcOffset srcLimit dstBuf dstOffset dstLimit = Done r ->
  In IllegalArgumentException (thrown (n_trace r)) ->
  retval r = Some (-1) /\ n_self r = Some self /\ n_memory r = mem
  /\ replies (n_trace r) = [] /\ region_allocated (n_trace r) = false
  /\ ((int_arrays_held (n_trace r) [] = []
       /\ outstanding (n_trace r) [] = [])
      \/ (0 < n < MAX_COUNT /\ resize_ok env n = false
          /\ int_arrays_held (n_trace r) []
             = int_arrays_held
                 (get_event ClearData clear ++ get_event EncryptedData enc) []
          /\ outstanding (n_trace r) [] = [])
      \/ (exists arr,
            srcBuf = HeapBuffer (Some arr) /\ dstBuf <> None
            /\ int_arrays_held (n_trace r) [] = []
            /\ outstanding (n_trace r) [] = [arr])).
Proof.
  intros Hr Hin.
  assert (Hfirst : retval r = Some (-1) /\ n_self r = Some self
                   /\ n_memory r = mem /\ replies (n_trace r) = []
                   /\ region_allocated (n_trace r) = false).
  { destruct (native_descramble_replies _ _ _ _ _ _ _ _ _ _ _ _ _ _ _ Hr)
      as [(H1 & H2 & [(H3 & H4 & H5 & H6) | (H3 & _)])
         | (info & srcPtr & dstPtr & d & reply & _ & _ & _ & _ & _ & Hex & _)].
    - auto.
    - rewrite H3 in Hin. destruct Hin as [E | []]. discriminate E.
    - rewrite Hex in Hin.
      destruct (d_result d) as [| | [| |code] bytesWritten msg];
        cbn [exception_of] in Hin;
        try (destruct Hin as [E | []]; discriminate E).
      destruct Hin. }
  destruct Hfirst as (F1 & F2 & F3 & F4 & F5).
  repeat (split; [assumption |]).
  pose proof (borrows_released_or_source_leaked _ _ _ _ _ _ _ _ _ _ _ _ _ _ _
                Hr) as Hbytes.
  destruct (native_descramble_cases _ _ _ _ _ _ _ _ _ _ _ _ _ _ _ Hr)
    as (info & src & dst & Hinfo & Hsrc & Hdst & Hcases).
  pose proof (getSubSampleInfo_held _ _ _ _ _ _ Hinfo) as Hints.
  pose proof (getSubSampleInfo_trace _ _ _ _ _ _ Hinfo) as Hq.
  apply layout_events_neutral in Hq. destruct Hq as [Hq _].
  destruct Hcases as [[_ ->] | [(Hlen & _ & ->) | Hcall]].
  - cbn [n_trace].
    assert (Hnone : outstanding
                      (ss_trace info ++ [Throw IllegalArgumentException]) []
                    = [])
      by (rewrite outstanding_after_neutral by exact Hq; reflexivity).
    rewrite int_arrays_held_app. cbn [int_arrays_held].
    destruct Hints as [Hi | (Hn & Hres & _ & Hi)].
    + left. split; assumption.
    + right. left. repeat split; try assumption; lia.
  - cbn [n_trace] in *.
    assert (Hi : int_arrays_held
                   ((ss_trace info ++ bs_trace src ++ bs_trace dst)
                    ++ [Throw IllegalArgumentException]) [] = []).
    { rewrite !int_arrays_held_app. cbn [int_arrays_held].
      rewrite Hdst, destination_holds_no_int_array.
      rewrite Hsrc, getBufferAndSize_holds_no_int_array.
      destruct Hints as [Hi | (_ & _ & Hneg & _)]; [exact Hi | lia]. }
    destruct Hbytes as [Hnone | (arr & Hs & Hheld & _ & Hd)].
    + left. split; assumption.
    + right. right. exists arr. repeat split; assumption.
  - exfalso.
    destruct Hcall as (_ & _ & _ & srcPtr & dstPtr & d & _ & _ & Hd & ->).
    destruct (prelude_silent p env n clear enc info srcBuf srcOffset srcLimit
                dstBuf dstOffset dstLimit (to_size_t p (ss_ret info)) Hinfo)
      as (P1 & _).
    rewrite <- Hsrc in P1. rewrite <- Hdst in P1.
    destruct (descramble_trace_silent _ _ _ _ _ _ _ _ _ _ _ _ Hd)
      as (T1 & _ & _).
    destruct (finish_summary d (outByteArray src) (outByteArray dst)
                (ss_trace info ++ bs_trace src ++ bs_trace dst))
      as (_ & _ & _ & F & _).
    rewrite F, P1, T1 in Hin. cbn [app] in Hin.
    destruct (d_result d) as [| | [| |code] bytesWritten msg];
      cbn [exception_of] in Hin;
      try (destruct Hin as [E | []]; discriminate E).
    destruct Hin.
Qed.

Lemma rejection_leaves_only_borrows_witness :
  exists r,
    android_media_MediaDescrambler_native_descramble LP64 (Scenario.env 4)
      (Some Scenario.warm) Scenario.memory 0 1 (Some [4]) None
      (HeapBuffer (Some 1%nat)) 0 5
      (Some (HeapBuffer (Some 2%nat))) 3 6 = Done r
    /\ retval r = Some (-1) /\ n_self r = Some Scenario.warm
    /\ n_memory r = Scenario.memory
    /\ replies (n_trace r) = [] /\ region_allocated (n_trace r) = false
    /\ ((int_arrays_held (n_trace r) [] = []
         /\ outstanding (n_trace r) [] = [])
        \/ (0 < 1 < MAX_COUNT /\ resize_ok (Scenario.env 4) 1 = false
            /\ int_arrays_held (n_trace r) []
               = int_arrays_held
                   (get_event ClearData (Some [4])
                    ++ get_event EncryptedData None) []
            /\ outstanding (n_trace r) [] = [])
        \/ (exists arr,
              HeapBuffer (Some 1%nat) = HeapBuffer (Some arr)
              /\ Some (HeapBuffer (Some 2%nat)) <> None
              /\ int_arrays_held (n_trace r) [] = []
              /\ outstanding (n_trace r) [] = [arr])).
Proof.
  eexists. split; [reflexivity |].
  apply (rejection_leaves_only_borrows LP64 (Scenario.env 4) Scenario.warm
           Scenario.memory 0 1 (Some [4]) None
           (HeapBuffer (Some 1%nat)) 0 5
           (Some (HeapBuffer (Some 2%nat))) 3 6).
  - reflexivity.
  - cbn. tauto.
Defined.

(** X13.  Once the layout and both buffers are accepted, a grow that is
    handed its region and then fails at the heap reference or the native
    handle ends the call with OutOfMemoryError and nothing else: the
    service is not asked, caller memory is as before, every byte array is
    released, and the value returned is the unset [bytesWritten]. *)
Theorem failed_grow_throws_OutOfMemoryError (p : Platform)
    (env : Environment) (self : JDescrambler) (mem : Memory) (key n : Z)
    (clear enc : option (list Z))
    (srcBuf : ByteBuffer) (srcOffset srcLimit : Z)
    (dstBuf : option ByteBuffer) (dstOffset dstLimit : Z)
    (info : SubSampleInfo) :
  getSubSampleInfo p env n clear enc = Done info ->
  0 <= ss_ret info ->
  bs_err (destination
            (getBufferAndSize srcBuf srcOffset srcLimit
               (to_size_t p (ss_ret info)))
            dstBuf dstOffset dstLimit (to_size_t p (ss_ret info))) = OK ->
  has_capacity self (to_size_t p (ss_ret info)) = false ->
  allocates p env (to_size_t p (ss_ret info)) ->
  grow_fails p env (to_size_t p (ss_ret info)) ->
  exists r,
    android_media_MediaDescrambler_native_descramble p env (Some self) mem key
      n clear enc srcBuf srcOffset srcLimit dstBuf dstOffset dstLimit = Done r
    /\ retval r = None
    /\ thrown (n_trace r) = [OutOfMemoryError]
    /\ replies (n_trace r) = []
    /\ n_memory r = mem
    /\ outstanding (n_trace r) [] = [].
Proof.
  intros Hinfo Hlen Hok Hcap Halloc Hfail.
  destruct (native_descramble_out_of_memory p env self mem key n clear enc
              srcBuf srcOffset srcLimit dstBuf dstOffset dstLimit info
              Hinfo Hlen Hok Hcap Halloc Hfail)
    as (r & tr & Hr & Hret & Htr & Hquiet & Hmem & Hheld).
  exists r. split; [exact Hr |]. split; [exact Hret |].
  split; [| split; [| split; assumption]].
  - destruct (native_descramble_replies _ _ _ _ _ _ _ _ _ _ _ _ _ _ _ Hr)
      as [(_ & _ & [(_ & Hneg & _) | (Hoom & _)])
         | (i2 & sp2 & dp2 & d2 & reply & _ & _ & Hone & _)].
    + rewrite Hret in Hneg. discriminate Hneg.
    + exact Hoom.
    + rewrite Htr, replies_app, (replies_nil tr Hquiet) in Hone.
      discriminate Hone.
  - rewrite Htr, replies_app, (replies_nil tr Hquiet). reflexivity.
Qed.

Lemma failed_grow_throws_OutOfMemoryError_witness :
  exists r,
    android_media_MediaDescrambler_native_descramble LP64
      (Scenario.env_no_heap 4)
      (Some Scenario.warm) Scenario.memory 0 1 (Some [65537]) None
      (HeapBuffer (Some 1%nat)) 0 65537 None 0 65537 = Done r
    /\ retval r = None
    /\ thrown (n_trace r) = [OutOfMemoryError]
    /\ replies (n_trace r) = []
    /\ n_memory r = Scenario.memory
    /\ outstanding (n_trace r) [] = [].
Proof.
  apply (failed_grow_throws_OutOfMemoryError LP64 (Scenario.env_no_heap 4)
           Scenario.warm Scenario.memory 0 1 (Some [65537]) None
           (HeapBuffer (Some 1%nat)) 0 65537 None 0 65537
           (mkSubSampleInfo 65537 [mkSubSample 65537 0]
              [GetIntArrayElements ClearData; ResizeSubSamples 1;
               ReadElement ClearData 0; ReleaseIntArrayElements ClearData])).
  - reflexivity.
  - evaluate.
  - reflexivity.
  - reflexivity.
  - discriminate.
  - left. reflexivity.
Defined.

(** X14.  On a 64-bit ABI, when the service answers [OK] with no bytes or
    with more bytes than were sent, the call copies nothing to caller
    memory and throws a ServiceSpecificException with the unknown-error
    status and the service's diagnostic. *)
Theorem implausible_count_refused_LP64 (env : Environment)
    (self : JDescrambler) (mem : Memory) (key n : Z)
    (clear enc : option (list Z))
    (srcBuf : ByteBuffer) (srcOffset srcLimit : Z)
    (dstBuf : option ByteBuffer) (dstOffset dstLimit : Z)
    (r : NativeReturn) (info : SubSampleInfo) (bytesWritten : Z)
    (msg : string) :
  android_media_MediaDescrambler_native_descramble LP64 env (Some self) mem
    key n clear enc srcBuf srcOffset srcLimit dstBuf dstOffset dstLimit
  = Done r ->
  getSubSampleInfo LP64 env n clear enc = Done info ->
  replies (n_trace r) = [Delivered StatusOK bytesWritten msg] ->
  0 <= bytesWritten < 2 ^ 32 ->
  bytesWritten = 0 \/ ss_ret info < bytesWritten ->
  n_memory r = mem
  /\ thrown (n_trace r) = [ServiceSpecificException ERROR_CAS_UNKNOWN msg]
  /\ retval r = Some (to_jint bytesWritten).
Proof.
  intros Hr Hinfo Hreply Hb Hbad.
  destruct (native_descramble_replies _ _ _ _ _ _ _ _ _ _ _ _ _ _ _ Hr)
    as [(H1 & _) | (info' & srcPtr & dstPtr & d & reply & Hinfo' & _ & H1
                    & Hret & Hmem & Hex & Hcase)].
  - rewrite H1 in Hreply. discriminate Hreply.
  - rewrite Hinfo in Hinfo'. injection Hinfo' as <-.
    rewrite H1 in Hreply. injection Hreply as ->.
    destruct (bytesWritten_valid LP64 bytesWritten (ss_ret info)) eqn:Hv.
    + apply bytesWritten_valid_LP64 in Hv; [lia | exact Hb].
    + destruct Hcase as [Hres Hsame].
      rewrite Hmem, Hex, Hret, Hres, Hsame. repeat split.
Qed.

Lemma implausible_count_refused_LP64_witness :
  exists r,
    android_media_MediaDescrambler_native_descramble LP64
      (Scenario.env 4294967295)
      (Some Scenario.warm) Scenario.memory 0 1 (Some [4]) None
      (DirectBuffer 1%nat) 0 5 None 0 5 = Done r
    /\ n_memory r = Scenario.memory
    /\ thrown (n_trace r)
       = [ServiceSpecificException ERROR_CAS_UNKNOWN EmptyString]
    /\ retval r = Some (to_jint 4294967295).
Proof.
  eexists. split; [reflexivity |].
  apply (implausible_count_refused_LP64 (Scenario.env 4294967295)
           Scenario.warm Scenario.memory 0 1 (Some [4]) None
           (DirectBuffer 1%nat) 0 5 None 0 5
           _ (mkSubSampleInfo 4 [mkSubSample 4 0]
                [GetIntArrayElements ClearData; ResizeSubSamples 1;
                 ReadElement ClearData 0; ReleaseIntArrayElements ClearData])
           4294967295 EmptyString).
  - reflexivity.
  - reflexivity.
  - reflexivity.
  - evaluate.
  - right. evaluate.
Defined.

Lemma bytesWritten_valid_in_range (p : Platform) (bytesWritten totalLength : Z) :
  0 < bytesWritten <= totalLength -> totalLength <= SSIZE_MAX p ->
  bytesWritten_valid p bytesWritten totalLength = true.
Proof.
  intros Hb Ht. unfold bytesWritten_valid.
  rewrite to_ssize_t_small by lia.
  apply andb_true_iff. split.
  - apply Z.gtb_lt. lia.
  - apply Z.leb_le. lia.
Qed.

(** X15.  For a session that has its interface and a region of
    sufficient size: when the service answers [OK] with [0 < bytesWritten <=
    totalLength], [descramble] copies to the destination exactly the first
    [bytesWritten] bytes of the region as the service left it after being
    given the source window; the destination needs room for
    [bytesWritten] bytes only, and everything outside
    [dstOffset, dstOffset + bytesWritten) stays as it was. *)
Theorem descramble_copies_reported_prefix (p : Platform) (env : Environment)
    (self : JDescrambler) (mem : Memory) (key totalLength : Z)
    (subs : list SubSample) (srcPtr : Ptr) (srcOffset : Z) (dstPtr : Ptr)
    (dstOffset : Z) (src dst : list byte) (m : IMemory)
    (bytesWritten : Z) (msg : string) (service : (Z -> byte) -> Z -> byte) :
  0 <= totalLength <= SSIZE_MAX p ->
  mDescrambler self <> None ->
  mMem self = Some m -> totalLength <= mem_size m ->
  (forall req bytes,
     remote_descramble env req bytes
     = (Delivered StatusOK bytesWritten msg, service bytes)) ->
  0 < bytesWritten <= totalLength ->
  mem srcPtr = Some src -> mem dstPtr = Some dst ->
  0 <= srcOffset -> srcOffset + totalLength <= Z.of_nat (List.length src) ->
  0 <= dstOffset -> dstOffset + bytesWritten <= Z.of_nat (List.length dst) ->
  exists d,
    descramble p env self mem key totalLength subs
      srcPtr srcOffset dstPtr dstOffset = Done d
    /\ d_result d = Completed StatusOK bytesWritten msg
    /\ d_memory d dstPtr
       = Some (firstn (Z.to_nat dstOffset) dst
               ++ region_read
                    (service
                       (region_write (mem_bytes m)
                          (firstn (Z.to_nat totalLength)
                             (skipn (Z.to_nat srcOffset) src))))
                    bytesWritten
               ++ skipn (Z.to_nat (dstOffset + bytesWritten)) dst)
    /\ forall q, q <> dstPtr -> d_memory d q = mem q.
Proof.
  intros Hlen Hiface Hm Hcap Hservice Hbw Hsrc Hdst Hso Hsfit Hdo Hdfit.
  unfold descramble. rewrite (to_size_t_small p totalLength) by exact Hlen.
  rewrite (ensureBufferCapacity_no_op p env self totalLength)
    by (exact (has_capacity_true self _ m Hm Hcap)).
  cbn [en_ok negb en_self en_trace]. rewrite Hm.
  rewrite (load_in_bounds mem srcPtr src srcOffset totalLength)
    by (assumption || lia).
  replace (totalLength >? mem_size m) with false
    by (symmetry; rewrite Z.gtb_ltb; apply Z.ltb_ge; lia).
  destruct (mDescrambler self) as [iface|]; [| contradiction].
  rewrite Hservice.
  rewrite bytesWritten_valid_in_range by lia.
  replace (bytesWritten >? mem_size m) with false
    by (symmetry; rewrite Z.gtb_ltb; apply Z.ltb_ge; lia).
  set (out := region_read _ bytesWritten).
  assert (Hout : Z.of_nat (List.length out) = bytesWritten).
  { unfold out, region_read. rewrite length_map, length_seq. lia. }
  destruct (store_in_bounds mem dstPtr dst out dstOffset Hdst Hdo ltac:(lia))
    as (mem' & Hstore & Hat & Hother).
  rewrite Hstore. eexists. split; [reflexivity |].
  cbn [d_result d_memory]. split; [reflexivity |].
  split; [| exact Hother].
  rewrite Hat, Hout. reflexivity.
Qed.

Lemma descramble_copies_reported_prefix_witness :
  exists d,
    descramble LP64 (Scenario.env 2) Scenario.warm Scenario.memory 0 4
      [mkSubSample 4 0] 1%nat 1 2%nat 4 = Done d
    /\ d_result d = Completed StatusOK 2 EmptyString
    /\ d_memory d 2%nat = Some [x0a; x0b; x0c; x0d; x02; x03]
    /\ forall q, q <> 2%nat -> d_memory d q = Scenario.memory q.
Proof.
  apply (descramble_copies_reported_prefix LP64 (Scenario.env 2)
           Scenario.warm Scenario.memory 0 4 [mkSubSample 4 0]
           1%nat 1 2%nat 4
           [x01; x02; x03; x04; x05] [x0a; x0b; x0c; x0d; x0e; x0f]
           (mkIMemory 65536 (fun _ => x00)) 2 EmptyString (fun bytes => bytes)).
  - evaluate.
  - discriminate.
  - reflexivity.
  - evaluate.
  - reflexivity.
  - evaluate.
  - reflexivity.
  - reflexivity.
  - evaluate.
  - evaluate.
  - evaluate.
  - evaluate.
Defined.

(** ** More on the region *)

(** The session [descramble] leaves behind has the interface, the dealer,
    the size of the region and the descriptor that [ensureBufferCapacity]
    left. *)
Lemma descramble_session (p : Platform) (env : Environment)
    (self : JDescrambler) (mem : Memory) (key totalLength : Z)
    (subs : list SubSample) (srcPtr : Ptr) (srcOffset : Z) (dstPtr : Ptr)
    (dstOffset : Z) (d : Descrambled) :
  descramble p env self mem key totalLength subs
    srcPtr srcOffset dstPtr dstOffset = Done d ->
  exists en,
    ensureBufferCapacity p env self (to_size_t p totalLength) = Done en
    /\ capacity (d_self d) = capacity (en_self en)
    /\ mDescrambler (d_self d) = mDescrambler (en_self en)
    /\ mDealer (d_self d) = mDealer (en_self en)
    /\ mDescramblerSrcBuffer (d_self d) = mDescramblerSrcBuffer (en_self en)
    /\ (d_result d = NoMemory <-> en_ok en = false).
Proof.
  intros H. unfold descramble in H.
  destruct (ensureBufferCapacity p env self (to_size_t p totalLength))
    as [en | u] eqn:He; [| discriminate H].
  exists en. split; [reflexivity |].
  destruct (en_ok en) eqn:Hok; cbn [negb] in H.
  2: { injection H as <-. cbn [d_self d_result]. repeat split. }
  unfold capacity.
  destruct (mMem (en_self en)) as [m|]; [| discriminate H].
  destruct (load mem srcPtr srcOffset (to_size_t p totalLength)) as [data|];
    [| discriminate H].
  destruct (to_size_t p totalLength >? mem_size m); [discriminate H |].
  destruct (mDescrambler (en_self en)) as [iface|] eqn:Hi; [| discriminate H].
  destruct (remote_descramble env _ _) as [reply bytes].
  destruct reply as [| [| |code] bytesWritten msg].
  - injection H as <-. cbn. repeat split; discriminate.
  - destruct (bytesWritten_valid p bytesWritten totalLength).
    + destruct (bytesWritten >? mem_size m); [discriminate H |].
      destruct (store mem dstPtr dstOffset (region_read bytes bytesWritten));
        [| discriminate H].
      injection H as <-. cbn. repeat split; discriminate.
    + injection H as <-. cbn. repeat split; discriminate.
  - injection H as <-. cbn. repeat split; discriminate.
  - injection H as <-. cbn. repeat split; discriminate.
Qed.

Lemma ensureBufferCapacity_capacity (p : Platform) (env : Environment)
    (self : JDescrambler) (n k : Z) (en : Ensured) :
  0 <= n <= SSIZE_MAX p ->
  0 <= k <= 16 -> getAllocationAlignment env = 2 ^ k ->
  ensureBufferCapacity p env self n = Done en ->
  capacity self <= capacity (en_self en) /\ n <= capacity (en_self en).
Proof.
  intros Hn Hk Ha He.
  destruct (ensureBufferCapacity_returns p env self n en He)
    as [[Hcap ->] | (Hcap & bytes & _ & Hregion & _)].
  - cbn [en_self].
    unfold has_capacity, capacity in *.
    destruct (mMem self) as [m|]; [| discriminate Hcap].
    rewrite Z.geb_leb in Hcap. apply Z.leb_le in Hcap. lia.
  - unfold capacity at 2 3. rewrite Hregion. cbn [mem_size].
    rewrite (grown_size_round_up p env n k Hn Hk Ha).
    pose proof (alignment_bounds k Hk) as Hb.
    pose proof (round_up_ge n (2 ^ k) ltac:(lia)).
    pose proof (round_up_ge (round_up n (2 ^ k)) 65536 ltac:(lia)).
    unfold has_capacity, capacity in *.
    destruct (mMem self) as [m|].
    + rewrite Z.geb_leb in Hcap. apply Z.leb_gt in Hcap. lia.
    + lia.
Qed.

(** X16.  The region never shrinks: after [descramble], whatever its
    result, the session's region is at least as large as before and at
    least as large as the request (for a request up to [SSIZE_MAX] and an
    alignment that is a power of two up to 64 KiB). *)
Theorem descramble_never_shrinks_region (p : Platform) (env : Environment)
    (self : JDescrambler) (mem : Memory) (key totalLength k : Z)
    (subs : list SubSample) (srcPtr : Ptr) (srcOffset : Z) (dstPtr : Ptr)
    (dstOffset : Z) (d : Descrambled) :
  descramble p env self mem key totalLength subs
    srcPtr srcOffset dstPtr dstOffset = Done d ->
  0 <= totalLength <= SSIZE_MAX p ->
  0 <= k <= 16 -> getAllocationAlignment env = 2 ^ k ->
  capacity self <= capacity (d_self d)
  /\ totalLength <= capacity (d_self d).
Proof.
  intros Hd Hn Hk Ha.
  destruct (descramble_session _ _ _ _ _ _ _ _ _ _ _ _ Hd)
    as (en & He & Hc & _).
  rewrite Hc. rewrite (to_size_t_small p totalLength) in He by exact Hn.
  apply (ensureBufferCapacity_capacity p env self totalLength k en);
    assumption.
Qed.

Lemma descramble_never_shrinks_region_witness :
  exists d,
    descramble ILP32 (Scenario.env_no_heap 0) Scenario.warm Scenario.memory
      0 65537 [mkSubSample 65537 0] 1%nat 0 1%nat 0 = Done d
    /\ capacity Scenario.warm <= capacity (d_self d)
    /\ 65537 <= capacity (d_self d).
Proof.
  eexists. split; [reflexivity |].
  apply (descramble_never_shrinks_region ILP32 (Scenario.env_no_heap 0)
           Scenario.warm Scenario.memory 0 65537 5 [mkSubSample 65537 0]
           1%nat 0 1%nat 0).
  - reflexivity.
  - evaluate.
  - evaluate.
  - reflexivity.
Defined.

(** X17.  After a grow that was handed its region and then failed, the
    session holds the new region with the descriptor from before: a later
    [ensureBufferCapacity] for a size that fits the new region succeeds
    without allocating, and a later [descramble] of such a size does not
    report [NO_MEMORY] but asks the service, with the session still
    carrying the old descriptor. *)
Theorem failed_grow_leaves_stale_descriptor (p : Platform)
    (env env' : Environment) (self : JDescrambler) (mem : Memory)
    (key n n' k : Z) (subs : list SubSample)
    (srcPtr : Ptr) (srcOffset : Z) (dstPtr : Ptr) (dstOffset : Z) :
  0 <= n <= SSIZE_MAX p ->
  0 <= k <= 16 -> getAllocationAlignment env = 2 ^ k ->
  has_capacity self n = false ->
  allocates p env n ->
  grow_fails p env n ->
  0 <= n' <= n ->
  exists en,
    ensureBufferCapacity p env self n = Done en
    /\ en_ok en = false
    /\ mDescramblerSrcBuffer (en_self en) = mDescramblerSrcBuffer self
    /\ ensureBufferCapacity p env' (en_self en) n'
       = Done (mkEnsured true (en_self en) [])
    /\ forall d,
         descramble p env' (en_self en) mem key n' subs
           srcPtr srcOffset dstPtr dstOffset = Done d ->
         d_result d <> NoMemory
         /\ List.length (replies (d_trace d)) = 1%nat
         /\ mDescramblerSrcBuffer (d_self d) = mDescramblerSrcBuffer self.
Proof.
  intros Hn Hk Ha Hcap Halloc Hfail Hn'.
  unfold allocates in Halloc.
  destruct (allocate env (grown_size p env n)) as [bytes|] eqn:Hbytes;
    [clear Halloc | contradiction].
  pose proof (ensureBufferCapacity_grow_fails p env self n bytes Hcap Hbytes
                Hfail) as He.
  set (s1 := mkJDescrambler (mDescrambler self) (Some (grown_size p env n))
               (Some (mkIMemory (grown_size p env n) bytes))
               (mDescramblerSrcBuffer self)) in *.
  eexists. split; [exact He |]. cbn [en_ok en_self].
  assert (Hfit : has_capacity s1 n' = true).
  { unfold s1, has_capacity. cbn [mMem mem_size].
    rewrite Z.geb_leb. apply Z.leb_le.
    rewrite (grown_size_round_up p env n k Hn Hk Ha).
    pose proof (alignment_bounds k Hk) as Hb.
    pose proof (round_up_ge n (2 ^ k) ltac:(lia)).
    pose proof (round_up_ge (round_up n (2 ^ k)) 65536 ltac:(lia)). lia. }
  pose proof (ensureBufferCapacity_no_op p env' s1 n' Hfit) as Hnoop.
  split; [reflexivity |].
  split; [reflexivity |].
  split; [exact Hnoop |].
  intros d Hd.
  assert (Hsize : to_size_t p n' = n')
    by (apply to_size_t_small; lia).
  destruct (descramble_session _ _ _ _ _ _ _ _ _ _ _ _ Hd)
    as (en' & He' & _ & _ & _ & Hdesc & Hres).
  rewrite Hsize, Hnoop in He'. injection He' as <-.
  cbn [en_self en_ok] in Hdesc, Hres.
  assert (Hnot : d_result d <> NoMemory).
  { intros E. apply Hres in E. discriminate E. }
  split; [exact Hnot |]. split.
  - destruct (descramble_replies _ _ _ _ _ _ _ _ _ _ _ _ Hd)
      as [(E & _) | (reply & Hone & _)]; [contradiction |].
    rewrite <- replies_filter, Hone. reflexivity.
  - rewrite Hdesc. reflexivity.
Qed.

Lemma failed_grow_leaves_stale_descriptor_witness :
  exists en,
    ensureBufferCapacity LP64 (Scenario.env_no_heap 4) Scenario.warm 65537
    = Done en
    /\ en_ok en = false
    /\ mDescramblerSrcBuffer (en_self en)
       = mDescramblerSrcBuffer Scenario.warm
    /\ ensureBufferCapacity LP64 (Scenario.env 4) (en_self en) 4
       = Done (mkEnsured true (en_self en) [])
    /\ forall d,
         descramble LP64 (Scenario.env 4) (en_self en) Scenario.memory 0 4
           [mkSubSample 4 0] 1%nat 0 2%nat 0 = Done d ->
         d_result d <> NoMemory
         /\ List.length (replies (d_trace d)) = 1%nat
         /\ mDescramblerSrcBuffer (d_self d)
            = mDescramblerSrcBuffer Scenario.warm.
Proof.
  apply (failed_grow_leaves_stale_descriptor LP64 (Scenario.env_no_heap 4)
           (Scenario.env 4) Scenario.warm Scenario.memory 0 65537 4 5
           [mkSubSample 4 0] 1%nat 0 2%nat 0).
  - evaluate.
  - evaluate.
  - reflexivity.
  - reflexivity.
  - discriminate.
  - left. reflexivity.
  - evaluate.
Defined.

Lemma round_up_of_multiple (x m : Z) :
  0 < m -> x mod m = 0 -> round_up x m = x.
Proof.
  intros Hm Hx. unfold round_up.
  apply Z.mod_divide in Hx; [| lia]. destruct Hx as [q ->].
  replace (q * m + m - 1) with (q * m + (m - 1)) by lia.
  rewrite Z.div_add_l by lia.
  rewrite (Z.div_small (m - 1) m) by lia. lia.
Qed.

Lemma multiple_of_64K_is_aligned (x k : Z) :
  0 <= k <= 16 -> x mod 65536 = 0 -> x mod 2 ^ k = 0.
Proof.
  intros Hk Hx.
  pose proof (Z.pow_pos_nonneg 2 k ltac:(lia) ltac:(lia)) as Hpos.
  apply Z.mod_divide; [lia |]. apply Z.mod_divide in Hx; [| lia].
  apply Z.divide_trans with (m := 65536); [| exact Hx].
  exists (2 ^ (16 - k)). rewrite <- Z.pow_add_r by lia.
  replace (16 - k + k) with 16 by lia. reflexivity.
Qed.

(** X18.  What a grow allocates: for a request up to [SSIZE_MAX] and an
    alignment [2 ^ k] up to 64 KiB, the new region exceeds the request by
    less than 64 KiB plus the alignment, and a request that is already a
    multiple of 64 KiB is allocated exactly. *)
Theorem grown_size_overhead (p : Platform) (env : Environment) (n k : Z) :
  0 <= n <= SSIZE_MAX p ->
  0 <= k <= 16 -> getAllocationAlignment env = 2 ^ k ->
  n <= grown_size p env n < n + 2 ^ k + 65535
  /\ (n mod 65536 = 0 -> grown_size p env n = n).
Proof.
  intros Hn Hk Ha.
  rewrite (grown_size_round_up p env n k Hn Hk Ha).
  pose proof (alignment_bounds k Hk) as Hb.
  pose proof (round_up_ge n (2 ^ k) ltac:(lia)).
  pose proof (round_up_le n (2 ^ k) ltac:(lia)).
  pose proof (round_up_ge (round_up n (2 ^ k)) 65536 ltac:(lia)).
  pose proof (round_up_le (round_up n (2 ^ k)) 65536 ltac:(lia)).
  split; [lia |].
  intros Hmult.
  rewrite (round_up_of_multiple n (2 ^ k)) by
    (try lia; apply multiple_of_64K_is_aligned; assumption).
  apply round_up_of_multiple; [lia | exact Hmult].
Qed.

Lemma grown_size_overhead_witness :
  131072 <= grown_size ILP32 (Scenario.env 0) 131072 < 131072 + 2 ^ 5 + 65535
  /\ (131072 mod 65536 = 0 -> grown_size ILP32 (Scenario.env 0) 131072 = 131072).
Proof.
  apply (grown_size_overhead ILP32 (Scenario.env 0) 131072 5).
  - evaluate.
  - evaluate.
  - reflexivity.
Defined.

(** ** Defined behaviour *)






(** ** The native context: setup, release and the references of a call *)

Lemma put_same (a : Ptr) (i : option Instance) (h : Ptr -> option Instance) :
  put a i h a = i.
Proof. unfold put. now rewrite Nat.eqb_refl. Qed.

Lemma put_other (a q : Ptr) (i : option Instance)
    (h : Ptr -> option Instance) :
  q <> a -> put a i h q = h q.
Proof.
  intros H. unfold put. apply Nat.eqb_neq in H. now rewrite H.
Qed.

(** What well-formedness says of a runtime, by whether a context is set. *)
Lemma well_formed_cases (rt : Runtime) :
  well_formed rt ->
  (mNativeContext rt = None /\ forall a, instances rt a = None)
  \/ (exists o i, mNativeContext rt = Some o
                 /\ instances rt o = Some i /\ strong i = 1%nat
                 /\ (o < next rt)%nat
                 /\ forall a, a <> o -> instances rt a = None).
Proof.
  intros (Honly & Hlive & Hfresh).
  destruct (mNativeContext rt) as [o|] eqn:Hctx.
  - right. destruct (Hlive o eq_refl) as (i & Hi & Hs).
    exists o, i. repeat split; try assumption.
    + destruct (Nat.lt_ge_cases o (next rt)) as [Hlt | Hge]; [exact Hlt |].
      rewrite (Hfresh o Hge) in Hi. discriminate.
    + intros a Ha. destruct (instances rt a) eqn:Hia; [| reflexivity].
      assert (Hc : Some o = Some a) by (apply Honly; rewrite Hia; discriminate).
      congruence.
  - left. split; [reflexivity |].
    intros a. destruct (instances rt a) eqn:Hia; [| reflexivity].
    assert (Hc : None = Some a) by (apply Honly; rewrite Hia; discriminate).
    discriminate.
Qed.

Lemma native_release_effect (rt : Runtime) :
  well_formed rt ->
  exists rt', native_release rt = Some rt'
    /\ mNativeContext rt' = None
    /\ (forall a, instances rt' a = None)
    /\ next rt' = next rt.
Proof.
  intros Hwf. destruct (well_formed_cases rt Hwf)
    as [[Hctx Hnone] | (o & i & Hctx & Hi & Hs & Hlt & Hnone)].
  - destruct rt as [ctx h n]. cbn in *. subst ctx.
    eexists. split; [reflexivity |]. cbn. auto.
  - destruct rt as [ctx h n]. cbn in *. subst ctx.
    destruct i as [s f]. cbn in Hs. subst s.
    unfold native_release, setDescrambler, on_pointer, and_then.
    cbn [mNativeContext instances next].
    unfold incStrong at 1. cbn [mNativeContext instances next]. rewrite Hi.
    cbn [strong fields].
    unfold decStrong at 1. cbn [mNativeContext instances next].
    rewrite put_same. cbn [strong fields].
    unfold decStrong. cbn [mNativeContext instances next].
    rewrite put_same. cbn [strong fields].
    eexists. split; [reflexivity |]. cbn. repeat split.
    intros a. destruct (Nat.eq_dec a o) as [-> | Hne].
    + now rewrite put_same.
    + rewrite !put_other by exact Hne. now apply Hnone.
Qed.

Lemma native_setup_effect (obj : BinderObj) (rt : Runtime) :
  well_formed rt ->
  exists rt',
    native_setup obj rt
      = Some (rt', match GetDescrambler obj with
                   | None => Some NullPointerException
                   | Some _ => None
                   end)
    /\ mNativeContext rt' = Some (next rt)
    /\ instances rt' (next rt)
         = Some (mkInstance 1 (new_fields (GetDescrambler obj)))
    /\ (forall a, a <> next rt -> instances rt' a = None)
    /\ next rt' = S (next rt).
Proof.
  intros Hwf. destruct (well_formed_cases rt Hwf)
    as [[Hctx Hnone] | (o & i & Hctx & Hi & Hs & Hlt & Hnone)].
  - destruct rt as [ctx h n]. cbn in *. subst ctx.
    unfold native_setup, and_then. cbn [mNativeContext instances next].
    unfold incStrong at 1. cbn [mNativeContext instances next].
    rewrite put_same. cbn [strong fields].
    unfold setDescrambler, on_pointer, and_then.
    cbn [mNativeContext instances next].
    unfold incStrong at 1. cbn [mNativeContext instances next].
    rewrite put_same. cbn [strong fields].
    unfold decStrong. cbn [mNativeContext instances next].
    rewrite put_same. cbn [strong fields].
    eexists. split; [reflexivity |]. cbn. repeat split.
    + now rewrite put_same.
    + intros a Ha. rewrite !put_other by exact Ha. apply Hnone.
  - destruct rt as [ctx h n]. cbn in *. subst ctx.
    destruct i as [s f]. cbn in Hs. subst s.
    assert (Hon : o <> n) by lia.
    assert (Hno : n <> o) by lia.
    unfold native_setup, and_then. cbn [mNativeContext instances next].
    unfold incStrong at 1. cbn [mNativeContext instances next].
    rewrite put_same. cbn [strong fields].
    unfold setDescrambler, on_pointer, and_then.
    cbn [mNativeContext instances next].
    unfold incStrong at 1. cbn [mNativeContext instances next].
    rewrite !(put_other n o) by exact Hon. rewrite Hi.
    cbn [strong fields].
    unfold incStrong at 1. cbn [mNativeContext instances next].
    rewrite (put_other o n) by exact Hno. rewrite put_same.
    cbn [strong fields].
    unfold decStrong at 1. cbn [mNativeContext instances next].
    rewrite (put_other n o) by exact Hon. rewrite put_same.
    cbn [strong fields].
    unfold decStrong at 1. cbn [mNativeContext instances next].
    rewrite put_same. cbn [strong fields].
    unfold decStrong. cbn [mNativeContext instances next].
    rewrite (put_other o n) by exact Hno.
    rewrite (put_other o n) by exact Hno. rewrite put_same.
    cbn [strong fields].
    eexists. split; [reflexivity |]. cbn. repeat split.
    + rewrite put_same. reflexivity.
    + intros a Ha. rewrite (put_other n a) by exact Ha.
      destruct (Nat.eq_dec a o) as [-> | Hne].
      * now rewrite put_same.
      * rewrite !put_other by assumption. now apply Hnone.
Qed.

Lemma well_formed_boot : well_formed boot.
Proof.
  repeat split.
  - intros a H. now contradiction H.
  - intros a H. discriminate.
Qed.

Lemma well_formed_intro (rt : Runtime) (o : Ptr) (i : Instance) :
  mNativeContext rt = Some o ->
  instances rt o = Some i -> strong i = 1%nat ->
  (forall a, a <> o -> instances rt a = None) ->
  (o < next rt)%nat ->
  well_formed rt.
Proof.
  intros Hctx Hi Hs Hnone Hlt. repeat split.
  - intros a Ha. destruct (Nat.eq_dec a o) as [-> | Hne]; [exact Hctx |].
    now rewrite (Hnone a Hne) in Ha.
  - intros a Ha. rewrite Hctx in Ha. injection Ha as <-. now exists i.
  - intros a Ha. apply Hnone. lia.
Qed.

Lemma well_formed_empty (rt : Runtime) :
  mNativeContext rt = None -> (forall a, instances rt a = None) ->
  well_formed rt.
Proof.
  intros Hctx Hnone. repeat split.
  - intros a Ha. now rewrite Hnone in Ha.
  - intros a Ha. rewrite Hctx in Ha. discriminate.
  - intros a _. apply Hnone.
Qed.

Lemma call_preserves_well_formed (c : Call) (rt : Runtime) :
  well_formed rt -> exists rt', call c rt = Some rt' /\ well_formed rt'.
Proof.
  intros Hwf. destruct c as [obj|]; cbn [call].
  - destruct (native_setup_effect obj rt Hwf)
      as (rt' & Hrun & Hctx & Hi & Hnone & Hnext).
    rewrite Hrun. exists rt'. split; [reflexivity |].
    apply (well_formed_intro rt' (next rt) _ Hctx Hi eq_refl Hnone).
    rewrite Hnext. lia.
  - destruct (native_release_effect rt Hwf)
      as (rt' & Hrun & Hctx & Hnone & _).
    exists rt'. split; [exact Hrun |].
    now apply well_formed_empty.
Qed.

Lemma calls_preserve_well_formed (cs : list Call) (rt : Runtime) :
  well_formed rt -> exists rt', calls cs rt = Some rt' /\ well_formed rt'.
Proof.
  revert rt. induction cs as [| c cs IH]; intros rt Hwf.
  - exists rt. now split.
  - destruct (call_preserves_well_formed c rt Hwf) as (rt1 & Hc & Hwf1).
    destruct (IH rt1 Hwf1) as (rt' & Hcs & Hwf').
    exists rt'. cbn [calls]. rewrite Hc. now split.
Qed.

Lemma reachable_well_formed (cs : list Call) (rt : Runtime) :
  calls cs boot = Some rt -> well_formed rt.
Proof.
  intros H. destruct (calls_preserve_well_formed cs boot well_formed_boot)
    as (rt' & Hrun & Hwf). congruence.
Qed.

(** X20.  Whatever sequence of [native_setup] and [native_release] calls
    Java makes on an object, no call goes through a pointer to a destroyed
    instance, and afterwards the only instance alive is the one
    [mNativeContext] points to, held by exactly one strong reference:
    nothing is leaked and nothing dangles. *)
Theorem setup_release_sequences_are_safe (cs : list Call) :
  exists rt,
    calls cs boot = Some rt
    /\ (forall a i, instances rt a = Some i ->
          mNativeContext rt = Some a /\ strong i = 1%nat)
    /\ (forall a, mNativeContext rt = Some a -> instances rt a <> None).
Proof.
  destruct (calls_preserve_well_formed cs boot well_formed_boot)
    as (rt & Hrun & Honly & Hlive & _).
  exists rt. split; [exact Hrun |]. split.
  - intros a i Hi.
    assert (Hctx : mNativeContext rt = Some a)
      by (apply Honly; rewrite Hi; discriminate).
    split; [exact Hctx |].
    destruct (Hlive a Hctx) as (i' & Hi' & Hs). congruence.
  - intros a Hctx. destruct (Hlive a Hctx) as (i & Hi & _).
    rewrite Hi. discriminate.
Qed.

(** X21.  After any history, [native_setup] installs a new instance in
    its initial state, held by one reference, and destroys the instance
    that was installed before.  When the binder object gives no interface
    (it is NULL, has no binder, or [fromBinder] fails) the constructor
    throws NullPointerException, and the instance is installed all the
    same, with a NULL [mDescrambler]. *)
Theorem native_setup_replaces_instance (cs : list Call) (rt : Runtime)
    (obj : BinderObj) :
  calls cs boot = Some rt ->
  exists rt' exn,
    native_setup obj rt = Some (rt', exn)
    /\ (exn = Some NullPointerException <-> GetDescrambler obj = None)
    /\ mNativeContext rt' = Some (next rt)
    /\ instances rt' (next rt)
         = Some (mkInstance 1 (new_fields (GetDescrambler obj)))
    /\ (forall a, a <> next rt -> instances rt' a = None).
Proof.
  intros Hrun.
  destruct (native_setup_effect obj rt (reachable_well_formed cs rt Hrun))
    as (rt' & Hs & Hctx & Hi & Hnone & _).
  exists rt'. eexists. split; [exact Hs |].
  split; [| now repeat split].
  destruct (GetDescrambler obj); split; intros H;
    first [reflexivity | discriminate].
Qed.

Lemma native_setup_replaces_instance_witness :
  exists rt,
    calls [Setup (Some (Some (mkIBinder (Some 7))))] boot = Some rt
    /\ exists rt' exn,
         native_setup (Some None) rt = Some (rt', exn)
         /\ (exn = Some NullPointerException
             <-> GetDescrambler (Some None) = None)
         /\ mNativeContext rt' = Some (next rt)
         /\ instances rt' (next rt)
              = Some (mkInstance 1 (new_fields (GetDescrambler (Some None))))
         /\ (forall a, a <> next rt -> instances rt' a = None).
Proof.
  eexists. split; [reflexivity |].
  apply (native_setup_replaces_instance
           [Setup (Some (Some (mkIBinder (Some 7))))] _ (Some None)).
  reflexivity.
Defined.

(** X22.  After any history, [native_release] clears [mNativeContext] and
    destroys the instance; a second release changes nothing; and a
    descramble call made afterwards finds no instance, throws
    IllegalStateException and returns -1 without touching caller memory. *)
Theorem native_release_destroys_instance (cs : list Call) (rt : Runtime) :
  calls cs boot = Some rt ->
  exists rt',
    native_release rt = Some rt'
    /\ mNativeContext rt' = None
    /\ (forall a, instances rt' a = None)
    /\ native_release rt' = Some rt'
    /\ exists held,
         getDescrambler rt' = Some held /\ snd held = rt'
         /\ forall p env mem key n clear enc srcBuf srcOffset srcLimit
                   dstBuf dstOffset dstLimit,
              android_media_MediaDescrambler_native_descramble p env
                (descrambler_of held) mem key n clear enc
                srcBuf srcOffset srcLimit dstBuf dstOffset dstLimit
              = Done (mkNativeReturn (Some (-1)) None mem
                        [Throw IllegalStateException]).
Proof.
  intros Hrun.
  destruct (native_release_effect rt (reachable_well_formed cs rt Hrun))
    as (rt' & Hr & Hctx & Hnone & _).
  exists rt'. split; [exact Hr |]. split; [exact Hctx |].
  split; [exact Hnone |].
  destruct rt' as [ctx h n]. cbn in Hctx. subst ctx. split; [reflexivity |].
  exists (None, mkRuntime None h n). repeat split.
Qed.

Lemma native_release_destroys_instance_witness :
  exists rt,
    calls [Setup (Some (Some (mkIBinder (Some 7))))] boot = Some rt
    /\ exists rt',
         native_release rt = Some rt'
         /\ mNativeContext rt' = None
         /\ (forall a, instances rt' a = None)
         /\ native_release rt' = Some rt'
         /\ exists held,
              getDescrambler rt' = Some held /\ snd held = rt'
              /\ forall p env mem key n clear enc srcBuf srcOffset srcLimit
                        dstBuf dstOffset dstLimit,
                   android_media_MediaDescrambler_native_descramble p env
                     (descrambler_of held) mem key n clear enc
                     srcBuf srcOffset srcLimit dstBuf dstOffset dstLimit
                   = Done (mkNativeReturn (Some (-1)) None mem
                             [Throw IllegalStateException]).
Proof.
  eexists. split; [reflexivity |].
  apply (native_release_destroys_instance
           [Setup (Some (Some (mkIBinder (Some 7))))] _).
  reflexivity.
Defined.

Lemma incStrong_live (rt : Runtime) (a : Ptr) (i : Instance) :
  instances rt a = Some i ->
  incStrong a rt
  = Some (mkRuntime (mNativeContext rt)
            (put a (Some (mkInstance (S (strong i)) (fields i)))
               (instances rt))
            (next rt)).
Proof. intros H. unfold incStrong. now rewrite H. Qed.

Lemma decStrong_shared (rt : Runtime) (a : Ptr) (c : nat)
    (f : JDescrambler) :
  instances rt a = Some (mkInstance (S (S c)) f) ->
  decStrong a rt
  = Some (mkRuntime (mNativeContext rt)
            (put a (Some (mkInstance (S c) f)) (instances rt))
            (next rt)).
Proof. intros H. unfold decStrong. now rewrite H. Qed.

Lemma decStrong_last (rt : Runtime) (a : Ptr) (f : JDescrambler) :
  instances rt a = Some (mkInstance 1 f) ->
  decStrong a rt
  = Some (mkRuntime (mNativeContext rt) (put a None (instances rt))
            (next rt)).
Proof. intros H. unfold decStrong. now rewrite H. Qed.

Ltac lookup :=
  cbn [mNativeContext instances next];
  repeat first [rewrite put_same | rewrite put_other by assumption];
  first [reflexivity | eassumption].

Ltac take_reference :=
  erewrite incStrong_live by lookup;
  cbn [mNativeContext instances next strong fields].

Ltac drop_reference :=
  first [erewrite decStrong_shared by lookup
        | erewrite decStrong_last by lookup];
  cbn [mNativeContext instances next strong fields].

(** X23.  A descramble call holds its own strong reference to the instance
    it found in [mNativeContext] (line 336).  If [native_release] or
    [native_setup] runs on the same object while the call is in progress,
    the instance stays alive with its fields; it is destroyed when the
    call lets go of its reference, and the object is then back in a state
    where only the installed instance, if any, is alive. *)
Theorem instance_outlives_calls_in_progress (cs : list Call) (rt : Runtime)
    (a : Ptr) (c : Call) :
  calls cs boot = Some rt ->
  mNativeContext rt = Some a ->
  exists i rt1 rt2 rt3,
    instances rt a = Some i
    /\ getDescrambler rt = Some (Some a, rt1)
    /\ descrambler_of (Some a, rt1) = Some (fields i)
    /\ call c rt1 = Some rt2
    /\ descrambler_of (Some a, rt2) = Some (fields i)
    /\ decStrong a rt2 = Some rt3
    /\ instances rt3 a = None
    /\ well_formed rt3.
Proof.
  intros Hrun Hctx.
  destruct (well_formed_cases rt (reachable_well_formed cs rt Hrun))
    as [[Hctx' _] | (o & i & Hctx' & Hi & Hs & Hlt & Hnone)];
    [congruence |].
  assert (o = a) by congruence. subst o. clear Hctx'.
  destruct rt as [ctx h n]. cbn in *. subst ctx.
  destruct i as [s f]. cbn in Hs. subst s.
  assert (Han : a <> n) by lia.
  assert (Hna : n <> a) by lia.
  exists (mkInstance 1 f).
  exists (mkRuntime (Some a) (put a (Some (mkInstance 2 f)) h) n).
  assert (Hget : getDescrambler (mkRuntime (Some a) h n)
                 = Some (Some a,
                         mkRuntime (Some a)
                           (put a (Some (mkInstance 2 f)) h) n)).
  { unfold getDescrambler, on_pointer. cbn [mNativeContext].
    take_reference. reflexivity. }
  assert (Hheld : descrambler_of
                    (Some a,
                     mkRuntime (Some a)
                       (put a (Some (mkInstance 2 f)) h) n)
                  = Some f).
  { unfold descrambler_of. cbn. now rewrite put_same. }
  destruct c as [obj|]; cbn [call].
  - eassert (Hcall : native_setup obj
                       (mkRuntime (Some a)
                          (put a (Some (mkInstance 2 f)) h) n)
                     = Some (_, _)).
    { unfold native_setup, and_then. cbn [mNativeContext instances next].
      take_reference.
      unfold setDescrambler, on_pointer, and_then.
      cbn [mNativeContext instances next].
      take_reference. take_reference. drop_reference. drop_reference.
      drop_reference. reflexivity. }
    rewrite Hcall. clear Hcall.
    eexists. eexists.
    split; [exact Hi |]. split; [exact Hget |].
    split; [exact Hheld |]. split; [reflexivity |].
    split; [unfold descrambler_of; cbn [fst snd fields]; now lookup |].
    drop_reference.
    split; [reflexivity |].
    split; [now lookup |].
    apply (well_formed_intro _ n
             (mkInstance 1 (new_fields (GetDescrambler obj)))).
    + reflexivity.
    + lookup.
    + reflexivity.
    + intros q Hq. cbn [instances].
      destruct (Nat.eq_dec q a) as [-> | Hqa]; [now lookup |].
      rewrite !put_other by assumption. now apply Hnone.
    + cbn. lia.
  - eassert (Hcall : native_release
                       (mkRuntime (Some a)
                          (put a (Some (mkInstance 2 f)) h) n)
                     = Some _).
    { unfold native_release, setDescrambler, on_pointer, and_then.
      cbn [mNativeContext instances next].
      take_reference. drop_reference. drop_reference. reflexivity. }
    rewrite Hcall. clear Hcall.
    eexists. eexists.
    split; [exact Hi |]. split; [exact Hget |].
    split; [exact Hheld |]. split; [reflexivity |].
    split; [unfold descrambler_of; cbn [fst snd fields]; now lookup |].
    drop_reference.
    split; [reflexivity |].
    split; [now lookup |].
    apply well_formed_empty; [reflexivity |].
    intros q. cbn [instances].
    destruct (Nat.eq_dec q a) as [-> | Hqa]; [now lookup |].
    rewrite !put_other by assumption. now apply Hnone.
Qed.

Lemma instance_outlives_calls_in_progress_witness :
  exists rt,
    calls [Setup (Some (Some (mkIBinder (Some 7))))] boot = Some rt
    /\ exists i rt1 rt2 rt3,
         instances rt 0%nat = Some i
         /\ getDescrambler rt = Some (Some 0%nat, rt1)
         /\ descrambler_of (Some 0%nat, rt1) = Some (fields i)
         /\ call Release rt1 = Some rt2
         /\ descrambler_of (Some 0%nat, rt2) = Some (fields i)
         /\ decStrong 0%nat rt2 = Some rt3
         /\ instances rt3 0%nat = None
         /\ well_formed rt3.
Proof.
  eexists. split; [reflexivity |].
  apply (instance_outlives_calls_in_progress
           [Setup (Some (Some (mkIBinder (Some 7))))] _ 0%nat Release).
  - reflexivity.
  - reflexivity.
Defined.

(** ** A session without its interface *)

Lemma ensureBufferCapacity_undefined (p : Platform) (env : Environment)
    (self : JDescrambler) (n : Z) (u : UB) :
  ensureBufferCapacity p env self n = Undefined u ->
  u = NullDereference /\ has_capacity self n = false
  /\ allocate env (grown_size p env n) = None.
Proof.
  unfold ensureBufferCapacity. intros H.
  destruct (has_capacity self n); [discriminate H |].
  destruct (allocate env (grown_size p env n)) as [bytes|].
  - destruct (getMemory env (grown_size p env n)) as [[[heap|] offset] size];
      [destruct (native_handle_create env) |]; discriminate H.
  - injection H as <-. repeat split.
Qed.

(** Without an interface, [descramble] is decided by the grow alone. *)
Lemma descramble_without_interface_cases (p : Platform) (env : Environment)
    (self : JDescrambler) (mem : Memory) (key totalLength k : Z)
    (subs : list SubSample) (srcPtr : Ptr) (srcOffset : Z) (dstPtr : Ptr)
    (dstOffset : Z) (src : list byte) :
  mDescrambler self = None ->
  0 <= totalLength <= SSIZE_MAX p ->
  0 <= k <= 16 -> getAllocationAlignment env = 2 ^ k ->
  mem srcPtr = Some src ->
  0 <= srcOffset -> srcOffset + totalLength <= Z.of_nat (List.length src) ->
  descramble p env self mem key totalLength subs
    srcPtr srcOffset dstPtr dstOffset
  = match ensureBufferCapacity p env self totalLength with
    | Undefined u => Undefined u
    | Done en =>
        if en_ok en then Undefined NullDereference
        else Done (mkDescrambled NoMemory (en_self en) mem (en_trace en))
    end.
Proof.
  intros Hnull Hlen Hk Ha Hsrc Hso Hsfit.
  unfold descramble. rewrite (to_size_t_small p totalLength) by exact Hlen.
  destruct (ensureBufferCapacity p env self totalLength) as [en | u] eqn:He;
    [| reflexivity].
  destruct (en_ok en); cbn [negb]; [| reflexivity].
  destruct (ensureBufferCapacity_capacity p env self totalLength k en
              Hlen Hk Ha He) as [_ Hcap].
  assert (Hregion : exists m,
             mMem (en_self en) = Some m
             /\ mDescrambler (en_self en) = mDescrambler self).
  { destruct (ensureBufferCapacity_returns p env self totalLength en He)
      as [[Hhas ->] | (_ & bytes & _ & Hm & Hi & _)].
    - cbn [en_self]. unfold has_capacity in Hhas.
      destruct (mMem self) as [m|]; [eauto | discriminate Hhas].
    - eauto. }
  destruct Hregion as (m & Hm & Hi).
  unfold capacity in Hcap. rewrite Hm in Hcap. rewrite Hm.
  rewrite (load_in_bounds mem srcPtr src srcOffset totalLength)
    by (assumption || lia).
  replace (totalLength >? mem_size m) with false
    by (symmetry; rewrite Z.gtb_ltb; apply Z.ltb_ge; lia).
  rewrite Hi, Hnull. reflexivity.
Qed.

(** X24.  A session whose constructor got no interface ([mDescrambler] is
    NULL, the state [native_setup] installs after NullPointerException)
    never reaches the service.  For a source window inside its object, a
    [descramble] that returns has reported [NO_MEMORY] after a failed grow,
    and undefined behaviour is a call through a null pointer; and whenever
    the region is there, because the session holds one of sufficient size
    or because the grow is handed its region and passes both tested steps,
    [descramble] calls through the null [mDescrambler] at line 190. *)
Theorem descramble_without_interface (p : Platform) (env : Environment)
    (self : JDescrambler) (mem : Memory) (key totalLength k : Z)
    (subs : list SubSample) (srcPtr : Ptr) (srcOffset : Z) (dstPtr : Ptr)
    (dstOffset : Z) (src : list byte) :
  mDescrambler self = None ->
  0 <= totalLength <= SSIZE_MAX p ->
  0 <= k <= 16 -> getAllocationAlignment env = 2 ^ k ->
  mem srcPtr = Some src ->
  0 <= srcOffset -> srcOffset + totalLength <= Z.of_nat (List.length src) ->
  (forall d,
     descramble p env self mem key totalLength subs
       srcPtr srcOffset dstPtr dstOffset = Done d ->
     d_result d = NoMemory /\ replies (d_trace d) = [] /\ d_memory d = mem)
  /\ (forall u,
        descramble p env self mem key totalLength subs
          srcPtr srcOffset dstPtr dstOffset = Undefined u ->
        u = NullDereference)
  /\ (has_capacity self totalLength = true
      \/ (allocates p env totalLength /\ ~ grow_fails p env totalLength) ->
      descramble p env self mem key totalLength subs
        srcPtr srcOffset dstPtr dstOffset = Undefined NullDereference).
Proof.
  intros Hnull Hlen Hk Ha Hsrc Hso Hsfit.
  rewrite (descramble_without_interface_cases p env self mem key totalLength
             k subs srcPtr srcOffset dstPtr dstOffset src) by assumption.
  destruct (ensureBufferCapacity p env self totalLength) as [en | u0] eqn:He.
  - split; [| split].
    + intros d Hd. destruct (en_ok en); [discriminate Hd |].
      injection Hd as <-. cbn [d_result d_trace d_memory].
      split; [reflexivity |]. split; [| reflexivity].
      apply replies_nil.
      apply (ensureBufferCapacity_quiet p env self totalLength en He).
    + intros u Hu. destruct (en_ok en); [| discriminate Hu].
      injection Hu as <-. reflexivity.
    + intros [Hhas | [Halloc Hpass]].
      * rewrite ensureBufferCapacity_no_op in He by exact Hhas.
        injection He as <-. reflexivity.
      * destruct (ensureBufferCapacity_returns p env self totalLength en He)
          as [[_ ->] | (Hcap & bytes & Hbytes & _)]; [reflexivity |].
        destruct (getMemory env (grown_size p env totalLength))
          as [[[heap|] offset] size] eqn:Hheap.
        2: { exfalso. apply Hpass. left. rewrite Hheap. reflexivity. }
        destruct (native_handle_create env) eqn:Hnative.
        2: { exfalso. apply Hpass. right. exact Hnative. }
        rewrite (ensureBufferCapacity_grow_succeeds p env self totalLength
                   bytes heap offset size Hcap Hbytes Hheap Hnative) in He.
        injection He as <-. reflexivity.
  - destruct (ensureBufferCapacity_undefined p env self totalLength u0 He)
      as (-> & Hcap & Hnone).
    split; [| split].
    + intros d Hd. discriminate Hd.
    + intros u Hu. injection Hu as <-. reflexivity.
    + intros _. reflexivity.
Qed.

Lemma descramble_without_interface_witness :
  exists rt held self,
    calls [Setup None] boot = Some rt
    /\ getDescrambler rt = Some held
    /\ descrambler_of held = Some self
    /\ (forall d,
          descramble LP64 (Scenario.env 4) self Scenario.memory 0 4
            [mkSubSample 4 0] 1%nat 1 2%nat 0 = Done d ->
          d_result d = NoMemory /\ replies (d_trace d) = []
          /\ d_memory d = Scenario.memory)
    /\ (forall u,
          descramble LP64 (Scenario.env 4) self Scenario.memory 0 4
            [mkSubSample 4 0] 1%nat 1 2%nat 0 = Undefined u ->
          u = NullDereference)
    /\ (has_capacity self 4 = true
        \/ (allocates LP64 (Scenario.env 4) 4
            /\ ~ grow_fails LP64 (Scenario.env 4) 4) ->
        descramble LP64 (Scenario.env 4) self Scenario.memory 0 4
          [mkSubSample 4 0] 1%nat 1 2%nat 0 = Undefined NullDereference).
Proof.
  eexists. eexists. eexists.
  split; [reflexivity |]. split; [reflexivity |]. split; [reflexivity |].
  apply (descramble_without_interface LP64 (Scenario.env 4) _
           Scenario.memory 0 4 5 [mkSubSample 4 0] 1%nat 1 2%nat 0
           [x01; x02; x03; x04; x05]).
  - reflexivity.
  - evaluate.
  - evaluate.
  - reflexivity.
  - reflexivity.
  - evaluate.
  - evaluate.
Defined.
